(** * pyquake.blendmdl: Quake alias models as Blender objects

    A shallow embedding of [src/pyquake/blendmdl.py].  Python values
    are modelled by the data the module reads from them, exceptions by
    the [result] type, and the host application's data blocks
    ([bpy.data]) by an explicit store that every host call threads. *)

From Stdlib Require Import ZArith QArith Qround Lia Lqa.
From stdpp Require Import base tactics option list gmap strings pretty.

Open Scope Z_scope.
Open Scope nat_scope.

(** ** Exceptions *)

Inductive FrameType := SINGLE | GROUP.

Global Instance FrameType_eq_dec : EqDecision FrameType.
Proof. solve_decision. Defined.

(** The exceptions the module can raise.  The three [Exception(...)]
    objects that [add_model] raises itself are kept apart by their
    message; the others are Python's built-in exception classes. *)
Inductive exn :=
  | FrameTypeNotSupported (ft : FrameType) (static : bool)
  | StaticFrameCount (n : nat)
  | KeyError
  | IndexError
  | ValueError
  | TypeError
  | ZeroDivisionError
  | OverflowError
  | UnboundLocalError
  | AttributeError
  | RuntimeError.

Inductive result (A : Type) :=
  | Ok (a : A)
  | Raise (e : exn).
Arguments Ok {A} a.
Arguments Raise {A} e.

Global Instance result_ret : MRet result := @Ok.
Global Instance result_bind : MBind result := λ A B f r,
  match r with
  | Ok a => f a
  | Raise e => Raise e
  end.

Global Instance result_fmap : FMap result := λ A B f r,
  match r with
  | Ok a => Ok (f a)
  | Raise e => Raise e
  end.

Definition is_Ok {A} (r : result A) : Prop := ∃ a, r = Ok a.

Definition returns {A} (r : result A) : bool :=
  match r with
  | Ok _ => true
  | Raise _ => false
  end.

(** The exception of a result, if it is one. *)
Definition raised {A} (r : result A) : option exn :=
  match r with
  | Ok _ => None
  | Raise e => Some e
  end.

(** A [for x in l: s = body(s, x)] loop whose body may raise. *)
Fixpoint for_in {A S} (l : list A) (body : S → A → result S) (s : S) : result S :=
  match l with
  | [] => Ok s
  | x :: l' => s' ← body s x; for_in l' body s'
  end.

(** [[f(x) for x in l]] where [f] may raise. *)
Definition traverse {A B} (f : A → result B) (l : list A) : result (list B) :=
  for_in l (λ acc x, y ← f x; Ok (acc ++ [y])) [].

(** [enumerate(l)] *)
Definition enumerate {A} (l : list A) : list (nat * A) := imap pair l.

(** ** Python sequences *)

(** [l[i]]: a negative index counts from the end, an index out of
    range raises IndexError. *)
Definition py_index {A} (l : list A) (i : Z) : result A :=
  let n := Z.of_nat (length l) in
  let j := if (i <? 0)%Z then (i + n)%Z else i in
  if (j <? 0)%Z then Raise IndexError
  else match l !! Z.to_nat j with
       | Some a => Ok a
       | None => Raise IndexError
       end.

(** [l.index(x)]: the first position of [x], ValueError when absent. *)
Fixpoint list_index (x : Z) (l : list Z) : result nat :=
  match l with
  | [] => Raise ValueError
  | y :: l' => if decide (x = y) then Ok 0 else S <$> list_index x l'
  end.

(** ** [_simplify_pydata] *)

(** The inner loop of [_simplify_pydata], one vertex index of one
    triangle: the state is [(vert_map, new_tri)]. *)
Definition simplify_vert (s : list Z * list nat) (vert_idx : Z)
    : result (list Z * list nat) :=
  let '(vert_map, new_tri) := s in
  let vert_map := if bool_decide (vert_idx ∈ vert_map) then vert_map
                  else vert_map ++ [vert_idx] in
  k ← list_index vert_idx vert_map;
  Ok (vert_map, new_tri ++ [k]).

(** The outer loop body, one triangle: the state is
    [(vert_map, new_tris)]. *)
Definition simplify_tri (s : list Z * list (list nat)) (tri : list Z)
    : result (list Z * list (list nat)) :=
  let '(vert_map, new_tris) := s in
  '(vert_map, new_tri) ← for_in tri simplify_vert (vert_map, []);
  Ok (vert_map, new_tris ++ [new_tri]).

(** [pydata] is the triple (vertices, edges, faces) that
    [Mesh.from_pydata] takes; the edge list is always empty. *)
Definition pydata (V : Type) : Type := list V * list (nat * nat) * list (list nat).

Definition _simplify_pydata {V} (verts : list V) (tris : list (list Z))
    : result (pydata V * list Z) :=
  '(vert_map, new_tris) ← for_in tris simplify_tri ([], []);
  new_verts ← traverse (py_index verts) vert_map;
  Ok ((new_verts, [], new_tris), vert_map).

(** Following the claim's words: the vertex indices of a sequence in
    order of first use, each once. *)
Fixpoint first_uses (seen l : list Z) : list Z :=
  match l with
  | [] => []
  | x :: l' => if bool_decide (x ∈ seen) then first_uses seen l'
               else x :: first_uses (seen ++ [x]) l'
  end.

Example simplify_ex :
  _simplify_pydata ["a"; "b"; "c"; "d"; "e"]%string [[4; 2; 1]; [2; 4; 3]]%Z
  = Ok ((["e"; "c"; "b"; "d"]%string, [], [[0; 1; 2]; [1; 0; 3]]), [4; 2; 1; 3]%Z).
Proof. reflexivity. Qed.

(** ** Numbers

    Python floats and NumPy scalars are modelled by exact rationals. *)

(** [round(x)] on a float: to the nearest integer, ties to the even one. *)
Definition py_round (x : Q) : Z :=
  let f := Qfloor x in
  match (x - inject_Z f ?= 1 # 2)%Q with
  | Lt => f
  | Gt => (f + 1)%Z
  | Eq => if Z.even f then f else (f + 1)%Z
  end.

(** A vertex position, [list(v)] of a row of a frame's vertex array. *)
Definition vert : Type := list Q.

(** ** The alias model, as [blendmdl] reads it

    [pyquake.mdl] is not among the sources here.  Its [AliasModel] is
    modelled by the attributes and methods this module uses; the two
    lookup methods are fields, since their code is not available. *)
Module mdl.

Record SimpleFrame := {
  name : string;
  frame_verts : list vert;
}.

(** A frame is either one pose ([frame]) or a group of poses
    ([frames]) with their end times ([times]). *)
Inductive Frame :=
  | Single (frame : SimpleFrame)
  | Group (times : list Q) (frames : list SimpleFrame).

Definition frame_type (f : Frame) : FrameType :=
  match f with
  | Single _ => SINGLE
  | Group _ _ => GROUP
  end.

(** The attributes [.frame], [.frames] and [.times]; a frame of the
    other kind does not have them. *)
Definition frame (f : Frame) : result SimpleFrame :=
  match f with
  | Single sf => Ok sf
  | Group _ _ => Raise AttributeError
  end.

Definition group_frames (f : Frame) : result (list SimpleFrame) :=
  match f with
  | Single _ => Raise AttributeError
  | Group _ fs => Ok fs
  end.

Definition group_times (f : Frame) : result (list Q) :=
  match f with
  | Single _ => Raise AttributeError
  | Group ts _ => Ok ts
  end.

(** The exception of a lookup method is taken to be an IndexError. *)
Definition lookup_result {A} (o : option A) : result A :=
  match o with
  | Some a => Ok a
  | None => Raise IndexError
  end.

Record AliasModel := {
  skin_width : Z;                              (* header['skin_width'] *)
  skin_height : Z;                             (* header['skin_height'] *)
  frames : list Frame;
  tris : list (list Z);
  disjoint_tri_sets : list (list Z);
  skins : list (list (list Z));
  (** [get_tri_tcs(tri_idx)]: the (s, t) pairs of a triangle's corners;
      None when the call raises, for a triangle that does not exist *)
  get_tri_tcs : Z → option (list (Q * Q));
  (** [get_tri_skin(tri_idx, skin_idx)]: a boolean mask and the skin's
      palette indices, two arrays of the same shape; they are given
      texel by texel, as the mask bit and the palette index of each;
      None when the call raises *)
  get_tri_skin : Z → Z → option (list (bool * Z));
}.

End mdl.

(** ** The host's data blocks *)
Module bpy.

Inductive interpolation := BEZIER | LINEAR.

(** A point of an F-curve.  New points get the host's default
    interpolation. *)
Record Keyframe := {
  co_frame : Z;
  co_value : Q;
  interp : interpolation;
}.

(** A shape-key block: a named set of vertex positions with a weight
    [value].  [keyframes] is the F-curve of [value], as the list of
    the points inserted so far, in insertion order. *)
Record ShapeKey := {
  key_name : string;
  key_data : list vert;
  value : Q;
  keyframes : list Keyframe;
}.

Record Mesh := {
  mesh_name : string;
  vertices : list vert;
  polygons : list (list nat);
  shape_keys : list ShapeKey;
  mesh_materials : list string;
  (** UV layers; a layer holds one UV pair per loop of each face *)
  uv_layers : list (list (list (Q * Q)));
}.

Record Object := {
  object_name : string;
  data : option nat;              (* the object's mesh, None for an empty *)
  parent : option nat;
}.

(** Values of a model's configuration dictionary. *)
Inductive cfg_value :=
  | CfgBool (b : bool)
  | CfgNum (q : Q).

Inductive shader (image_array : Type) :=
  | NoShader
  | Diffuse (im : string * image_array)
  | Fullbright (im fullbright_im : string * image_array) (strength : cfg_value).
Arguments NoShader {_}.
Arguments Diffuse {_} _.
Arguments Fullbright {_} _ _ _.

Record Material (image_array : Type) := {
  shading : shader image_array;
  sample_as_light : option cfg_value;      (* mat.cycles.sample_as_light *)
}.
Arguments shading {_} _.
Arguments sample_as_light {_} _.

End bpy.

(** A shape-key block is referred to by its mesh and its position
    among the mesh's key blocks. *)
Definition block_ref : Type := nat * nat.

(** The dataclass that [add_model] returns. *)
Module BlendMdl.
Record t := {
  am : mdl.AliasModel;
  blocks : gmap Z block_ref;
  obj : nat;
  sample_as_light_mats : gset string;
}.
End BlendMdl.

(** The other modules of the package ([pak], [mdl], [blendmat]) are not
    among the sources; what [blendmdl] needs from them and cannot be
    read off this module is taken as a parameter. *)
Class Pyquake := {
  (** pixels of an image as [blendmat] builds them *)
  image_array : Type;
  (** [pak.Filesystem(pak_root)]: the files below a pak root, by name *)
  pak_Filesystem : string → result (gmap string (list Byte.byte));
  (** [mdl.AliasModel(f)]: the model parsed from a file's contents *)
  mdl_AliasModel : list Byte.byte → result mdl.AliasModel;
  (** [blendmat.array_ims_from_indices(pal, im_indices, force_fullbright)]:
      the texture and, unless it is None, the fullbright texture *)
  array_ims_from_indices :
    list (list Q) → list (list Z) → bpy.cfg_value → image_array * option image_array;
}.

Section Host.
Context `{Pyquake}.

(** [bpy.data] and the scene's object collection.  Objects and meshes
    are referred to by their position in the store, materials by their
    name, which is their key in [bpy.data.materials]. *)
Record bpy_data := {
  objects : list bpy.Object;
  meshes : list bpy.Mesh;
  materials : gmap string (bpy.Material image_array);
  images : list (string * image_array);
  scene_objects : list nat;
}.

(** Host calls: a state transformer on [bpy_data] that may raise.  The
    host's state at the point of a raise is not kept. *)
Definition M (A : Type) : Type := bpy_data → result (A * bpy_data).

Global Instance M_ret : MRet M := λ A a st, Ok (a, st).
Global Instance M_bind : MBind M := λ A B f m st,
  match m st with
  | Ok (a, st') => f a st'
  | Raise e => Raise e
  end.

Definition lift {A} (r : result A) : M A := λ st,
  match r with
  | Ok a => Ok (a, st)
  | Raise e => Raise e
  end.

Definition raise {A} (e : exn) : M A := λ _, Raise e.

(** A [for] loop whose body calls the host. *)
Fixpoint for_inM {A S} (l : list A) (body : S → A → M S) (s : S) : M S :=
  match l with
  | [] => mret s
  | x :: l' => s' ← body s x; for_inM l' body s'
  end.

Definition set_objects (f : list bpy.Object → list bpy.Object) : M unit := λ st,
  Ok (tt, {| objects := f (objects st); meshes := meshes st;
             materials := materials st; images := images st;
             scene_objects := scene_objects st |}).

Definition set_meshes (f : list bpy.Mesh → list bpy.Mesh) : M unit := λ st,
  Ok (tt, {| objects := objects st; meshes := f (meshes st);
             materials := materials st; images := images st;
             scene_objects := scene_objects st |}).

Definition set_materials
    (f : gmap string (bpy.Material image_array) → gmap string (bpy.Material image_array))
    : M unit := λ st,
  Ok (tt, {| objects := objects st; meshes := meshes st;
             materials := f (materials st); images := images st;
             scene_objects := scene_objects st |}).

Definition set_images (f : list (string * image_array) → list (string * image_array))
    : M unit := λ st,
  Ok (tt, {| objects := objects st; meshes := meshes st;
             materials := materials st; images := f (images st);
             scene_objects := scene_objects st |}).

Definition set_scene_objects (f : list nat → list nat) : M unit := λ st,
  Ok (tt, {| objects := objects st; meshes := meshes st;
             materials := materials st; images := images st;
             scene_objects := f (scene_objects st) |}).

(** [bpy.data.objects.new(name, data)] *)
Definition objects_new (name : string) (data : option nat) : M nat := λ st,
  (set_objects (λ os, os ++ [ {| bpy.object_name := name; bpy.data := data;
                                 bpy.parent := None |} ]);;
   mret (length (objects st))) st.

(** [o.parent = p] *)
Definition set_parent (o p : nat) : M unit :=
  set_objects (alter (λ ob, {| bpy.object_name := bpy.object_name ob;
                               bpy.data := bpy.data ob; bpy.parent := Some p |}) o).

(** [bpy.context.scene.collection.objects.link(o)] *)
Definition scene_link (o : nat) : M unit :=
  set_scene_objects (λ l, l ++ [o]).

(** [bpy.data.meshes.new(name)] *)
Definition meshes_new (name : string) : M nat := λ st,
  (set_meshes (λ ms, ms ++ [ {| bpy.mesh_name := name; bpy.vertices := [];
                                bpy.polygons := []; bpy.shape_keys := [];
                                bpy.mesh_materials := []; bpy.uv_layers := [] |} ]);;
   mret (length (meshes st))) st.

Definition with_geometry (verts : list vert) (faces : list (list nat)) (m : bpy.Mesh)
    : bpy.Mesh :=
  {| bpy.mesh_name := bpy.mesh_name m; bpy.vertices := verts; bpy.polygons := faces;
     bpy.shape_keys := bpy.shape_keys m; bpy.mesh_materials := bpy.mesh_materials m;
     bpy.uv_layers := bpy.uv_layers m |}.

Definition with_shape_keys (f : list bpy.ShapeKey → list bpy.ShapeKey) (m : bpy.Mesh)
    : bpy.Mesh :=
  {| bpy.mesh_name := bpy.mesh_name m; bpy.vertices := bpy.vertices m;
     bpy.polygons := bpy.polygons m; bpy.shape_keys := f (bpy.shape_keys m);
     bpy.mesh_materials := bpy.mesh_materials m; bpy.uv_layers := bpy.uv_layers m |}.

Definition with_materials (f : list string → list string) (m : bpy.Mesh) : bpy.Mesh :=
  {| bpy.mesh_name := bpy.mesh_name m; bpy.vertices := bpy.vertices m;
     bpy.polygons := bpy.polygons m; bpy.shape_keys := bpy.shape_keys m;
     bpy.mesh_materials := f (bpy.mesh_materials m); bpy.uv_layers := bpy.uv_layers m |}.

Definition with_uv_layers
    (f : list (list (list (Q * Q))) → list (list (list (Q * Q)))) (m : bpy.Mesh)
    : bpy.Mesh :=
  {| bpy.mesh_name := bpy.mesh_name m; bpy.vertices := bpy.vertices m;
     bpy.polygons := bpy.polygons m; bpy.shape_keys := bpy.shape_keys m;
     bpy.mesh_materials := bpy.mesh_materials m; bpy.uv_layers := f (bpy.uv_layers m) |}.

(** Reading through a reference.  A Python reference is never
    dangling; a position outside the store raises RuntimeError. *)
Definition get_mesh (mesh : nat) : M bpy.Mesh := λ st,
  match meshes st !! mesh with
  | Some m => Ok (m, st)
  | None => Raise RuntimeError
  end.

(** [mesh.from_pydata(verts, edges, faces)] *)
Definition from_pydata (mesh : nat) (pd : pydata vert) : M unit :=
  let '(verts, _, faces) := pd in
  set_meshes (alter (with_geometry verts faces) mesh).

(** [mesh.materials.append(mat)] *)
Definition materials_append (mesh : nat) (mat : string) : M unit :=
  set_meshes (alter (with_materials (λ l, l ++ [mat])) mesh).

(** [obj.data]: the mesh of a mesh object. *)
Definition object_data (obj : nat) : M nat := λ st,
  match objects st !! obj with
  | Some o => match bpy.data o with
              | Some mesh => Ok (mesh, st)
              | None => Raise RuntimeError
              end
  | None => Raise RuntimeError
  end.

Definition alter_block (f : bpy.ShapeKey → bpy.ShapeKey) (block : block_ref) : M unit :=
  set_meshes (alter (with_shape_keys (alter f block.2)) block.1).

Definition get_block (block : block_ref) : M bpy.ShapeKey :=
  m ← get_mesh block.1;
  match bpy.shape_keys m !! block.2 with
  | Some k => mret k
  | None => raise RuntimeError
  end.

(** [obj.shape_key_add(name=name)]: a new block on the object's mesh,
    holding one position per vertex of the mesh, with weight 0 and no
    F-curve. *)
Definition shape_key_add (obj : nat) (name : string) : M block_ref :=
  mesh ← object_data obj;
  m ← get_mesh mesh;
  set_meshes (alter (with_shape_keys (λ ks, ks ++
    [ {| bpy.key_name := name; bpy.key_data := bpy.vertices m; bpy.value := 0;
         bpy.keyframes := [] |} ])) mesh);;
  mret (mesh, length (bpy.shape_keys m)).

Definition with_key_data (d : list vert) (k : bpy.ShapeKey) : bpy.ShapeKey :=
  {| bpy.key_name := bpy.key_name k; bpy.key_data := d; bpy.value := bpy.value k;
     bpy.keyframes := bpy.keyframes k |}.

(** [block.value = v] *)
Definition with_value (v : Q) (k : bpy.ShapeKey) : bpy.ShapeKey :=
  {| bpy.key_name := bpy.key_name k; bpy.key_data := bpy.key_data k; bpy.value := v;
     bpy.keyframes := bpy.keyframes k |}.

(** [block.keyframe_insert('value', frame=f)]: a point with the block's
    current weight is added to the weight's F-curve. *)
Definition keyframe_insert_value (f : Z) (k : bpy.ShapeKey) : bpy.ShapeKey :=
  {| bpy.key_name := bpy.key_name k; bpy.key_data := bpy.key_data k;
     bpy.value := bpy.value k;
     bpy.keyframes := bpy.keyframes k ++
       [ {| bpy.co_frame := f; bpy.co_value := bpy.value k; bpy.interp := bpy.BEZIER |} ] |}.

(** [kfp.interpolation = 'LINEAR'] for every point of a block's curve *)
Definition with_linear (k : bpy.ShapeKey) : bpy.ShapeKey :=
  {| bpy.key_name := bpy.key_name k; bpy.key_data := bpy.key_data k;
     bpy.value := bpy.value k;
     bpy.keyframes :=
       (λ p, {| bpy.co_frame := bpy.co_frame p; bpy.co_value := bpy.co_value p;
                bpy.interp := bpy.LINEAR |}) <$> bpy.keyframes k |}.


(** ** [_create_block] *)

(** [for x, v in zip(l, vs): x.attr = f(v)] on a list of mutable
    items: the first [min (length l) (length vs)] items are
    reassigned. *)
Fixpoint assign_zip {A B} (f : B → A) (l : list A) (vs : list B) : list A :=
  match l, vs with
  | _ :: l', v :: vs' => f v :: assign_zip f l' vs'
  | _, _ => l
  end.

Definition _create_block (obj : nat) (simple_frame : mdl.SimpleFrame)
    (vert_map : list Z) : M block_ref :=
  block ← shape_key_add obj (mdl.name simple_frame);
  k ← get_block block;
  (* the loop reads [frame_verts[old_vert_idx]] for as many entries of
     [vert_map] as the block has positions *)
  cos ← lift (traverse (py_index (mdl.frame_verts simple_frame))
                (take (length (bpy.key_data k)) vert_map));
  alter_block (λ k, with_key_data (assign_zip id (bpy.key_data k) cos) k) block;;
  mret block.

(** ** [_animate] *)

(** [int(round(fps * time))] *)
Definition key_frame (fps time : Q) : Z := py_round (fps * time).

(** [d[k]] on a dict *)
Definition dict_get `{Countable K} {V} (d : gmap K V) (k : K) : result V :=
  match d !! k with
  | Some v => Ok v
  | None => Raise KeyError
  end.

Definition animate_step (blocks : gmap Z block_ref) (fps : Q)
    (s : option block_ref * option Q) (entry : Q * Z)
    : M (option block_ref * option Q) :=
  let '(prev_block, prev_time) := s in
  let '(time, frame_num) := entry in
  block ← lift (dict_get blocks frame_num);
  alter_block (with_value 1) block;;
  alter_block (keyframe_insert_value (key_frame fps time)) block;;
  match prev_block with
  | Some prev_block =>
      (* a host object is truthy, so the test is [prev_block is not None] *)
      match prev_time with
      | Some prev_time =>
          alter_block (with_value 0) block;;
          alter_block (keyframe_insert_value (key_frame fps prev_time)) block;;
          alter_block (with_value 0) prev_block;;
          alter_block (keyframe_insert_value (key_frame fps time)) prev_block
      | None => raise TypeError
      end
  | None => mret tt
  end;;
  mret (Some block, Some time).

(** The F-curves of [obj.data.shape_keys.animation_data.action] are
    the weight curves of the blocks of the object's mesh. *)
Definition action_set_linear (obj : nat) : M unit :=
  mesh ← object_data obj;
  set_meshes (alter (with_shape_keys (fmap with_linear)) mesh).

Definition _animate (am : mdl.AliasModel) (blocks : gmap Z block_ref) (obj : nat)
    (frames : list (Q * Z)) (fps : Q) : M unit :=
  '(prev_block, prev_time) ← for_inM frames (animate_step blocks fps) (None, None);
  match prev_time with
  | Some _ => action_set_linear obj
  | None => mret tt
  end.

(** ** [_set_uvs] *)

(** The inner loops of [_set_uvs] on the UV layer [uv_layer], whose
    [i]-th entry holds the UVs of the loops of face [i]. *)
Definition set_face_uvs (am : mdl.AliasModel)
    (uv_layer : list (list (Q * Q))) (it : nat * Z) : result (list (list (Q * Q))) :=
  let '(face, tri_idx) := it in
  tcs ← mdl.lookup_result (mdl.get_tri_tcs am tri_idx);
  Ok (alter (λ loops, assign_zip
               (λ '(s, t), (s / inject_Z (mdl.skin_width am),
                            t / inject_Z (mdl.skin_height am))%Q)
               loops tcs) face uv_layer).

Definition _set_uvs (mesh : nat) (am : mdl.AliasModel) (tri_set : list Z) : M unit :=
  (* mesh.uv_layers.new(): one UV per loop, initially zero *)
  set_meshes (alter (λ m, with_uv_layers
    (λ ls, ls ++ [ (λ face : list nat, (λ _, (0, 0)%Q) <$> face) <$> bpy.polygons m ]) m) mesh);;
  (* bm.from_mesh(mesh); uv_layer = bm.loops.layers.uv[0] *)
  m ← get_mesh mesh;
  uv_layer ← lift (py_index (bpy.uv_layers m) 0);
  (* zip(bm.faces, tri_set) *)
  uv_layer ← lift (for_in (zip (seq 0 (length (bpy.polygons m))) tri_set)
                     (set_face_uvs am) uv_layer);
  (* bm.to_mesh(mesh) *)
  set_meshes (alter (with_uv_layers (λ ls, <[0 := uv_layer]> ls)) mesh).

(** ** [_get_tri_set_fullbright_frac] *)

(** [np.sum] of an integer array *)
Definition np_sum (a : list Z) : Z := foldr Z.add 0%Z a.

(** The value of [fullbright_area / skin_area].  The two areas start
    as Python ints and become NumPy integers with the first addition
    of an [np.sum]: dividing Python's 0 by 0 raises, dividing NumPy's
    gives nan (with a warning). *)
Inductive frac :=
  | Frac (q : Q)
  | NaN.

Definition fullbright_step (am : mdl.AliasModel) (skin_idx : Z)
    (s : Z * Z) (tri_idx : Z) : result (Z * Z) :=
  let '(skin_area, fullbright_area) := s in
  texels ← mdl.lookup_result (mdl.get_tri_skin am tri_idx skin_idx);
  (* np.sum(mask) and np.sum(mask * (skin >= 224)) *)
  Ok ((skin_area + np_sum ((λ x, Z.b2z x.1) <$> texels))%Z,
      (fullbright_area
       + np_sum ((λ x, Z.b2z x.1 * Z.b2z (224 <=? x.2))%Z <$> texels))%Z).

Definition _get_tri_set_fullbright_frac (am : mdl.AliasModel) (tri_set : list Z)
    (skin_idx : Z) : result frac :=
  '(skin_area, fullbright_area) ← for_in tri_set (fullbright_step am skin_idx) (0, 0)%Z;
  if decide (skin_area = 0%Z) then
    match tri_set with
    | [] => Raise ZeroDivisionError
    | _ :: _ => Ok NaN
    end
  else Ok (Frac (inject_Z fullbright_area / inject_Z skin_area)).

(** ** The palette *)

(** [a.reshape(rows, cols)] of a flat array *)
Fixpoint rows_of {A} (rows cols : nat) (l : list A) : list (list A) :=
  match rows with
  | 0 => []
  | S rows' => take cols l :: rows_of rows' cols (drop cols l)
  end.

Definition np_reshape {A} (rows cols : nat) (l : list A) : result (list (list A)) :=
  if decide (length l = rows * cols) then Ok (rows_of rows cols l)
  else Raise ValueError.

(** [np.fromstring(raw, dtype=np.uint8).reshape(256, 3) / 255] *)
Definition load_palette (raw : list Byte.byte) : result (list (list Q)) :=
  fmap (M := list) (fmap (M := list) (λ x, inject_Z x / 255)%Q)
  <$> np_reshape 256 3 ((λ b, Z.of_N (Byte.to_N b)) <$> raw).

(** [np.concatenate([a, b], axis=1)] of two 2-dimensional arrays, given
    as lists of rows: the row counts must agree. *)
Definition np_concatenate_axis1 {A} (a b : list (list A)) : result (list (list A)) :=
  if decide (length a = length b) then Ok (zip_with app a b)
  else Raise ValueError.

(** [np.concatenate([pal, np.ones(256)[:, None]], axis=1)] *)
Definition add_alpha (pal : list (list Q)) : result (list (list Q)) :=
  np_concatenate_axis1 pal (replicate 256 [1%Q]).

(** ** [_get_model_config] *)

Definition _get_model_config (mdl_name : string)
    (mdls_cfg : gmap string (gmap string bpy.cfg_value))
    : result (gmap string bpy.cfg_value) :=
  cfg ← dict_get mdls_cfg "__default__";
  (* cfg.update(d): the entries of [d] win *)
  Ok (default ∅ (mdls_cfg !! mdl_name) ∪ cfg).

(** ** [blendmat]

    Modelled from the spec: [blendmat.new_mat], [blendmat.im_from_array],
    [blendmat.setup_fullbright_material] and
    [blendmat.setup_diffuse_material] are not among the sources.  The
    spec has materials owned by the host and shared by name: [new_mat]
    is taken to register a new material under the requested name, the
    other three to record the image and the shading they are given. *)
Definition new_mat (name : string) : M string :=
  set_materials (insert name {| bpy.shading := bpy.NoShader;
                                bpy.sample_as_light := None |});;
  mret name.

Definition im_from_array (name : string) (array_im : image_array)
    : M (string * image_array) :=
  set_images (λ l, l ++ [(name, array_im)]);;
  mret (name, array_im).

Definition set_shading (mat : string) (sh : bpy.shader image_array) : M unit :=
  set_materials (alter (λ m, {| bpy.shading := sh;
                                bpy.sample_as_light := bpy.sample_as_light m |}) mat).

Definition setup_fullbright_material (mat : string)
    (im fullbright_im : string * image_array) (strength : bpy.cfg_value) : M unit :=
  set_shading mat (bpy.Fullbright im fullbright_im strength).

Definition setup_diffuse_material (mat : string) (im : string * image_array) : M unit :=
  set_shading mat (bpy.Diffuse im).

(** [mat.cycles.sample_as_light = v] *)
Definition set_sample_as_light (mat : string) (v : bpy.cfg_value) : M unit :=
  set_materials (alter (λ m, {| bpy.shading := bpy.shading m;
                                bpy.sample_as_light := Some v |}) mat).

(** [bpy.data.materials[name]] *)
Definition materials_get (name : string) : M string := λ st,
  match materials st !! name with
  | Some _ => Ok (name, st)
  | None => Raise KeyError
  end.

(** Truth value of a configuration entry. *)
Definition truthy (v : bpy.cfg_value) : bool :=
  match v with
  | bpy.CfgBool b => b
  | bpy.CfgNum q => negb (Qeq_bool q 0)
  end.

(** ** [add_model] *)

(** Lines 140-145: the vertices of the model's first pose and the
    triangles of the set, simplified. *)
Definition initial_verts (am : mdl.AliasModel) : result (list vert) :=
  frame0 ← py_index (mdl.frames am) 0;
  if decide (mdl.frame_type frame0 = SINGLE) then
    mdl.frame_verts <$> mdl.frame frame0
  else
    fs ← mdl.group_frames frame0;
    mdl.frame_verts <$> py_index fs 0.

Definition tri_set_pydata (am : mdl.AliasModel) (tri_set : list Z)
    : result (pydata vert * list Z) :=
  verts ← initial_verts am;
  tris ← traverse (py_index (mdl.tris am)) tri_set;
  _simplify_pydata verts tris.

(** Lines 154-157, the loop body. *)
Definition add_frame_block (subobj : nat) (vert_map : list Z)
    (blocks : gmap Z block_ref) (it : nat * mdl.Frame) : M (gmap Z block_ref) :=
  let '(frame_num, frame) := it in
  if decide (mdl.frame_type frame ≠ SINGLE) then
    raise (FrameTypeNotSupported (mdl.frame_type frame) false)
  else
    simple_frame ← lift (mdl.frame frame);
    block ← _create_block subobj simple_frame vert_map;
    mret (<[Z.of_nat frame_num := block]> blocks).

(** Lines 165-166, the loop body. *)
Definition add_group_block (subobj : nat) (vert_map : list Z)
    (blocks : gmap Z block_ref) (it : nat * mdl.SimpleFrame) : M (gmap Z block_ref) :=
  let '(frame_num, simple_frame) := it in
  block ← _create_block subobj simple_frame vert_map;
  mret (<[Z.of_nat frame_num := block]> blocks).

(** Lines 169-176: the times of a group frame, repeated until
    [final_time], each with the number of its pose.  [n] is
    [len(group_frame.frames)]. *)
Definition loop_frames (final_time : Q) (times : list Q) (n : nat)
    : result (list (Q * Z)) :=
  last ← py_index times (-1);
  (* int(np.ceil(final_time / last)): nan and inf do not convert *)
  num_loops ←
    (if Qeq_bool last 0 then
       if Qeq_bool final_time 0 then Raise ValueError else Raise OverflowError
     else Ok (Qceiling (final_time / last)));
  (* np.empty((num_loops, n)) *)
  if (num_loops <? 0)%Z then Raise ValueError else
  (* times[:, 0] = 0 *)
  if decide (n = 0) then Raise IndexError else
  (* times[:, 1:] = group_frame.times[None, :-1], broadcast along rows,
     and along columns when the right-hand side has one column *)
  let init := take (length times - 1) times in
  row_tail ←
    (if decide (length init = n - 1) then Ok init
     else match init with
          | [t] => Ok (replicate (n - 1) t)
          | _ => Raise ValueError
          end);
  let row := 0%Q :: row_tail in
  (* times += np.arange(num_loops)[:, None] * last; np.ravel;
     zip(times, itertools.cycle(range(n))) *)
  Ok (mjoin ((λ i, imap (λ j t, (t + inject_Z (Z.of_nat i) * last, Z.of_nat j)%Q) row)
             <$> seq 0 (Z.to_nat num_loops))).

(** Lines 152-178: the shape-key blocks of one sub-object. *)
Definition shape_key_blocks (am : mdl.AliasModel) (subobj : nat) (vert_map : list Z)
    (frames : list (Q * Z)) (final_time : Q) (static : bool) (fps : Q)
    : M (gmap Z block_ref) :=
  if negb static then
    blocks ← for_inM (enumerate (mdl.frames am)) (add_frame_block subobj vert_map) ∅;
    _animate am blocks subobj frames fps;;
    mret blocks
  else
    if decide (length frames ≠ 1) then raise (StaticFrameCount (length frames)) else
    frame0 ← lift (py_index frames 0);
    group_frame ← lift (py_index (mdl.frames am) frame0.2);
    if decide (mdl.frame_type group_frame ≠ GROUP) then
      raise (FrameTypeNotSupported (mdl.frame_type group_frame) true)
    else
    group_frames ← lift (mdl.group_frames group_frame);
    blocks ← for_inM (enumerate group_frames) (add_group_block subobj vert_map) ∅;
    times ← lift (mdl.group_times group_frame);
    loop_frames ← lift (loop_frames final_time times (length group_frames));
    _animate am blocks subobj loop_frames fps;;
    mret blocks.

(** Lines 181-204: the material of one sub-object, created unless one
    of that name exists. *)
Definition tri_set_material (am : mdl.AliasModel) (pal : list (list Q))
    (mdl_name obj_name : string) (skin_idx : Z) (mdl_cfg : gmap string bpy.cfg_value)
    (tri_set_idx : nat) (sample_as_light_mats : gset string)
    : M (string * gset string) :=
  sample_as_light ← lift (dict_get mdl_cfg "sample_as_light");
  let mat_name := mdl_name +:+ "_skin" +:+ pretty skin_idx in
  let mat_name :=
    if truthy sample_as_light
    then mat_name +:+ "_" +:+ obj_name +:+ "_triset" +:+ pretty tri_set_idx
         +:+ "_fullbright"
    else mat_name in
  mats ← (λ st, Ok (materials st, st));
  sample_as_light_mats ←
    (if decide (mats !! mat_name = None) then
       mat ← new_mat mat_name;
       skin ← lift (py_index (mdl.skins am) skin_idx);
       force_fullbright ← lift (dict_get mdl_cfg "force_fullbright");
       let '(array_im, fullbright_array_im) :=
         array_ims_from_indices pal skin force_fullbright in
       im ← im_from_array mat_name array_im;
       match fullbright_array_im with
       | Some fullbright_array_im =>
           fullbright_im ← im_from_array (mat_name +:+ "_fullbright") fullbright_array_im;
           strength ← lift (dict_get mdl_cfg "strength");
           setup_fullbright_material mat im fullbright_im strength
       | None => setup_diffuse_material mat im
       end;;
       set_sample_as_light mat sample_as_light;;
       mret (if truthy sample_as_light then {[mat]} ∪ sample_as_light_mats
             else sample_as_light_mats)
     else mret sample_as_light_mats);
  mat ← materials_get mat_name;
  mret (mat, sample_as_light_mats).

(** Lines 137-208, the body of the loop over the triangle sets.  The
    loop's state is [blocks], unbound before the first iteration, and
    [sample_as_light_mats]. *)
Definition add_tri_set (am : mdl.AliasModel) (pal : list (list Q))
    (mdl_name obj_name : string) (frames : list (Q * Z)) (skin_idx : Z)
    (final_time : Q) (mdl_cfg : gmap string bpy.cfg_value) (static : bool) (fps : Q)
    (obj : nat)
    (s : option (gmap Z block_ref) * gset string) (it : nat * list Z)
    : M (option (gmap Z block_ref) * gset string) :=
  let '(_, sample_as_light_mats) := s in
  let '(tri_set_idx, tri_set) := it in
  let subobj_name := obj_name +:+ "_triset" +:+ pretty tri_set_idx in
  mesh ← meshes_new subobj_name;
  '(pydata, vert_map) ← lift (tri_set_pydata am tri_set);
  from_pydata mesh pydata;;
  subobj ← objects_new subobj_name (Some mesh);
  set_parent subobj obj;;
  scene_link subobj;;
  blocks ← shape_key_blocks am subobj vert_map frames final_time static fps;
  '(mat, sample_as_light_mats) ←
    tri_set_material am pal mdl_name obj_name skin_idx mdl_cfg tri_set_idx
      sample_as_light_mats;
  materials_append mesh mat;;
  _set_uvs mesh am tri_set;;
  mret (Some blocks, sample_as_light_mats).

Definition add_model (am : mdl.AliasModel) (pal : list (list Q))
    (mdl_name obj_name : string) (frames : list (Q * Z)) (skin_idx : Z)
    (final_time : Q) (mdls_cfg : gmap string (gmap string bpy.cfg_value))
    (static : bool) (fps : Q) : M BlendMdl.t :=
  mdl_cfg ← lift (_get_model_config mdl_name mdls_cfg);
  pal ← lift (add_alpha pal);
  obj ← objects_new obj_name None;
  scene_link obj;;
  '(blocks, sample_as_light_mats) ←
    for_inM (enumerate (mdl.disjoint_tri_sets am))
      (add_tri_set am pal mdl_name obj_name frames skin_idx final_time mdl_cfg
         static fps obj)
      (None, ∅);
  match blocks with
  | Some blocks =>
      mret {| BlendMdl.am := am; BlendMdl.blocks := blocks; BlendMdl.obj := obj;
              BlendMdl.sample_as_light_mats := sample_as_light_mats |}
  | None => raise UnboundLocalError
  end.

(** ** [load_model] *)

(** Python values passed to [add_model]. *)
Inductive pyarg :=
  | ArgModel (am : mdl.AliasModel)
  | ArgArray (a : list (list Q))
  | ArgStr (s : string)
  | ArgFrames (frames : list (Q * Z))
  | ArgInt (z : Z)
  | ArgNum (q : Q)
  | ArgCfg (cfg : gmap string (gmap string bpy.cfg_value))
  | ArgBool (b : bool).

(** The parameters of [def add_model(...)], with their defaults. *)
Definition add_model_params : list (string * option pyarg) :=
  [ ("am", None); ("pal", None); ("mdl_name", None); ("obj_name", None);
    ("frames", None); ("skin_idx", None); ("final_time", None); ("mdls_cfg", None);
    ("static", Some (ArgBool false)); ("fps", Some (ArgInt 30)) ]%string.

(** Binding positional arguments to parameters: too many arguments, or
    no argument for a parameter without default, is a TypeError. *)
Fixpoint bind_positional (params : list (string * option pyarg)) (args : list pyarg)
    : result (list pyarg) :=
  match params, args with
  | [], [] => Ok []
  | [], _ :: _ => Raise TypeError
  | _ :: params', a :: args' => cons a <$> bind_positional params' args'
  | (_, Some d) :: params', [] => cons d <$> bind_positional params' []
  | (_, None) :: _, [] => Raise TypeError
  end.

Definition as_num (a : pyarg) : result Q :=
  match a with
  | ArgNum q => Ok q
  | ArgInt z => Ok (inject_Z z)
  | _ => Raise TypeError
  end.

(** A call of [add_model] with positional arguments only. *)
Definition call_add_model (args : list pyarg) : M BlendMdl.t :=
  bound ← lift (bind_positional add_model_params args);
  match bound with
  | [ArgModel am; ArgArray pal; ArgStr mdl_name; ArgStr obj_name; ArgFrames frames;
     ArgInt skin_idx; final_time; ArgCfg mdls_cfg; ArgBool static; fps] =>
      final_time ← lift (as_num final_time);
      fps ← lift (as_num fps);
      add_model am pal mdl_name obj_name frames skin_idx final_time mdls_cfg static fps
  | _ => raise TypeError
  end.

Definition load_model (pak_root mdl_name obj_name : string) (frames : list (Q * Z))
    (skin_idx : Z) (fps : Q) : M unit :=
  fs ← lift (pak_Filesystem pak_root);
  f ← lift (dict_get fs ("progs/" +:+ mdl_name +:+ ".mdl"));
  am ← lift (mdl_AliasModel f);
  raw ← lift (dict_get fs "gfx/palette.lmp");
  pal ← lift (load_palette raw);
  call_add_model [ArgModel am; ArgArray pal; ArgStr mdl_name; ArgStr obj_name;
                  ArgFrames frames; ArgInt skin_idx; ArgNum fps];;
  mret tt.

End Host.

(** ** A concrete package and models, for the examples *)

Definition sample_frame (name : string) (dz : Q) : mdl.SimpleFrame :=
  {| mdl.name := name;
     mdl.frame_verts := [[0; 0; dz]; [1; 0; dz]; [0; 1; dz]; [1; 1; dz]]%Q |}.

(** Two triangles forming a square, in one triangle set, with the given
    frames. *)
Definition sample_model (frames : list mdl.Frame) (tri_sets : list (list Z))
    : mdl.AliasModel :=
  {| mdl.skin_width := 2; mdl.skin_height := 4;
     mdl.frames := frames;
     mdl.tris := [[0; 1; 2]; [2; 1; 3]]%Z;
     mdl.disjoint_tri_sets := tri_sets;
     mdl.skins := [[[0; 230]; [5; 7]; [224; 1]; [2; 3]]%Z];
     mdl.get_tri_tcs := λ tri_idx,
       if decide (tri_idx = 0%Z) then Some [(0, 0); (2, 0); (0, 4)]%Q
       else if decide (tri_idx = 1%Z) then Some [(0, 4); (2, 0); (1, 3)]%Q
       else None;
     mdl.get_tri_skin := λ tri_idx skin_idx,
       if decide (tri_idx = 0%Z) then
         Some (zip [true; true; true; false; false; false; false; false]
                 [0; 230; 5; 7; 224; 1; 2; 3]%Z)
       else if decide (tri_idx = 1%Z) then
         Some (zip [false; false; false; true; true; true; false; false]
                 [0; 230; 5; 7; 224; 1; 2; 3]%Z)
       else None |}.

Definition two_pose_model : mdl.AliasModel :=
  sample_model [mdl.Single (sample_frame "stand1" 0); mdl.Single (sample_frame "stand2" 1)]
               [[0; 1]%Z].

Definition flame_model : mdl.AliasModel :=
  sample_model [mdl.Group [1 # 10; 2 # 10]%Q
                  [sample_frame "flame1" 0; sample_frame "flame2" 1]]
               [[0]%Z; [1]%Z].

(** A model whose second frame is a group. *)
Definition mixed_model : mdl.AliasModel :=
  sample_model [mdl.Single (sample_frame "stand1" 0);
                mdl.Group [1 # 10; 2 # 10]%Q
                  [sample_frame "flame1" 0; sample_frame "flame2" 1]]
               [[0; 1]%Z].

Definition sample_fs : gmap string (list Byte.byte) :=
  {[ "progs/square.mdl" := [Byte.x00];
     "gfx/palette.lmp" := replicate 768 Byte.xff ]}%string.

Definition sample_pyquake : Pyquake :=
  {| image_array := list (list (list Q));
     pak_Filesystem := λ pak_root,
       if decide (pak_root = "id1"%string) then Ok sample_fs else Raise KeyError;
     mdl_AliasModel := λ _, Ok two_pose_model;
     array_ims_from_indices := λ pal im_indices force_fullbright,
       let im := map (map (λ i, default [] (pal !! Z.to_nat i))) im_indices in
       (im, match force_fullbright with
            | bpy.CfgBool true => Some im
            | _ => None
            end) |}.

Definition sample_cfg (sample_as_light : bool) : gmap string (gmap string bpy.cfg_value) :=
  {[ "__default__" := {[ "sample_as_light" := bpy.CfgBool sample_as_light;
                         "force_fullbright" := bpy.CfgBool false;
                         "strength" := bpy.CfgNum 1 ]} ]}%string.

Definition sample_pal : list (list Q) := replicate 256 [1 # 2; 1 # 2; 1 # 2]%Q.

Definition empty_data : @bpy_data sample_pyquake :=
  {| objects := []; meshes := []; materials := ∅; images := []; scene_objects := [] |}.

(** A scene with one mesh object, whose mesh has two shape-key blocks. *)
Definition sample_scene : @bpy_data sample_pyquake :=
  {| objects := [ {| bpy.object_name := "ent"; bpy.data := None; bpy.parent := None |};
                  {| bpy.object_name := "ent_triset0"; bpy.data := Some 0;
                     bpy.parent := Some 0 |} ];
     meshes := [ {| bpy.mesh_name := "ent_triset0";
                    bpy.vertices := [[0; 0; 0]; [1; 0; 0]; [0; 1; 0]]%Q;
                    bpy.polygons := [[0; 1; 2]];
                    bpy.shape_keys :=
                      [ {| bpy.key_name := "stand1";
                           bpy.key_data := [[0; 0; 0]; [1; 0; 0]; [0; 1; 0]]%Q;
                           bpy.value := 0; bpy.keyframes := [] |};
                        {| bpy.key_name := "stand2";
                           bpy.key_data := [[0; 0; 1]; [1; 0; 1]; [0; 1; 1]]%Q;
                           bpy.value := 0; bpy.keyframes := [] |} ];
                    bpy.mesh_materials := []; bpy.uv_layers := [] |} ];
     materials := ∅; images := []; scene_objects := [0; 1] |}.

(** Two calls of [add_model] for the same model and skin, the second on
    the store that the first leaves, with [sample_as_light] set; and
    what the material collection holds after each. *)
Definition two_sampled_calls : bool :=
  match @add_model sample_pyquake two_pose_model sample_pal "square" "ent1"
          [(0, 0%Z)]%Q 0 5 (sample_cfg true) false 30 empty_data with
  | Ok (_, st1) =>
      match @add_model sample_pyquake two_pose_model sample_pal "square" "ent2"
              [(0, 0%Z)]%Q 0 5 (sample_cfg true) false 30 st1 with
      | Ok (_, st2) =>
          bool_decide (dom (materials st1) = {[ "square_skin0_ent1_triset0_fullbright" ]})
          && bool_decide (dom (materials st2)
                          = {[ "square_skin0_ent1_triset0_fullbright";
                               "square_skin0_ent2_triset0_fullbright" ]})
      | Raise _ => false
      end
  | Raise _ => false
  end%string.

(** The same two calls without [sample_as_light]. *)
Definition two_plain_calls : bool :=
  match @add_model sample_pyquake two_pose_model sample_pal "square" "ent1"
          [(0, 0%Z)]%Q 0 5 (sample_cfg false) false 30 empty_data with
  | Ok (_, st1) =>
      returns (@add_model sample_pyquake flame_model sample_pal "square" "ent2"
                 [(0, 0%Z)]%Q 0 (5 # 10) (sample_cfg false) true 30 st1)
  | Raise _ => false
  end%string.

(** ** Vocabulary of the properties *)

Section Vocabulary.
Context `{Pyquake}.

Definition with_meshes (ms : list bpy.Mesh) (st : bpy_data) : bpy_data :=
  {| objects := objects st; meshes := ms; materials := materials st;
     images := images st; scene_objects := scene_objects st |}.

(** The block a reference points to. *)
Definition block_at (st : bpy_data) (block : block_ref) : option bpy.ShapeKey :=
  m ← meshes st !! block.1; bpy.shape_keys m !! block.2.

(** The store after every block [r] has been changed by [T r]. *)
Definition map_blocks (T : block_ref → bpy.ShapeKey → bpy.ShapeKey) (st : bpy_data)
    : bpy_data :=
  with_meshes (imap (λ mesh, with_shape_keys (imap (λ k, T (mesh, k)))) (meshes st)) st.

(** The two writes of [_animate] to a block. *)
Inductive key_op :=
  | SetValue (v : Q)
  | InsertKeyframe (f : Z).

Definition apply_op (op : key_op) : bpy.ShapeKey → bpy.ShapeKey :=
  match op with
  | SetValue v => with_value v
  | InsertKeyframe f => keyframe_insert_value f
  end.

(** The writes to block [r] among [ops], and their effect on it. *)
Definition ops_on (r : block_ref) (ops : list (block_ref * key_op)) : list key_op :=
  snd <$> filter (λ o, o.1 = r) ops.

Definition run_ops (ops : list (block_ref * key_op)) (r : block_ref) (k : bpy.ShapeKey)
    : bpy.ShapeKey :=
  foldl (λ k op, apply_op op k) k (ops_on r ops).

(** The writes of one iteration of [_animate]'s loop, for the entry
    [(time, block)] after the entry [prev], and of the whole loop. *)
Definition step_ops (fps : Q) (prev : option (Q * block_ref)) (e : Q * block_ref)
    : list (block_ref * key_op) :=
  [(e.2, SetValue 1); (e.2, InsertKeyframe (key_frame fps e.1))]
  ++ match prev with
     | Some (prev_time, prev_block) =>
         [(e.2, SetValue 0); (e.2, InsertKeyframe (key_frame fps prev_time));
          (prev_block, SetValue 0); (prev_block, InsertKeyframe (key_frame fps e.1))]
     | None => []
     end.

Fixpoint animate_ops (fps : Q) (prev : option (Q * block_ref)) (entries : list (Q * block_ref))
    : list (block_ref * key_op) :=
  match entries with
  | [] => []
  | e :: entries' => step_ops fps prev e ++ animate_ops fps (Some e) entries'
  end.

(** [frames] with the block of each frame number. *)
Definition resolved (blocks : gmap Z block_ref) (frames : list (Q * Z))
    (entries : list (Q * block_ref)) : Prop :=
  Forall2 (λ fr e, fr.1 = e.1 ∧ blocks !! fr.2 = Some e.2) frames entries.

(** The loop variables [prev_block] and [prev_time] after the entry [prev]. *)
Definition prev_vars (prev : option (Q * block_ref)) : option block_ref * option Q :=
  (snd <$> prev, fst <$> prev).

(** What [_animate] does to block [r] of mesh [mesh]'s object when its
    loop ran over [entries]. *)
Definition animate_block (fps : Q) (mesh : nat) (entries : list (Q * block_ref))
    (r : block_ref) (k : bpy.ShapeKey) : bpy.ShapeKey :=
  let k := run_ops (animate_ops fps None entries) r k in
  match entries with
  | [] => k
  | _ :: _ => if decide (r.1 = mesh) then with_linear k else k
  end.

(** The store with mesh [mesh] replaced. *)
Definition set_mesh (mesh : nat) (m : bpy.Mesh) (st : bpy_data) : bpy_data :=
  with_meshes (<[mesh := m]> (meshes st)) st.

(** The block that [_create_block] makes of a pose, on a mesh with the
    vertices [verts]. *)
Definition block_key (verts : list vert) (vert_map : list Z) (simple_frame : mdl.SimpleFrame)
    : result bpy.ShapeKey :=
  cos ← traverse (py_index (mdl.frame_verts simple_frame)) (take (length verts) vert_map);
  Ok {| bpy.key_name := mdl.name simple_frame; bpy.key_data := assign_zip id verts cos;
        bpy.value := 0; bpy.keyframes := [] |}.

(** The block of a frame of a non-static model. *)
Definition frame_key (verts : list vert) (vert_map : list Z) (frame : mdl.Frame)
    : result bpy.ShapeKey :=
  if decide (mdl.frame_type frame ≠ SINGLE) then
    Raise (FrameTypeNotSupported (mdl.frame_type frame) false)
  else
    simple_frame ← mdl.frame frame;
    block_key verts vert_map simple_frame.

(** [blocks] after blocks [i], ..., [i + n - 1] of mesh [mesh] have been
    entered under their numbers. *)
Definition extend_blocks (mesh i n : nat) (blocks : gmap Z block_ref) : gmap Z block_ref :=
  foldl (λ b j, <[Z.of_nat j := (mesh, j)]> b) blocks (seq i n).

(** [_animate] on the freshly numbered blocks [keys] of mesh [mesh]. *)
Definition animated_keys (mesh : nat) (fps : Q) (keys : list bpy.ShapeKey)
    (frames : list (Q * Z)) : result (gmap Z block_ref * list bpy.ShapeKey) :=
  let blocks := extend_blocks mesh 0 (length keys) ∅ in
  entries ← traverse (λ fr, b ← dict_get blocks fr.2; Ok (fr.1, b)) frames;
  Ok (blocks, imap (λ k, animate_block fps mesh entries (mesh, k)) keys).

(** The blocks dictionary and the shape keys that [add_model] builds on
    the mesh of one triangle set (lines 152-178). *)
Definition tri_set_keys (am : mdl.AliasModel) (mesh : nat) (verts : list vert)
    (vert_map : list Z) (frames : list (Q * Z)) (final_time : Q) (static : bool) (fps : Q)
    : result (gmap Z block_ref * list bpy.ShapeKey) :=
  if negb static then
    keys ← traverse (frame_key verts vert_map) (mdl.frames am);
    animated_keys mesh fps keys frames
  else
    if decide (length frames ≠ 1) then Raise (StaticFrameCount (length frames)) else
    frame0 ← py_index frames 0;
    group_frame ← py_index (mdl.frames am) frame0.2;
    if decide (mdl.frame_type group_frame ≠ GROUP) then
      Raise (FrameTypeNotSupported (mdl.frame_type group_frame) true)
    else
    group_frames ← mdl.group_frames group_frame;
    keys ← traverse (block_key verts vert_map) group_frames;
    times ← mdl.group_times group_frame;
    loop_frames ← loop_frames final_time times (length group_frames);
    animated_keys mesh fps keys loop_frames.

(** The UVs that [_set_uvs] leaves in a layer with the rows [rows], one
    per face. *)
Fixpoint uv_rows (am : mdl.AliasModel) (rows : list (list (Q * Q))) (tri_set : list Z)
    : result (list (list (Q * Q))) :=
  match rows, tri_set with
  | row :: rows', tri_idx :: tri_set' =>
      tcs ← mdl.lookup_result (mdl.get_tri_tcs am tri_idx);
      rest ← uv_rows am rows' tri_set';
      Ok (assign_zip (λ '(s, t), (s / inject_Z (mdl.skin_width am),
                                  t / inject_Z (mdl.skin_height am))%Q) row tcs :: rest)
  | _, _ => Ok rows
  end.

(** The UV layer of a new mesh with the faces [faces]. *)
Definition tri_set_uvs (am : mdl.AliasModel) (faces : list (list nat)) (tri_set : list Z)
    : result (list (list (Q * Q))) :=
  uv_rows am ((λ face : list nat, (λ _, (0, 0)%Q) <$> face) <$> faces) tri_set.

(** The name of the material of a triangle set (lines 181-185). *)
Definition material_name (mdl_name obj_name : string) (skin_idx : Z) (tri_set_idx : nat)
    (sample_as_light : bpy.cfg_value) : string :=
  if truthy sample_as_light
  then mdl_name +:+ "_skin" +:+ pretty skin_idx +:+ "_" +:+ obj_name +:+ "_triset"
       +:+ pretty tri_set_idx +:+ "_fullbright"
  else mdl_name +:+ "_skin" +:+ pretty skin_idx.

(** The sub-object of triangle set [tri_set_idx] and its mesh, as
    [add_model] leaves them. *)
Definition sub_object (obj_name : string) (tri_set_idx : nat) (mesh obj : nat) : bpy.Object :=
  {| bpy.object_name := obj_name +:+ "_triset" +:+ pretty tri_set_idx;
     bpy.data := Some mesh; bpy.parent := Some obj |}.

Definition sub_mesh (obj_name : string) (tri_set_idx : nat) (verts : list vert)
    (faces : list (list nat)) (keys : list bpy.ShapeKey) (mats : list string)
    (uvs : list (list (list (Q * Q)))) : bpy.Mesh :=
  {| bpy.mesh_name := obj_name +:+ "_triset" +:+ pretty tri_set_idx;
     bpy.vertices := verts; bpy.polygons := faces; bpy.shape_keys := keys;
     bpy.mesh_materials := mats; bpy.uv_layers := uvs |}.

(** The store of [st] once the sub-object of a triangle set has its
    mesh and its shape keys (after line 178). *)
Definition with_sub_object (obj_name : string) (tri_set_idx obj : nat) (verts : list vert)
    (faces : list (list nat)) (keys : list bpy.ShapeKey) (st : bpy_data) : bpy_data :=
  {| objects := objects st ++ [sub_object obj_name tri_set_idx (length (meshes st)) obj];
     meshes := meshes st ++ [sub_mesh obj_name tri_set_idx verts faces keys [] []];
     materials := materials st; images := images st;
     scene_objects := scene_objects st ++ [length (objects st)] |}.

(** In the store [st'], object [obj_id] with mesh [mesh_id] is what
    [add_model] builds for the triangle set [tri_set], the
    [tri_set_idx]-th of the model. *)
Definition tri_set_built (am : mdl.AliasModel) (mdl_name obj_name : string)
    (frames : list (Q * Z)) (skin_idx : Z) (final_time : Q)
    (mdl_cfg : gmap string bpy.cfg_value) (static : bool) (fps : Q) (obj : nat)
    (tri_set_idx : nat) (tri_set : list Z) (obj_id mesh_id : nat) (st' : bpy_data)
    (blocks : gmap Z block_ref) : Prop :=
  ∃ verts edges faces vert_map keys v uv,
    tri_set_pydata am tri_set = Ok ((verts, edges, faces), vert_map)
    ∧ tri_set_keys am mesh_id verts vert_map frames final_time static fps = Ok (blocks, keys)
    ∧ mdl_cfg !! "sample_as_light" = Some v
    ∧ tri_set_uvs am faces tri_set = Ok uv
    ∧ objects st' !! obj_id = Some (sub_object obj_name tri_set_idx mesh_id obj)
    ∧ meshes st' !! mesh_id
      = Some (sub_mesh obj_name tri_set_idx verts faces keys
                [material_name mdl_name obj_name skin_idx tri_set_idx v] [uv])
    ∧ is_Some (materials st' !! material_name mdl_name obj_name skin_idx tri_set_idx v).

(** An exception of Python's own, not one of the two that [add_model]
    raises itself. *)
Definition builtin (e : exn) : Prop :=
  match e with
  | FrameTypeNotSupported _ _ | StaticFrameCount _ => False
  | _ => True
  end.

(** When [e] is one of [add_model]'s own exceptions, it is justified by
    the model's frames and the [frames] argument: the frame-type
    exception of a non-static call by a frame that is not SINGLE, that
    of a static call by a single entry selecting a frame that is not
    GROUP, the frame-count exception by a static call whose [frames]
    does not have one entry. *)
Definition check_raised (am : mdl.AliasModel) (frames : list (Q * Z)) (static : bool)
    (e : exn) : Prop :=
  match e with
  | FrameTypeNotSupported ft b =>
      b = static
      ∧ if static
        then ft ≠ GROUP
             ∧ ∃ time frame_num frame,
                 frames = [(time, frame_num)]
                 ∧ py_index (mdl.frames am) frame_num = Ok frame
                 ∧ mdl.frame_type frame = ft
        else ft ≠ SINGLE ∧ ∃ frame, frame ∈ mdl.frames am ∧ mdl.frame_type frame = ft
  | StaticFrameCount n => static = true ∧ n = length frames ∧ n ≠ 1
  | _ => True
  end.

(** The store that a call leaves when it returns. *)
Definition final_store {A} (r : result (A * bpy_data)) : option bpy_data :=
  match r with
  | Ok (_, st) => Some st
  | Raise _ => None
  end.


End Vocabulary.

(** * Properties *)

(** ** The exception monad and the loops *)

Lemma bind_Ok {A B} (r : result A) (k : A → result B) (b : B) :
  r ≫= k = Ok b ↔ ∃ a, r = Ok a ∧ k a = Ok b.
Proof.
  destruct r as [a|e]; simpl; split.
  - eauto.
  - intros (a' & [= ->] & Hk). done.
  - discriminate.
  - intros (a' & [=] & _).
Qed.

Lemma bind_Raise {A B} (r : result A) (k : A → result B) (e : exn) :
  r ≫= k = Raise e ↔ r = Raise e ∨ ∃ a, r = Ok a ∧ k a = Raise e.
Proof.
  destruct r as [a|e']; simpl; split.
  - eauto.
  - intros [[=]|(a' & [= ->] & Hk)]. done.
  - intros [= ->]. by left.
  - intros [[= ->]|(a' & [=] & _)]. done.
Qed.

Lemma fmap_Ok {A B} (f : A → B) (r : result A) (b : B) :
  f <$> r = Ok b ↔ ∃ a, r = Ok a ∧ b = f a.
Proof.
  destruct r as [a|e]; simpl; split.
  - intros [= <-]. eauto.
  - intros (a' & [= ->] & ->). done.
  - discriminate.
  - intros (a' & [=] & _).
Qed.

Lemma returns_true {A} (r : result A) : returns r = true → ∃ a, r = Ok a.
Proof. destruct r as [a|e]; [by exists a|done]. Qed.

Lemma raised_Some {A} (r : result A) (e : exn) : raised r = Some e → r = Raise e.
Proof. destruct r as [a|e']; [done|]. by intros [= ->]. Qed.

Lemma for_in_app {A S} (l1 l2 : list A) (body : S → A → result S) (s : S) :
  for_in (l1 ++ l2) body s = for_in l1 body s ≫= for_in l2 body.
Proof.
  revert s. induction l1 as [|x l1 IH]; intros s; simpl; [done|].
  destruct (body s x) as [s'|e]; simpl; [apply IH|done].
Qed.

(** [traverse] succeeds exactly when [f] does on every element, and
    then it maps the list pointwise. *)
Lemma traverse_acc {A B} (f : A → result B) (l : list A) (acc ys : list B) :
  for_in l (λ acc x, y ← f x; Ok (acc ++ [y])) acc = Ok ys
  ↔ ∃ zs, ys = acc ++ zs ∧ Forall2 (λ x y, f x = Ok y) l zs.
Proof.
  revert acc. induction l as [|x l IH]; intros acc; simpl.
  - split.
    + intros [= <-]. exists []. by rewrite app_nil_r.
    + intros (zs & -> & Hzs). apply Forall2_nil_inv_l in Hzs as ->.
      by rewrite app_nil_r.
  - split.
    + intros (s' & Hx & Hrest)%bind_Ok.
      apply bind_Ok in Hx as (y & Hy & [= <-]).
      apply IH in Hrest as (zs & -> & Hzs).
      exists (y :: zs). rewrite <-app_assoc. split; [done|]. by constructor.
    + intros (zs & -> & Hzs).
      apply Forall2_cons_inv_l in Hzs as (y & zs' & Hy & Hzs & ->).
      rewrite Hy. simpl. apply IH. exists zs'. by rewrite <-app_assoc.
Qed.

Lemma traverse_Ok {A B} (f : A → result B) (l : list A) (ys : list B) :
  traverse f l = Ok ys ↔ Forall2 (λ x y, f x = Ok y) l ys.
Proof.
  unfold traverse. rewrite traverse_acc. split.
  - by intros (zs & -> & Hzs).
  - intros Hzs. by exists ys.
Qed.

Lemma traverse_total {A B} (f : A → result B) (l : list A) :
  (∀ x, x ∈ l → is_Ok (f x)) → is_Ok (traverse f l).
Proof.
  induction l as [|x l IH]; intros Hf.
  - by exists [].
  - destruct (Hf x) as [y Hy]; [by left|].
    destruct IH as [ys Hys]; [intros; apply Hf; by right|].
    exists (y :: ys). apply traverse_Ok. constructor; [done|].
    by apply traverse_Ok.
Qed.

(** The first exception of a [traverse] is the exception of some
    element. *)
Lemma traverse_acc_Raise {A B} (f : A → result B) (l : list A) (acc : list B) (e : exn) :
  for_in l (λ acc x, y ← f x; Ok (acc ++ [y])) acc = Raise e → ∃ x, x ∈ l ∧ f x = Raise e.
Proof.
  revert acc. induction l as [|x l IH]; intros acc; simpl; [done|].
  intros [Hx|(s' & Hx & Hrest)]%bind_Raise.
  - apply bind_Raise in Hx as [Hx|(y & _ & [=])].
    exists x. split; [by left|done].
  - apply IH in Hrest as (x' & Hin & Hx'). exists x'. split; [by right|done].
Qed.

Lemma traverse_Raise {A B} (f : A → result B) (l : list A) (e : exn) :
  traverse f l = Raise e → ∃ x, x ∈ l ∧ f x = Raise e.
Proof. apply traverse_acc_Raise. Qed.

(** ** Python indexing *)

Lemma py_index_Ok {A} (l : list A) (i : Z) (a : A) :
  py_index l i = Ok a ↔
  (0 ≤ i ∧ l !! Z.to_nat i = Some a)%Z
  ∨ (i < 0 ∧ 0 ≤ i + Z.of_nat (length l)
     ∧ l !! Z.to_nat (i + Z.of_nat (length l)) = Some a)%Z.
Proof.
  unfold py_index.
  destruct (Z.ltb_spec i 0) as [Hi|Hi].
  - destruct (Z.ltb_spec (i + Z.of_nat (length l)) 0) as [Hj|Hj].
    + split; [done|]. intros [[? _]|(_ & ? & _)]; lia.
    + destruct (l !! Z.to_nat (i + Z.of_nat (length l))) as [a'|] eqn:Hl; split.
      * intros [= <-]. right. done.
      * intros [[? _]|(_ & _ & [= <-])]; [lia|done].
      * done.
      * intros [[? _]|(_ & _ & [=])]; lia.
  - destruct (Z.ltb_spec i 0) as [Hj|_]; [lia|].
    destruct (l !! Z.to_nat i) as [a'|] eqn:Hl; split.
    + intros [= <-]. by left.
    + intros [[_ [= <-]]|(? & _)]; [done|lia].
    + done.
    + intros [[_ [=]]|(? & _)]; lia.
Qed.

Lemma py_index_in_range {A} (l : list A) (i : Z) :
  (- Z.of_nat (length l) ≤ i < Z.of_nat (length l))%Z → is_Ok (py_index l i).
Proof.
  intros Hi. destruct (Z.ltb_spec i 0) as [Hneg|Hpos].
  - destruct (lookup_lt_is_Some_2 l (Z.to_nat (i + Z.of_nat (length l)))) as [a Ha]; [lia|].
    exists a. apply py_index_Ok. right. repeat split; [lia..|done].
  - destruct (lookup_lt_is_Some_2 l (Z.to_nat i)) as [a Ha]; [lia|].
    exists a. apply py_index_Ok. left. done.
Qed.

Lemma py_index_Raise {A} (l : list A) (i : Z) (e : exn) :
  py_index l i = Raise e → e = IndexError ∧ ¬ (- Z.of_nat (length l) ≤ i < Z.of_nat (length l))%Z.
Proof.
  intros Hr. split.
  - unfold py_index in Hr. repeat case_match; congruence.
  - intros Hi. destruct (py_index_in_range l i Hi) as [a Ha]. congruence.
Qed.

Lemma py_index_nat {A} (l : list A) (i : nat) (a : A) :
  py_index l (Z.of_nat i) = Ok a ↔ l !! i = Some a.
Proof.
  rewrite py_index_Ok, Nat2Z.id. split; [|intros; left; split; [lia|done]].
  intros [[_ ?]|[? _]]; [done|lia].
Qed.

(** ** Host calls *)

Lemma M_bind_Ok `{Pyquake} {A B} (m : M A) (k : A → M B) (st st' : bpy_data) (b : B) :
  (m ≫= k) st = Ok (b, st') ↔ ∃ a st1, m st = Ok (a, st1) ∧ k a st1 = Ok (b, st').
Proof.
  unfold mbind, M_bind. destruct (m st) as [[a st1]|e]; split.
  - eauto.
  - intros (a' & st1' & [= -> ->] & Hk). done.
  - discriminate.
  - intros (a' & st1' & [=] & _).
Qed.

Lemma M_bind_Raise `{Pyquake} {A B} (m : M A) (k : A → M B) (st : bpy_data) (e : exn) :
  (m ≫= k) st = Raise e
  ↔ m st = Raise e ∨ ∃ a st1, m st = Ok (a, st1) ∧ k a st1 = Raise e.
Proof.
  unfold mbind, M_bind. destruct (m st) as [[a st1]|e']; split.
  - eauto.
  - intros [[=]|(a' & st1' & [= -> ->] & Hk)]. done.
  - intros [= ->]. by left.
  - intros [[= ->]|(a' & st1' & [=] & _)]. done.
Qed.

Lemma lift_Ok `{Pyquake} {A} (r : result A) (st st' : bpy_data) (a : A) :
  lift r st = Ok (a, st') ↔ r = Ok a ∧ st' = st.
Proof.
  unfold lift. destruct r as [a'|e]; split.
  - by intros [= -> ->].
  - by intros [[= ->] ->].
  - discriminate.
  - by intros [[=] _].
Qed.

Lemma lift_Raise `{Pyquake} {A} (r : result A) (st : bpy_data) (e : exn) :
  lift r st = Raise e ↔ r = Raise e.
Proof. unfold lift. destruct r as [a'|e']; split; congruence. Qed.

(** ** [_simplify_pydata] *)

Lemma list_index_elem (x : Z) (l : list Z) :
  x ∈ l → ∃ k, list_index x l = Ok k ∧ l !! k = Some x.
Proof.
  induction l as [|y l IH]; intros Hin; [by apply elem_of_nil in Hin|].
  simpl. destruct (decide (x = y)) as [->|Hne].
  - by exists 0.
  - apply elem_of_cons in Hin as [?|Hin]; [done|].
    destruct (IH Hin) as (k & -> & Hk). by exists (S k).
Qed.

Lemma first_uses_fresh (seen l : list Z) (x : Z) :
  x ∈ first_uses seen l → x ∉ seen.
Proof.
  revert seen. induction l as [|y l IH]; intros seen; simpl.
  - by intros ?%elem_of_nil.
  - case_bool_decide as Hy; [apply IH|].
    intros [->|Hx]%elem_of_cons; [done|].
    apply IH in Hx. set_solver.
Qed.

Lemma first_uses_elem (seen l : list Z) (x : Z) :
  x ∈ first_uses seen l ↔ x ∈ l ∧ x ∉ seen.
Proof.
  revert seen. induction l as [|y l IH]; intros seen; simpl.
  - set_solver.
  - case_bool_decide as Hy.
    + rewrite IH. set_solver.
    + rewrite elem_of_cons, IH. split.
      * intros [->|[? ?]]; set_solver.
      * intros [[->|?]%elem_of_cons ?]; [by left|].
        destruct (decide (x = y)) as [->|]; [by left|]. right. set_solver.
Qed.

Lemma first_uses_NoDup (seen l : list Z) : NoDup (first_uses seen l).
Proof.
  revert seen. induction l as [|y l IH]; intros seen; simpl; [constructor|].
  case_bool_decide as Hy; [apply IH|].
  constructor; [|apply IH].
  intros Hin%first_uses_fresh. set_solver.
Qed.

Lemma first_uses_app (seen l1 l2 : list Z) :
  first_uses seen (l1 ++ l2)
  = first_uses seen l1 ++ first_uses (seen ++ first_uses seen l1) l2.
Proof.
  revert seen. induction l1 as [|y l1 IH]; intros seen; simpl.
  - by rewrite app_nil_r.
  - case_bool_decide as Hy; [apply IH|].
    rewrite IH. simpl. by rewrite <-app_assoc.
Qed.

(** An index that comes earlier in [first_uses] is used in the
    sequence before any use of one that comes later. *)
Lemma first_uses_order (seen l : list Z) (p q : nat) (a b : Z) :
  first_uses seen l !! p = Some a → first_uses seen l !! q = Some b → p < q →
  ∃ n, l !! n = Some a ∧ ∀ m, m ≤ n → l !! m ≠ Some b.
Proof.
  revert seen p q. induction l as [|x l IH]; intros seen p q; simpl; [done|].
  case_bool_decide as Hx.
  - intros Ha Hb Hpq. destruct (IH _ _ _ Ha Hb Hpq) as (n & Hn & Hm).
    exists (S n). split; [done|]. intros [|m] Hle; simpl.
    + intros [= ->]. apply list_elem_of_lookup_2, first_uses_fresh in Hb. done.
    + apply Hm. lia.
  - destruct p as [|p]; simpl.
    + intros [= ->]. destruct q as [|q]; [lia|]. simpl. intros Hb _.
      exists 0. split; [done|]. intros m Hm. assert (m = 0) as -> by lia.
      simpl. intros [= ->].
      apply list_elem_of_lookup_2, first_uses_fresh in Hb. set_solver.
    + destruct q as [|q]; [lia|]. simpl. intros Ha Hb Hpq.
      destruct (IH _ _ _ Ha Hb) as (n & Hn & Hm); [lia|].
      exists (S n). split; [done|]. intros [|m] Hle; simpl.
      * intros [= ->].
        apply list_elem_of_lookup_2, first_uses_fresh in Hb. set_solver.
      * apply Hm. lia.
Qed.

(** [new_tri] names, position by position, the entries of [vert_map]
    that hold the vertex indices of [tri]. *)
Definition renames (vert_map : list Z) (tri : list Z) (new_tri : list nat) : Prop :=
  Forall2 (λ v k, vert_map !! k = Some v) tri new_tri.

Lemma renames_app_r (vert_map ext tri : list Z) (new_tri : list nat) :
  renames vert_map tri new_tri → renames (vert_map ++ ext) tri new_tri.
Proof.
  unfold renames. intros Hren. eapply Forall2_impl; [exact Hren|].
  intros v k Hk. by apply lookup_app_l_Some.
Qed.

Lemma simplify_vert_loop (tri vert_map : list Z) (new_tri : list nat) :
  ∃ ks, for_in tri simplify_vert (vert_map, new_tri)
        = Ok (vert_map ++ first_uses vert_map tri, new_tri ++ ks)
      ∧ renames (vert_map ++ first_uses vert_map tri) tri ks.
Proof.
  revert vert_map new_tri. induction tri as [|v tri IH]; intros vert_map new_tri.
  - exists []. simpl. rewrite !app_nil_r. split; [done|constructor].
  - simpl.
    set (vm := if bool_decide (v ∈ vert_map) then vert_map else vert_map ++ [v]).
    assert (v ∈ vm) as Hin by (unfold vm; case_bool_decide; set_solver).
    destruct (list_index_elem v vm Hin) as (k & -> & Hk). simpl.
    destruct (IH vm (new_tri ++ [k])) as (ks & -> & Hks).
    assert (vm ++ first_uses vm tri
            = vert_map ++ (if bool_decide (v ∈ vert_map) then first_uses vert_map tri
                           else v :: first_uses (vert_map ++ [v]) tri)) as Heq.
    { unfold vm. case_bool_decide; [done|]. by rewrite <-app_assoc. }
    rewrite Heq in *. exists (k :: ks). rewrite <-app_assoc. split; [done|].
    constructor; [|done]. rewrite <-Heq. by apply lookup_app_l_Some.
Qed.

Lemma simplify_tri_loop (tris : list (list Z)) (vert_map : list Z)
    (new_tris : list (list nat)) :
  ∃ nts, for_in tris simplify_tri (vert_map, new_tris)
         = Ok (vert_map ++ first_uses vert_map (mjoin tris), new_tris ++ nts)
       ∧ Forall2 (renames (vert_map ++ first_uses vert_map (mjoin tris))) tris nts.
Proof.
  revert vert_map new_tris. induction tris as [|tri tris IH]; intros vert_map new_tris.
  - exists []. simpl. rewrite !app_nil_r. split; [done|constructor].
  - simpl.
    destruct (simplify_vert_loop tri vert_map []) as (ks & -> & Hks). simpl.
    destruct (IH (vert_map ++ first_uses vert_map tri) (new_tris ++ [ks]))
      as (nts & -> & Hnts).
    rewrite first_uses_app, !app_assoc in *.
    exists (ks :: nts). rewrite <-(app_assoc new_tris). split; [done|].
    constructor; [|done]. by apply renames_app_r.
Qed.

(** What [_simplify_pydata] computes, when it returns. *)
Lemma simplify_pydata_Ok {V} (verts : list V) (tris : list (list Z))
    (pd : pydata V) (vert_map : list Z) :
  _simplify_pydata verts tris = Ok (pd, vert_map) →
  ∃ new_verts new_tris,
    pd = (new_verts, [], new_tris)
    ∧ vert_map = first_uses [] (mjoin tris)
    ∧ Forall2 (λ old v, py_index verts old = Ok v) vert_map new_verts
    ∧ Forall2 (renames vert_map) tris new_tris.
Proof.
  unfold _simplify_pydata.
  destruct (simplify_tri_loop tris [] []) as (nts & -> & Hnts). simpl in *.
  intros (new_verts & Hnv & [= <- <-])%bind_Ok.
  exists new_verts, nts. by apply traverse_Ok in Hnv.
Qed.

(** It returns when every vertex index that the triangles use is a
    valid index of [verts]. *)
Lemma simplify_pydata_total {V} (verts : list V) (tris : list (list Z)) :
  (∀ tri v, tri ∈ tris → v ∈ tri →
     (- Z.of_nat (length verts) ≤ v < Z.of_nat (length verts))%Z) →
  is_Ok (_simplify_pydata verts tris).
Proof.
  intros Hrange. unfold _simplify_pydata.
  destruct (simplify_tri_loop tris [] []) as (nts & -> & Hnts). simpl in *.
  destruct (traverse_total (py_index verts) (first_uses [] (mjoin tris)))
    as [new_verts ->].
  - intros v [Hv _]%first_uses_elem. apply list_elem_of_join in Hv as (tri & ? & ?).
    apply py_index_in_range. eauto.
  - simpl. by eexists.
Qed.

(** An exception of [_simplify_pydata] is an IndexError, for a vertex
    index outside [verts]. *)
Lemma simplify_pydata_Raise {V} (verts : list V) (tris : list (list Z)) (e : exn) :
  _simplify_pydata verts tris = Raise e → e = IndexError.
Proof.
  unfold _simplify_pydata.
  destruct (simplify_tri_loop tris [] []) as (nts & -> & Hnts). simpl.
  intros [Hr|(? & _ & [=])]%bind_Raise.
  apply traverse_Raise in Hr as (v & _ & Hv). by apply py_index_Raise in Hv as [-> _].
Qed.

(** C8: [_simplify_pydata] deduplicates the vertices and keeps the
    triangles' geometry.  For vertex indices that are valid (Python)
    indices of [verts] it returns vertices, triangles and a vertex map
    such that: there are as many triangles as before, each with as many
    corners; corner [j] of triangle [i] is an index below
    [len(vert_map)] at which the new vertex list holds the vertex that
    the old list holds at the old corner; the vertex map has no
    duplicates, holds exactly the vertex indices that the triangles
    use, and lists them in the order of their first use. *)
Theorem simplify_pydata_preserves_geometry {V} (verts : list V) (tris : list (list Z)) :
  (∀ tri v, tri ∈ tris → v ∈ tri →
     (- Z.of_nat (length verts) ≤ v < Z.of_nat (length verts))%Z) →
  ∃ new_verts new_tris vert_map,
    _simplify_pydata verts tris = Ok ((new_verts, [], new_tris), vert_map)
    ∧ length new_tris = length tris
    ∧ (∀ i tri, tris !! i = Some tri →
         ∃ new_tri, new_tris !! i = Some new_tri
           ∧ length new_tri = length tri
           ∧ ∀ j v, tri !! j = Some v →
               ∃ k x, new_tri !! j = Some k
                 ∧ k < length vert_map
                 ∧ new_verts !! k = Some x
                 ∧ py_index verts v = Ok x)
    ∧ NoDup vert_map
    ∧ (∀ v, v ∈ vert_map ↔ ∃ tri, tri ∈ tris ∧ v ∈ tri)
    ∧ (∀ p q a b, vert_map !! p = Some a → vert_map !! q = Some b → p < q →
         ∃ n, mjoin tris !! n = Some a ∧ ∀ m, m ≤ n → mjoin tris !! m ≠ Some b).
Proof.
  intros Hrange.
  destruct (simplify_pydata_total verts tris Hrange) as [[pd vert_map] Hrun].
  destruct (simplify_pydata_Ok _ _ _ _ Hrun) as (new_verts & new_tris & -> & Hvm & Hnv & Hnt).
  exists new_verts, new_tris, vert_map. split; [done|].
  split; [symmetry; by eapply Forall2_length|].
  split; [|split; [|split]].
  - intros i tri Hi.
    destruct (Forall2_lookup_l _ _ _ _ _ Hnt Hi) as (new_tri & Hnew & Hren).
    exists new_tri. split; [done|]. split; [symmetry; by eapply Forall2_length|].
    intros j v Hj.
    destruct (Forall2_lookup_l _ _ _ _ _ Hren Hj) as (k & Hk & Hvk).
    destruct (Forall2_lookup_l _ _ _ _ _ Hnv Hvk) as (x & Hx & Hpy).
    exists k, x. split; [done|]. split; [by eapply lookup_lt_Some|done].
  - subst vert_map. apply first_uses_NoDup.
  - intros v. subst vert_map. rewrite first_uses_elem, list_elem_of_join.
    split.
    + intros [(tri & ? & ?) _]. by exists tri.
    + intros (tri & ? & ?). split; [by exists tri|]. apply not_elem_of_nil.
  - subst vert_map. apply first_uses_order.
Qed.

Lemma simplify_pydata_preserves_geometry_witness :
  ∃ new_verts new_tris vert_map,
    _simplify_pydata ["a"; "b"; "c"; "d"; "e"]%string [[4; 2; 1]; [2; 4; -2]]%Z
    = Ok ((new_verts, [], new_tris), vert_map)
    ∧ length new_tris = 2.
Proof.
  destruct (simplify_pydata_preserves_geometry
              ["a"; "b"; "c"; "d"; "e"]%string [[4; 2; 1]; [2; 4; -2]]%Z)
    as (new_verts & new_tris & vert_map & Hrun & Hlen & _).
  - intros tri v Htri Hv. simpl.
    repeat (apply elem_of_cons in Htri as [->|Htri]);
      [..|by apply elem_of_nil in Htri];
      repeat (apply elem_of_cons in Hv as [->|Hv]);
      first [lia | by apply elem_of_nil in Hv].
  - exists new_verts, new_tris, vert_map. split; [exact Hrun|exact Hlen].
Defined.

(** ** [_get_tri_set_fullbright_frac] *)

(** The texels under the masks of a triangle set, and those among them
    whose palette index is a fullbright one. *)
Definition masked (texels : list (list (bool * Z))) : list (bool * Z) :=
  filter (λ x, x.1 = true) (mjoin texels).

Definition fullbright (texels : list (list (bool * Z))) : list (bool * Z) :=
  filter (λ x, (224 ≤ x.2)%Z) (masked texels).

Lemma np_sum_cons (x : Z) (l : list Z) : np_sum (x :: l) = (x + np_sum l)%Z.
Proof. done. Qed.

Lemma np_sum_mask (l : list (bool * Z)) :
  np_sum ((λ x, Z.b2z x.1) <$> l) = Z.of_nat (length (filter (λ x, x.1 = true) l)).
Proof.
  induction l as [|[[] s] l IH]; [done|..].
  - rewrite filter_cons_True, fmap_cons, np_sum_cons, IH by done.
    cbn [fst Z.b2z length]. lia.
  - rewrite filter_cons_False, fmap_cons, np_sum_cons, IH by done.
    cbn [fst Z.b2z]. lia.
Qed.

Lemma np_sum_mask_fullbright (l : list (bool * Z)) :
  np_sum ((λ x, Z.b2z x.1 * Z.b2z (224 <=? x.2))%Z <$> l)
  = Z.of_nat (length (filter (λ x, (224 ≤ x.2)%Z) (filter (λ x, x.1 = true) l))).
Proof.
  induction l as [|[[] s] l IH]; [done|..].
  - rewrite (filter_cons_True (λ x, x.1 = true)), fmap_cons, np_sum_cons, IH by done.
    cbn [fst snd]. destruct (Z.leb_spec 224 s).
    + rewrite filter_cons_True by done. cbn [Z.b2z length]. lia.
    + rewrite filter_cons_False by (simpl; lia). cbn [Z.b2z]. lia.
  - rewrite (filter_cons_False (λ x, x.1 = true)), fmap_cons, np_sum_cons, IH by done.
    cbn [fst Z.b2z]. lia.
Qed.

Lemma fullbright_le_masked (texels : list (list (bool * Z))) :
  length (fullbright texels) ≤ length (masked texels).
Proof. apply length_filter. Qed.

Lemma fullbright_loop (am : mdl.AliasModel) (skin_idx : Z) (tri_set : list Z)
    (texels : list (list (bool * Z))) (skin_area fullbright_area : Z) :
  Forall2 (λ t x, mdl.get_tri_skin am t skin_idx = Some x) tri_set texels →
  for_in tri_set (fullbright_step am skin_idx) (skin_area, fullbright_area)
  = Ok ((skin_area + Z.of_nat (length (masked texels)))%Z,
        (fullbright_area + Z.of_nat (length (fullbright texels)))%Z).
Proof.
  intros Hall. revert skin_area fullbright_area.
  induction Hall as [|t x tri_set texels Hx _ IH]; intros skin_area fullbright_area.
  - simpl. do 2 f_equal; unfold fullbright, masked; simpl; lia.
  - simpl. unfold fullbright_step at 1. rewrite Hx. simpl. rewrite IH.
    rewrite np_sum_mask, np_sum_mask_fullbright.
    unfold fullbright, masked. simpl. rewrite !filter_app, !length_app.
    do 2 f_equal; lia.
Qed.

(** C9: the fraction is computed by an unguarded division.  When the
    lookups of the triangles' skins succeed: if the summed mask is
    positive, the result is the number of masked texels with a palette
    index of at least 224 divided by the number of masked texels, a
    value in [0, 1]; if no texel is masked, the division is one by
    zero, which raises ZeroDivisionError for an empty triangle set and
    yields nan otherwise. *)
Theorem fullbright_frac_division (am : mdl.AliasModel) (tri_set : list Z) (skin_idx : Z)
    (texels : list (list (bool * Z))) :
  Forall2 (λ tri_idx x, mdl.get_tri_skin am tri_idx skin_idx = Some x) tri_set texels →
  (0 < length (masked texels) →
     ∃ q, _get_tri_set_fullbright_frac am tri_set skin_idx = Ok (Frac q)
       ∧ (q == inject_Z (Z.of_nat (length (fullbright texels)))
               / inject_Z (Z.of_nat (length (masked texels))))%Q
       ∧ (0 <= q)%Q ∧ (q <= 1)%Q)
  ∧ (length (masked texels) = 0 →
       _get_tri_set_fullbright_frac am tri_set skin_idx
       = match tri_set with
         | [] => Raise ZeroDivisionError
         | _ :: _ => Ok NaN
         end)
  ∧ (tri_set = [] → _get_tri_set_fullbright_frac am tri_set skin_idx = Raise ZeroDivisionError).
Proof.
  intros Hall. unfold _get_tri_set_fullbright_frac.
  rewrite (fullbright_loop _ _ _ _ _ _ Hall). simpl.
  pose proof (fullbright_le_masked texels) as Hle.
  split; [|split].
  - intros Hpos. rewrite decide_False by lia.
    eexists. split; [done|]. split; [reflexivity|].
    assert (0 < inject_Z (Z.of_nat (length (masked texels))))%Q as Hq.
    { rewrite <-(Zlt_Qlt 0). lia. }
    split.
    + apply Qle_shift_div_l; [done|]. rewrite Qmult_0_l.
      rewrite <-(Zle_Qle 0). lia.
    + apply Qle_shift_div_r; [done|]. rewrite Qmult_1_l.
      rewrite <-Zle_Qle. lia.
  - intros Hzero. rewrite decide_True by lia. done.
  - intros ->. apply Forall2_nil_inv_l in Hall as ->. done.
Qed.

Lemma fullbright_frac_division_witness :
  ∃ q, _get_tri_set_fullbright_frac two_pose_model [0; 1]%Z 0 = Ok (Frac q)
     ∧ (0 <= q)%Q ∧ (q <= 1)%Q.
Proof.
  destruct (fullbright_frac_division two_pose_model [0; 1]%Z 0
              [zip [true; true; true; false; false; false; false; false]
                   [0; 230; 5; 7; 224; 1; 2; 3]%Z;
               zip [false; false; false; true; true; true; false; false]
                   [0; 230; 5; 7; 224; 1; 2; 3]%Z])
    as (Hpos & _ & _).
  - repeat constructor.
  - destruct Hpos as (q & Hq & _ & H0 & H1); [vm_compute; lia|].
    exists q. split; [exact Hq|]. split; [exact H0|exact H1].
Defined.

(** ** The palette *)

Lemma rows_of_length {A} (rows cols : nat) (l : list A) :
  length (rows_of rows cols l) = rows.
Proof.
  revert l. induction rows as [|rows IH]; intros l; simpl; [done|]. by rewrite IH.
Qed.

Lemma rows_of_width {A} (rows cols : nat) (l : list A) :
  length l = rows * cols → Forall (λ row, length row = cols) (rows_of rows cols l).
Proof.
  revert l. induction rows as [|rows IH]; intros l Hlen; simpl; [constructor|].
  constructor.
  - rewrite length_take. lia.
  - apply IH. rewrite length_drop. lia.
Qed.

Lemma rows_of_join {A} (rows cols : nat) (l : list A) :
  length l = rows * cols → mjoin (rows_of rows cols l) = l.
Proof.
  revert l. induction rows as [|rows IH]; intros l Hlen; simpl.
  - by destruct l.
  - rewrite IH by (rewrite length_drop; lia). apply take_drop.
Qed.

Lemma byte_scaled_unit (b : Byte.byte) :
  (0 <= inject_Z (Z.of_N (Byte.to_N b)) / 255 <= 1)%Q.
Proof.
  pose proof (Byte.to_N_bounded b) as Hb.
  split.
  - apply Qle_shift_div_l; [done|]. rewrite Qmult_0_l.
    rewrite <-(Zle_Qle 0). lia.
  - apply Qle_shift_div_r; [done|]. rewrite Qmult_1_l.
    rewrite <-(Zle_Qle _ 255). lia.
Qed.

Lemma load_palette_Ok (raw : list Byte.byte) :
  length raw = 768 →
  ∃ pal, load_palette raw = Ok pal
    ∧ length pal = 256
    ∧ Forall (λ row, length row = 3 ∧ Forall (λ x, 0 <= x <= 1)%Q row) pal
    ∧ mjoin pal = (λ b, inject_Z (Z.of_N (Byte.to_N b)) / 255)%Q <$> raw.
Proof.
  intros Hlen. unfold load_palette, np_reshape.
  rewrite decide_True by (by rewrite length_fmap).
  eexists. split; [done|].
  set (a := (λ b, Z.of_N (Byte.to_N b)) <$> raw).
  assert (length a = 256 * 3) as Ha by (unfold a; by rewrite length_fmap).
  split; [by rewrite length_fmap, rows_of_length|]. split.
  - apply Forall_forall. intros row (row0 & -> & Hrow0)%list_elem_of_fmap.
    split.
    + rewrite length_fmap.
      pose proof (rows_of_width 256 3 a Ha) as Hw.
      rewrite Forall_forall in Hw. by apply Hw.
    + apply Forall_forall. intros x (z & -> & Hz)%list_elem_of_fmap.
      assert (z ∈ a) as Hza.
      { rewrite <-(rows_of_join 256 3 a Ha). apply list_elem_of_join.
        by exists row0. }
      apply list_elem_of_fmap in Hza as (b & -> & _). apply byte_scaled_unit.
  - transitivity ((λ x, inject_Z x / 255)%Q <$> mjoin (rows_of 256 3 a)).
    + generalize (rows_of 256 3 a). intros rows.
      induction rows as [|r rows IH]; [done|].
      simpl in *. rewrite fmap_app, <-IH. done.
    + rewrite rows_of_join by done. unfold a. by rewrite <-list_fmap_compose.
Qed.


Lemma add_alpha_Ok (pal : list (list Q)) :
  length pal = 256 → add_alpha pal = Ok ((λ row, row ++ [1%Q]) <$> pal).
Proof.
  intros Hlen. unfold add_alpha, np_concatenate_axis1.
  rewrite decide_True by (by rewrite length_replicate).
  f_equal. rewrite <-Hlen. clear Hlen.
  induction pal as [|row pal IH]; [done|]. simpl. by rewrite IH.
Qed.

Lemma add_alpha_Raise (pal : list (list Q)) :
  length pal ≠ 256 → add_alpha pal = Raise ValueError.
Proof.
  intros Hlen. unfold add_alpha, np_concatenate_axis1.
  rewrite decide_False by (by rewrite length_replicate). done.
Qed.


(** ** [load_model] *)

(** [add_model] has eight parameters without default; seven positional
    arguments leave [mdls_cfg] unbound. *)
Lemma call_add_model_seven_args `{Pyquake} (a1 a2 a3 a4 a5 a6 a7 : pyarg) (st : bpy_data) :
  call_add_model [a1; a2; a3; a4; a5; a6; a7] st = Raise TypeError.
Proof. reflexivity. Qed.

(** With eight arguments the call goes through to [add_model]. *)
Lemma call_add_model_eight_args `{Pyquake} am pal mdl_name obj_name frames skin_idx
    final_time mdls_cfg (st : bpy_data) :
  call_add_model [ArgModel am; ArgArray pal; ArgStr mdl_name; ArgStr obj_name;
                  ArgFrames frames; ArgInt skin_idx; ArgNum final_time; ArgCfg mdls_cfg] st
  = add_model am pal mdl_name obj_name frames skin_idx final_time mdls_cfg false 30 st.
Proof.
  unfold call_add_model. simpl.
  destruct (add_model _ _ _ _ _ _ _ _ _ _ st) as [[? ?]|?] eqn:E; unfold mbind, M_bind, lift;
    simpl; change (inject_Z 30) with 30%Q; by rewrite E.
Qed.

(** When the model and the palette load, [load_model] raises the
    TypeError of its call of [add_model]. *)
Lemma load_model_TypeError `{Pyquake} pak_root mdl_name obj_name frames skin_idx fps
    (st : bpy_data) fs f am raw :
  pak_Filesystem pak_root = Ok fs →
  fs !! ("progs/" +:+ mdl_name +:+ ".mdl") = Some f →
  mdl_AliasModel f = Ok am →
  fs !! "gfx/palette.lmp" = Some raw →
  length raw = 768 →
  load_model pak_root mdl_name obj_name frames skin_idx fps st = Raise TypeError.
Proof.
  intros Hfs Hf Ham Hraw Hlen.
  destruct (load_palette_Ok raw Hlen) as (pal & Hpal & _).
  unfold load_model.
  apply M_bind_Raise. right. exists fs, st. split; [by apply lift_Ok|].
  apply M_bind_Raise. right. exists f, st.
  split; [apply lift_Ok; unfold dict_get; by rewrite Hf|].
  apply M_bind_Raise. right. exists am, st. split; [by apply lift_Ok|].
  apply M_bind_Raise. right. exists raw, st.
  split; [apply lift_Ok; unfold dict_get; by rewrite Hraw|].
  apply M_bind_Raise. right. exists pal, st. split; [by apply lift_Ok|].
  apply M_bind_Raise. left. apply call_add_model_seven_args.
Qed.

(** C4: [load_model] never hands a model to [add_model]'s body: for
    every input it ends in an exception, either of the loading steps
    or, when they succeed, the TypeError of a call that lacks the
    [mdls_cfg] argument. *)
Theorem load_model_always_raises `{Pyquake} (pak_root mdl_name obj_name : string)
    (frames : list (Q * Z)) (skin_idx : Z) (fps : Q) (st : bpy_data) :
  ∃ e, load_model pak_root mdl_name obj_name frames skin_idx fps st = Raise e.
Proof.
  unfold load_model, mbind, M_bind, lift.
  destruct (pak_Filesystem pak_root) as [fs|e]; [|by eexists].
  destruct (dict_get fs _) as [f|e]; [|by eexists].
  destruct (mdl_AliasModel f) as [am|e]; [|by eexists].
  destruct (dict_get fs _) as [raw|e]; [|by eexists].
  destruct (load_palette raw) as [pal|e]; [|by eexists].
  exists TypeError.
  by rewrite (call_add_model_seven_args (ArgModel am) (ArgArray pal) (ArgStr mdl_name)
                (ArgStr obj_name) (ArgFrames frames) (ArgInt skin_idx) (ArgNum fps) st).
Qed.

(** On the sample package the files load and the call fails. *)
Example load_model_sample :
  @load_model sample_pyquake "id1" "square" "ent1" [(0, 0%Z)]%Q 0 30 empty_data
  = Raise TypeError.
Proof. vm_compute. reflexivity. Qed.

(** ** The store *)

Lemma bpy_data_eq `{Pyquake} (st1 st2 : bpy_data) :
  objects st1 = objects st2 → meshes st1 = meshes st2 → materials st1 = materials st2 →
  images st1 = images st2 → scene_objects st1 = scene_objects st2 → st1 = st2.
Proof. destruct st1, st2. simpl. by intros -> -> -> -> ->. Qed.

Lemma with_shape_keys_id (m : bpy.Mesh) (f : list bpy.ShapeKey → list bpy.ShapeKey) :
  f (bpy.shape_keys m) = bpy.shape_keys m → with_shape_keys f m = m.
Proof. destruct m. unfold with_shape_keys. simpl. by intros ->. Qed.

Lemma with_shape_keys_ext (m : bpy.Mesh) (f g : list bpy.ShapeKey → list bpy.ShapeKey) :
  f (bpy.shape_keys m) = g (bpy.shape_keys m) → with_shape_keys f m = with_shape_keys g m.
Proof. unfold with_shape_keys. by intros ->. Qed.

Lemma list_alter_imap {A} (f : A → A) (i : nat) (l : list A) :
  alter f i l = imap (λ j x, if decide (j = i) then f x else x) l.
Proof.
  apply list_eq. intros j. rewrite list_lookup_imap.
  destruct (decide (j = i)) as [->|Hne].
  - by rewrite list_lookup_alter_eq.
  - rewrite list_lookup_alter_ne by done. by destruct (l !! j).
Qed.

Lemma imap_id {A} (l : list A) : imap (λ _ x, x) l = l.
Proof. apply list_eq. intros i. rewrite list_lookup_imap. by destruct (l !! i). Qed.


Lemma map_blocks_ext `{Pyquake} T1 T2 (st : bpy_data) :
  (∀ r k, block_at st r = Some k → T1 r k = T2 r k) → map_blocks T1 st = map_blocks T2 st.
Proof.
  intros Heq. unfold map_blocks. f_equal. apply list_eq. intros i.
  rewrite !list_lookup_imap. destruct (meshes st !! i) as [m|] eqn:Hm; simpl; [|done].
  f_equal. apply with_shape_keys_ext. apply list_eq. intros k.
  rewrite !list_lookup_imap. destruct (bpy.shape_keys m !! k) as [key|] eqn:Hk; simpl; [|done].
  f_equal. apply Heq. unfold block_at. simpl. by rewrite Hm.
Qed.

Lemma map_blocks_compose `{Pyquake} T1 T2 (st : bpy_data) :
  map_blocks T2 (map_blocks T1 st) = map_blocks (λ r k, T2 r (T1 r k)) st.
Proof.
  unfold map_blocks, with_meshes. simpl. f_equal. apply list_eq. intros i.
  rewrite !list_lookup_imap. destruct (meshes st !! i) as [m|]; simpl; [|done].
  f_equal. unfold with_shape_keys. simpl. f_equal. apply list_eq. intros k.
  rewrite !list_lookup_imap. by destruct (bpy.shape_keys m !! k).
Qed.

Lemma map_blocks_id `{Pyquake} T (st : bpy_data) :
  (∀ r k, block_at st r = Some k → T r k = k) → map_blocks T st = st.
Proof.
  intros Hid. rewrite (map_blocks_ext T (λ _ k, k)) by done.
  apply bpy_data_eq; try done. simpl.
  apply list_eq. intros i. rewrite list_lookup_imap.
  destruct (meshes st !! i) as [m|]; simpl; [|done].
  f_equal. apply with_shape_keys_id, imap_id.
Qed.

Lemma alter_block_map_blocks `{Pyquake} f (r : block_ref) T (st : bpy_data) :
  (∀ r' k, T r' k = if decide (r' = r) then f k else k) →
  alter_block f r st = Ok (tt, map_blocks T st).
Proof.
  intros HT. unfold alter_block, set_meshes, map_blocks, with_meshes. do 3 f_equal.
  rewrite list_alter_imap. apply imap_ext. intros i m _. simpl.
  destruct (decide (i = r.1)) as [->|Hne].
  - apply with_shape_keys_ext. rewrite list_alter_imap. apply imap_ext.
    intros k key _. simpl. rewrite HT. destruct r as [mesh k0]. simpl.
    destruct (decide (k = k0)) as [->|Hk].
    + by rewrite decide_True.
    + rewrite decide_False; [done|]. by intros [= ->].
  - symmetry. apply with_shape_keys_id. rewrite <-(imap_id (bpy.shape_keys m)) at 2.
    apply imap_ext. intros k key _. simpl. rewrite HT.
    rewrite decide_False; [done|]. destruct r. simpl in *. by intros [= -> ->].
Qed.

(** ** [_animate] *)

Lemma ops_on_app (r : block_ref) (ops1 ops2 : list (block_ref * key_op)) :
  ops_on r (ops1 ++ ops2) = ops_on r ops1 ++ ops_on r ops2.
Proof. unfold ops_on. by rewrite filter_app, fmap_app. Qed.

Lemma run_ops_app `{Pyquake} ops1 ops2 (r : block_ref) (k : bpy.ShapeKey) :
  run_ops (ops1 ++ ops2) r k = run_ops ops2 r (run_ops ops1 r k).
Proof. unfold run_ops. by rewrite ops_on_app, foldl_app. Qed.

Lemma run_ops_singleton `{Pyquake} (r r' : block_ref) (op : key_op) (k : bpy.ShapeKey) :
  run_ops [(r, op)] r' k = if decide (r' = r) then apply_op op k else k.
Proof.
  unfold run_ops, ops_on. destruct (decide (r' = r)) as [->|Hne].
  - by rewrite filter_cons_True.
  - rewrite filter_cons_False; [done|]. simpl. congruence.
Qed.

(** A write to a block, followed by more writes. *)
Lemma alter_block_then `{Pyquake} {A} (op : key_op) (r : block_ref) (k : M A)
    ops (st : bpy_data) :
  (alter_block (apply_op op) r ≫= λ _, k) (map_blocks (run_ops ops) st)
  = k (map_blocks (run_ops (ops ++ [(r, op)])) st).
Proof.
  unfold mbind at 1, M_bind at 1.
  rewrite (alter_block_map_blocks _ r (run_ops [(r, op)])).
  - rewrite map_blocks_compose. f_equal. apply map_blocks_ext. intros r' key _.
    by rewrite run_ops_app.
  - intros r' key. apply run_ops_singleton.
Qed.

Lemma animate_step_Ok `{Pyquake} blocks fps prev (fr : Q * Z) (e : Q * block_ref)
    ops (st : bpy_data) :
  fr.1 = e.1 → blocks !! fr.2 = Some e.2 →
  animate_step blocks fps (prev_vars prev) fr (map_blocks (run_ops ops) st)
  = Ok (prev_vars (Some e), map_blocks (run_ops (ops ++ step_ops fps prev e)) st).
Proof.
  destruct fr as [time frame_num], e as [t block]. simpl. intros -> Hb.
  unfold animate_step. simpl.
  unfold mbind at 1, M_bind at 1, lift, dict_get. rewrite Hb.
  rewrite (alter_block_then (SetValue 1)),
    (alter_block_then (InsertKeyframe (key_frame fps t))).
  destruct prev as [[prev_time prev_block]|]; simpl.
  - unfold mbind at 1, M_bind at 1.
    rewrite (alter_block_then (SetValue 0)),
      (alter_block_then (InsertKeyframe (key_frame fps prev_time))),
      (alter_block_then (SetValue 0)).
    unfold mbind, M_bind.
    rewrite (alter_block_map_blocks _ prev_block
               (run_ops [(prev_block, InsertKeyframe (key_frame fps t))]))
      by (intros; apply run_ops_singleton).
    unfold mret, M_ret. do 2 f_equal. rewrite map_blocks_compose.
    apply map_blocks_ext. intros r key _. unfold step_ops. simpl.
    by rewrite <-!run_ops_app, <-!app_assoc.
  - unfold mbind, M_bind, mret, M_ret. unfold step_ops. simpl.
    by rewrite <-!app_assoc.
Qed.

Lemma animate_loop_Ok `{Pyquake} blocks fps frames entries prev ops (st : bpy_data) :
  resolved blocks frames entries →
  for_inM frames (animate_step blocks fps) (prev_vars prev) (map_blocks (run_ops ops) st)
  = Ok (prev_vars (last (prev :: (Some <$> entries)) ≫= id),
        map_blocks (run_ops (ops ++ animate_ops fps prev entries)) st).
Proof.
  intros Hres. revert prev ops.
  induction Hres as [|fr e frames entries [Ht Hb] _ IH]; intros prev ops.
  - cbn [for_inM animate_ops fmap list_fmap last]. by rewrite app_nil_r.
  - cbn [for_inM animate_ops]. unfold mbind at 1, M_bind at 1.
    rewrite (animate_step_Ok _ _ _ _ e) by done.
    by rewrite IH, <-app_assoc.
Qed.



(** The loop fails with the KeyError of a frame number that has no
    block. *)
Lemma animate_loop_missing `{Pyquake} blocks fps frames prev ops (st : bpy_data) :
  (∃ fr, fr ∈ frames ∧ blocks !! fr.2 = None) →
  for_inM frames (animate_step blocks fps) (prev_vars prev) (map_blocks (run_ops ops) st)
  = Raise KeyError.
Proof.
  revert prev ops. induction frames as [|[t fn] frames IH]; intros prev ops.
  - by intros (? & ?%elem_of_nil & _).
  - intros Hmiss. cbn [for_inM]. destruct (blocks !! fn) as [b|] eqn:Hb.
    + unfold mbind at 1, M_bind at 1.
      rewrite (animate_step_Ok _ _ _ (t, fn) (t, b)) by done.
      apply IH. destruct Hmiss as (fr & [->|Hin]%elem_of_cons & Hfr); [|by exists fr].
      simpl in Hfr. congruence.
    + unfold mbind at 1, M_bind at 1, animate_step. cbn [prev_vars].
      unfold mbind at 1, M_bind at 1, lift, dict_get. by rewrite Hb.
Qed.

Lemma action_set_linear_map_blocks `{Pyquake} obj o mesh (st : bpy_data) :
  objects st !! obj = Some o → bpy.data o = Some mesh →
  action_set_linear obj st
  = Ok (tt, map_blocks (λ r k, if decide (r.1 = mesh) then with_linear k else k) st).
Proof.
  intros Ho Hmesh. unfold action_set_linear, mbind at 1, M_bind at 1, object_data.
  rewrite Ho, Hmesh. unfold set_meshes, map_blocks, with_meshes. do 3 f_equal.
  rewrite list_alter_imap. apply imap_ext. intros i m _. simpl.
  destruct (decide (i = mesh)) as [->|Hne].
  - apply with_shape_keys_ext. apply list_eq. intros k.
    by rewrite list_lookup_fmap, list_lookup_imap.
  - symmetry. apply with_shape_keys_id, imap_id.
Qed.

(** [_animate] as a change of every block. *)
Lemma animate_Ok `{Pyquake} am blocks obj frames fps entries o mesh (st : bpy_data) :
  resolved blocks frames entries →
  objects st !! obj = Some o → bpy.data o = Some mesh →
  _animate am blocks obj frames fps st
  = Ok (tt, map_blocks (animate_block fps mesh entries) st).
Proof.
  intros Hres Ho Hmesh. unfold _animate, mbind at 1, M_bind at 1.
  rewrite <-(map_blocks_id (run_ops []) st) at 1 by done.
  change (None, None) with (prev_vars None).
  rewrite (animate_loop_Ok _ _ _ entries) by done.
  destruct Hres as [|fr e frames entries _ _]; cbn [app animate_ops].
  - done.
  - assert (∃ e', last (None :: (Some <$> e :: entries)) ≫= id = Some e') as [e' ->].
    { clear. revert e. induction entries as [|x l IH]; intros e; [by exists e|].
      destruct (IH x) as [e' He']. exists e'. exact He'. }
    cbn [prev_vars fmap option_fmap option_map].
    rewrite (action_set_linear_map_blocks _ o mesh); [|done..].
    by rewrite map_blocks_compose.
Qed.


(** *** The keyframes that the writes leave *)

Lemma apply_op_keyframes (op : key_op) (k : bpy.ShapeKey) (p : bpy.Keyframe) :
  p ∈ bpy.keyframes k → p ∈ bpy.keyframes (apply_op op k).
Proof. destruct op; simpl; [done|]. intros Hp. apply elem_of_app. by left. Qed.

Lemma foldl_apply_op_keyframes (ops : list key_op) (k : bpy.ShapeKey) (p : bpy.Keyframe) :
  p ∈ bpy.keyframes k → p ∈ bpy.keyframes (foldl (λ k op, apply_op op k) k ops).
Proof.
  revert k. induction ops as [|op ops IH]; intros k Hp; [done|].
  simpl. by apply IH, apply_op_keyframes.
Qed.

(** A weight assignment followed by a keyframe insertion leaves a
    keyframe with that weight, whatever is written before and after. *)
Lemma run_ops_inserted `{Pyquake} pre post (r : block_ref) v f (k : bpy.ShapeKey) :
  ∃ p, p ∈ bpy.keyframes (run_ops (pre ++ [(r, SetValue v); (r, InsertKeyframe f)] ++ post) r k)
     ∧ bpy.co_frame p = f ∧ bpy.co_value p = v.
Proof.
  exists {| bpy.co_frame := f; bpy.co_value := v; bpy.interp := bpy.BEZIER |}.
  split; [|done]. rewrite !run_ops_app. apply foldl_apply_op_keyframes.
  unfold run_ops at 1, ops_on. rewrite !filter_cons_True by done. simpl.
  apply elem_of_app. right. by left.
Qed.

(** Where the writes of the entry at position [i] stand among all. *)
Lemma animate_ops_lookup (fps : Q) prev (entries : list (Q * block_ref)) i e :
  entries !! i = Some e →
  ∃ pre post,
    animate_ops fps prev entries
    = pre ++ step_ops fps (match i with 0 => prev | S j => entries !! j end) e ++ post.
Proof.
  revert prev i. induction entries as [|e0 entries IH]; intros prev i; [done|].
  destruct i as [|i]; simpl.
  - intros [= ->]. by exists [], (animate_ops fps (Some e) entries).
  - intros Hi. destruct (IH (Some e0) i Hi) as (pre & post & Heq).
    exists (step_ops fps prev e0 ++ pre), post. rewrite Heq, <-app_assoc.
    by destruct i.
Qed.

Lemma with_linear_keyframes (k : bpy.ShapeKey) (p : bpy.Keyframe) :
  p ∈ bpy.keyframes k →
  ∃ p', p' ∈ bpy.keyframes (with_linear k)
      ∧ bpy.co_frame p' = bpy.co_frame p ∧ bpy.co_value p' = bpy.co_value p.
Proof.
  intros Hp. eexists. split; [by apply list_elem_of_fmap_2|done].
Qed.

Lemma animate_block_inserted `{Pyquake} fps mesh entries pre post (r : block_ref) v f
    (k : bpy.ShapeKey) :
  animate_ops fps None entries = pre ++ [(r, SetValue v); (r, InsertKeyframe f)] ++ post →
  ∃ p, p ∈ bpy.keyframes (animate_block fps mesh entries r k)
     ∧ bpy.co_frame p = f ∧ bpy.co_value p = v.
Proof.
  intros Heq. unfold animate_block. rewrite Heq.
  destruct (run_ops_inserted pre post r v f k) as (p & Hp & Hf & Hv).
  destruct entries; [by exists p|]. case_decide; [|by exists p].
  destruct (with_linear_keyframes _ p Hp) as (p' & Hp' & Hf' & Hv').
  exists p'. split; [done|]. by rewrite Hf', Hv'.
Qed.




(** ** Shape-key blocks of a sub-object *)

Lemma traverse_acc_eq {A B} (f : A → result B) (l : list A) (acc : list B) :
  for_in l (λ acc x, y ← f x; Ok (acc ++ [y])) acc = (acc ++.) <$> traverse f l.
Proof.
  unfold traverse. revert acc. induction l as [|x l IH]; intros acc; simpl.
  - by rewrite app_nil_r.
  - destruct (f x) as [y|e]; simpl; [|done].
    rewrite (IH (acc ++ [y])), (IH [y]).
    destruct (for_in l _ []) as [ys|e]; simpl; [|done]. by rewrite <-app_assoc.
Qed.

Lemma traverse_cons {A B} (f : A → result B) (x : A) (l : list A) :
  traverse f (x :: l) = y ← f x; ys ← traverse f l; Ok (y :: ys).
Proof.
  unfold traverse at 1. simpl. destruct (f x) as [y|e]; simpl; [|done].
  rewrite traverse_acc_eq. by destruct (traverse f l).
Qed.

Lemma set_mesh_set_mesh `{Pyquake} mesh m1 m2 (st : bpy_data) :
  set_mesh mesh m2 (set_mesh mesh m1 st) = set_mesh mesh m2 st.
Proof. unfold set_mesh, with_meshes. simpl. by rewrite list_insert_insert_eq. Qed.

Lemma set_mesh_lookup `{Pyquake} mesh m m' (st : bpy_data) :
  meshes st !! mesh = Some m → meshes (set_mesh mesh m' st) !! mesh = Some m'.
Proof.
  intros Hm. simpl. apply list_lookup_insert_eq. by eapply lookup_lt_Some.
Qed.

Lemma set_mesh_id `{Pyquake} mesh m (st : bpy_data) :
  meshes st !! mesh = Some m → set_mesh mesh m st = st.
Proof.
  intros Hm. apply bpy_data_eq; try done. simpl. by apply list_insert_id.
Qed.

Lemma set_meshes_alter `{Pyquake} f mesh m (st : bpy_data) :
  meshes st !! mesh = Some m →
  set_meshes (alter f mesh) st = Ok (tt, set_mesh mesh (f m) st).
Proof.
  intros Hm. unfold set_meshes, set_mesh, with_meshes. do 3 f_equal.
  apply list_eq. intros i. destruct (decide (i = mesh)) as [->|Hne].
  - rewrite list_lookup_alter_eq, Hm, list_lookup_insert_eq; [done|].
    by eapply lookup_lt_Some.
  - by rewrite list_lookup_alter_ne, list_lookup_insert_ne.
Qed.

Lemma create_block_eq `{Pyquake} obj o mesh m simple_frame vert_map (st : bpy_data) :
  objects st !! obj = Some o → bpy.data o = Some mesh → meshes st !! mesh = Some m →
  _create_block obj simple_frame vert_map st
  = match block_key (bpy.vertices m) vert_map simple_frame with
    | Ok k => Ok ((mesh, length (bpy.shape_keys m)),
                  set_mesh mesh (with_shape_keys (λ ks, ks ++ [k]) m) st)
    | Raise e => Raise e
    end.
Proof.
  intros Ho Hmesh Hm.
  unfold _create_block, shape_key_add, get_block, alter_block, object_data, get_mesh,
    set_meshes, lift, mbind, M_bind, mret, M_ret.
  rewrite Ho, Hmesh, Hm. cbn [meshes fst snd].
  rewrite list_lookup_alter_eq, Hm. cbn [fmap option_fmap option_map].
  cbn [with_shape_keys bpy.shape_keys]. rewrite lookup_app_r, Nat.sub_diag by done.
  cbn [lookup list_lookup bpy.key_data]. unfold block_key.
  destruct (traverse _ _) as [cos|e]; [|done]. cbn [mbind result_bind meshes].
  unfold set_mesh, with_meshes. do 3 f_equal.
  apply list_eq. intros i. destruct (decide (i = mesh)) as [->|Hne].
  - rewrite !list_lookup_alter_eq, Hm, list_lookup_insert_eq by (by eapply lookup_lt_Some).
    cbn. f_equal. unfold with_shape_keys. cbn. f_equal.
    rewrite alter_app_r_alt, Nat.sub_diag by done. done.
  - by rewrite !list_lookup_alter_ne, list_lookup_insert_ne.
Qed.

Lemma extend_blocks_S (mesh i n : nat) (blocks : gmap Z block_ref) :
  extend_blocks mesh i (S n) blocks
  = extend_blocks mesh (S i) n (<[Z.of_nat i := (mesh, i)]> blocks).
Proof. done. Qed.

Lemma extend_blocks_lookup (mesh i n : nat) (blocks : gmap Z block_ref) (z : Z) :
  extend_blocks mesh i n blocks !! z
  = if decide (Z.of_nat i ≤ z < Z.of_nat (i + n))%Z then Some (mesh, Z.to_nat z)
    else blocks !! z.
Proof.
  revert i blocks. induction n as [|n IH]; intros i blocks.
  - rewrite decide_False by lia. done.
  - rewrite extend_blocks_S, IH.
    destruct (decide (Z.of_nat (S i) ≤ z < Z.of_nat (S i + n))%Z).
    + rewrite decide_True by lia. done.
    + destruct (decide (z = Z.of_nat i)) as [->|Hne].
      * rewrite decide_True by lia. rewrite lookup_insert_eq. by rewrite Nat2Z.id.
      * rewrite decide_False by lia. by rewrite lookup_insert_ne.
Qed.

(** A loop that adds one block per item to the mesh of [obj] and enters
    it in [blocks] under the item's number. *)
Lemma block_loop_eq `{Pyquake} {X} (body : gmap Z block_ref → nat * X → M (gmap Z block_ref))
    (key_of : X → result bpy.ShapeKey) obj o mesh verts :
  bpy.data o = Some mesh →
  (∀ blocks j x (st : bpy_data) m,
     objects st !! obj = Some o → meshes st !! mesh = Some m → bpy.vertices m = verts →
     body blocks (j, x) st
     = match key_of x with
       | Ok k => Ok (<[Z.of_nat j := (mesh, length (bpy.shape_keys m))]> blocks,
                     set_mesh mesh (with_shape_keys (λ ks, ks ++ [k]) m) st)
       | Raise e => Raise e
       end) →
  ∀ xs i blocks (st : bpy_data) m,
    objects st !! obj = Some o → meshes st !! mesh = Some m → bpy.vertices m = verts →
    length (bpy.shape_keys m) = i →
    for_inM (imap (λ j x, (i + j, x)) xs) body blocks st
    = match traverse key_of xs with
      | Ok keys => Ok (extend_blocks mesh i (length keys) blocks,
                       set_mesh mesh (with_shape_keys (λ ks, ks ++ keys) m) st)
      | Raise e => Raise e
      end.
Proof.
  intros Hmesh Hbody xs. induction xs as [|x xs IH]; intros i blocks st m Ho Hm Hv Hlen.
  - cbn. rewrite with_shape_keys_id by (by rewrite app_nil_r).
    by rewrite set_mesh_id.
  - rewrite imap_cons, traverse_cons. cbn [for_inM].
    unfold mbind at 1, M_bind at 1. rewrite Nat.add_0_r.
    rewrite (Hbody _ _ _ _ m) by done.
    destruct (key_of x) as [k|e]; [|done]. cbn [mbind result_bind].
    rewrite (imap_ext _ (λ j x, (S i + j, x))) by (intros; simpl; f_equal; lia).
    rewrite (IH (S i) _ _ (with_shape_keys (λ ks, ks ++ [k]) m)).
    + destruct (traverse key_of xs) as [keys|e]; [|done].
      cbn [mbind result_bind length].
      rewrite extend_blocks_S, Hlen, set_mesh_set_mesh. do 3 f_equal.
      unfold with_shape_keys. cbn. by rewrite <-app_assoc.
    + done.
    + by eapply set_mesh_lookup.
    + done.
    + cbn. rewrite length_app. simpl. lia.
Qed.

Lemma add_frame_block_eq `{Pyquake} obj o mesh vert_map blocks j frame
    (st : bpy_data) m :
  bpy.data o = Some mesh →
  objects st !! obj = Some o → meshes st !! mesh = Some m →
  add_frame_block obj vert_map blocks (j, frame) st
  = match frame_key (bpy.vertices m) vert_map frame with
    | Ok k => Ok (<[Z.of_nat j := (mesh, length (bpy.shape_keys m))]> blocks,
                  set_mesh mesh (with_shape_keys (λ ks, ks ++ [k]) m) st)
    | Raise e => Raise e
    end.
Proof.
  intros Hmesh Ho Hm. unfold add_frame_block, frame_key.
  destruct (decide (mdl.frame_type frame ≠ SINGLE)); [done|].
  unfold mbind at 1, M_bind at 1, lift.
  destruct (mdl.frame frame) as [simple_frame|e]; [|done]. cbn [mbind result_bind].
  unfold mbind, M_bind. rewrite (create_block_eq _ o mesh m) by done.
  by destruct (block_key _ _ _).
Qed.

Lemma add_group_block_eq `{Pyquake} obj o mesh vert_map blocks j simple_frame
    (st : bpy_data) m :
  bpy.data o = Some mesh →
  objects st !! obj = Some o → meshes st !! mesh = Some m →
  add_group_block obj vert_map blocks (j, simple_frame) st
  = match block_key (bpy.vertices m) vert_map simple_frame with
    | Ok k => Ok (<[Z.of_nat j := (mesh, length (bpy.shape_keys m))]> blocks,
                  set_mesh mesh (with_shape_keys (λ ks, ks ++ [k]) m) st)
    | Raise e => Raise e
    end.
Proof.
  intros Hmesh Ho Hm. unfold add_group_block.
  unfold mbind, M_bind. rewrite (create_block_eq _ o mesh m) by done.
  by destruct (block_key _ _ _).
Qed.

Lemma map_blocks_local `{Pyquake} T mesh m (st : bpy_data) :
  meshes st !! mesh = Some m →
  (∀ r k, r.1 ≠ mesh → T r k = k) →
  map_blocks T st = set_mesh mesh (with_shape_keys (imap (λ k, T (mesh, k))) m) st.
Proof.
  intros Hm HT. unfold map_blocks, set_mesh. f_equal. apply list_eq. intros i.
  rewrite list_lookup_imap. destruct (decide (i = mesh)) as [->|Hne].
  - rewrite Hm, list_lookup_insert_eq by (by eapply lookup_lt_Some). done.
  - rewrite list_lookup_insert_ne by done.
    destruct (meshes st !! i) as [m'|]; [|done]. simpl. f_equal.
    apply with_shape_keys_id. rewrite <-(imap_id (bpy.shape_keys m')) at 2.
    apply imap_ext. intros k key _. by apply HT.
Qed.

Lemma animate_ops_mesh (fps : Q) (mesh : nat) prev (entries : list (Q * block_ref)) :
  (∀ e, prev = Some e → e.2.1 = mesh) →
  Forall (λ e, e.2.1 = mesh) entries →
  Forall (λ op, op.1.1 = mesh) (animate_ops fps prev entries).
Proof.
  intros Hprev Hall. revert prev Hprev.
  induction Hall as [|e entries He _ IH]; intros prev Hprev; [constructor|].
  cbn [animate_ops]. apply Forall_app. split.
  - unfold step_ops. destruct prev as [[pt pb]|].
    + specialize (Hprev _ eq_refl). simpl in Hprev. repeat constructor; done.
    + repeat constructor; done.
  - apply IH. by intros ? [= <-].
Qed.

Lemma ops_on_other (r : block_ref) (mesh : nat) (ops : list (block_ref * key_op)) :
  Forall (λ op, op.1.1 = mesh) ops → r.1 ≠ mesh → ops_on r ops = [].
Proof.
  intros Hall Hr. unfold ops_on. induction Hall as [|op ops Hop _ IH]; [done|].
  rewrite filter_cons_False; [done|]. by intros <-.
Qed.

Lemma animate_block_other `{Pyquake} fps mesh entries (r : block_ref) (k : bpy.ShapeKey) :
  Forall (λ e, e.2.1 = mesh) entries → r.1 ≠ mesh →
  animate_block fps mesh entries r k = k.
Proof.
  intros Hall Hr. unfold animate_block, run_ops.
  rewrite (ops_on_other r mesh) by (by try apply animate_ops_mesh).
  destruct entries; [done|]. by rewrite decide_False.
Qed.

Lemma resolve_Ok (blocks : gmap Z block_ref) frames entries :
  traverse (λ fr : Q * Z, b ← dict_get blocks fr.2; Ok (fr.1, b)) frames = Ok entries
  ↔ resolved blocks frames entries.
Proof.
  rewrite traverse_Ok. unfold resolved. split.
  - intros Hall. eapply Forall2_impl; [exact Hall|].
    intros [t fn] [t' b]. unfold dict_get. simpl.
    destruct (blocks !! fn); simpl; [|done]. by intros [= -> ->].
  - intros Hall. eapply Forall2_impl; [exact Hall|].
    intros [t fn] [t' b]. unfold dict_get. simpl.
    by intros [-> ->].
Qed.

Lemma resolve_Raise (blocks : gmap Z block_ref) (frames : list (Q * Z)) e :
  traverse (λ fr : Q * Z, b ← dict_get blocks fr.2; Ok (fr.1, b)) frames = Raise e →
  e = KeyError ∧ ∃ fr, fr ∈ frames ∧ blocks !! fr.2 = None.
Proof.
  intros (fr & Hin & Hfr)%traverse_Raise. unfold dict_get in Hfr.
  destruct (blocks !! fr.2) eqn:Hb; [done|]. injection Hfr as <-.
  split; [done|]. by exists fr.
Qed.

Lemma animate_missing `{Pyquake} am blocks obj frames fps (st : bpy_data) :
  (∃ fr, fr ∈ frames ∧ blocks !! fr.2 = None) →
  _animate am blocks obj frames fps st = Raise KeyError.
Proof.
  intros Hmiss. unfold _animate, mbind, M_bind.
  rewrite <-(map_blocks_id (run_ops []) st) by done.
  change (None, None) with (prev_vars None).
  by rewrite animate_loop_missing.
Qed.

(** [_animate] on a mesh whose blocks are numbered 0, 1, ... *)
Lemma animate_fresh_eq `{Pyquake} am obj o mesh m frames fps (st : bpy_data) :
  objects st !! obj = Some o → bpy.data o = Some mesh → meshes st !! mesh = Some m →
  _animate am (extend_blocks mesh 0 (length (bpy.shape_keys m)) ∅) obj frames fps st
  = match animated_keys mesh fps (bpy.shape_keys m) frames with
    | Ok (_, keys) => Ok (tt, set_mesh mesh (with_shape_keys (λ _, keys) m) st)
    | Raise e => Raise e
    end.
Proof.
  intros Ho Hmesh Hm. unfold animated_keys.
  destruct (traverse _ frames) as [entries|e] eqn:Hres; cbn [mbind result_bind].
  - apply resolve_Ok in Hres as Hres'.
    rewrite (animate_Ok _ _ _ _ _ entries o mesh) by done.
    assert (Forall (λ e : Q * block_ref, e.2.1 = mesh) entries) as Hall.
    { apply Forall_forall. intros e (i & Hi)%list_elem_of_lookup_1.
      destruct (Forall2_lookup_r _ _ _ _ _ Hres' Hi) as (fr & _ & _ & Hb).
      rewrite extend_blocks_lookup in Hb. case_decide; [|done].
      injection Hb as <-. done. }
    rewrite (map_blocks_local _ mesh m) by (by try (intros; apply animate_block_other)).
    done.
  - apply resolve_Raise in Hres as [-> Hmiss]. by apply animate_missing.
Qed.

(** Lines 152-178 as a change of the sub-object's mesh. *)
Lemma shape_key_blocks_eq `{Pyquake} am subobj o mesh m vert_map frames final_time static
    fps (st : bpy_data) :
  objects st !! subobj = Some o → bpy.data o = Some mesh → meshes st !! mesh = Some m →
  bpy.shape_keys m = [] →
  shape_key_blocks am subobj vert_map frames final_time static fps st
  = match tri_set_keys am mesh (bpy.vertices m) vert_map frames final_time static fps with
    | Ok (blocks, keys) => Ok (blocks, set_mesh mesh (with_shape_keys (λ _, keys) m) st)
    | Raise e => Raise e
    end.
Proof.
  intros Ho Hmesh Hm Hkeys. unfold shape_key_blocks, tri_set_keys.
  destruct static; cbn [negb].
  - destruct (decide (length frames ≠ 1)); [done|].
    unfold mbind at 1, M_bind at 1, lift.
    destruct (py_index frames 0) as [frame0|e]; [|done]. cbn [mbind result_bind].
    unfold mbind at 1, M_bind at 1.
    destruct (py_index (mdl.frames am) frame0.2) as [group_frame|e]; [|done].
    cbn [mbind result_bind].
    destruct (decide (mdl.frame_type group_frame ≠ GROUP)); [done|].
    unfold mbind at 1, M_bind at 1.
    destruct (mdl.group_frames group_frame) as [group_frames|e]; [|done].
    cbn [mbind result_bind]. unfold mbind at 1, M_bind at 1.
    change (enumerate group_frames) with (imap (λ j x, (0 + j, x)) group_frames).
    rewrite (block_loop_eq _ (block_key (bpy.vertices m) vert_map) subobj o mesh
               (bpy.vertices m) Hmesh) with (m := m); try done.
    2: { intros blocks j x st0 m0 Ho0 Hm0 Hv0. rewrite <-Hv0.
         by apply (add_group_block_eq _ o). }
    2: { by rewrite Hkeys. }
    destruct (traverse _ group_frames) as [keys|e]; [|done]. cbn [mbind result_bind].
    unfold mbind at 1, M_bind at 1.
    destruct (mdl.group_times group_frame) as [times|e]; [|done].
    cbn [mbind result_bind]. unfold mbind at 1, M_bind at 1.
    destruct (loop_frames final_time times (length group_frames)) as [lf|e]; [|done].
    cbn [mbind result_bind]. unfold mbind, M_bind.
    rewrite (with_shape_keys_ext m (λ ks, ks ++ keys) (λ _, keys)) by (by rewrite Hkeys).
    pose proof (animate_fresh_eq am subobj o mesh (with_shape_keys (λ _, keys) m) lf fps
                  (set_mesh mesh (with_shape_keys (λ _, keys) m) st)) as Hanim.
    cbn [with_shape_keys bpy.shape_keys] in Hanim.
    rewrite Hanim; [|done..|by eapply set_mesh_lookup].
    unfold animated_keys. destruct (traverse _ lf) as [entries|e]; [|done].
    cbn [mbind result_bind]. unfold mret, M_ret. by rewrite set_mesh_set_mesh.
  - unfold mbind at 1, M_bind at 1.
    change (enumerate (mdl.frames am)) with (imap (λ j x, (0 + j, x)) (mdl.frames am)).
    rewrite (block_loop_eq _ (frame_key (bpy.vertices m) vert_map) subobj o mesh
               (bpy.vertices m) Hmesh) with (m := m); try done.
    2: { intros blocks j x st0 m0 Ho0 Hm0 Hv0. rewrite <-Hv0.
         by apply (add_frame_block_eq _ o). }
    2: { by rewrite Hkeys. }
    destruct (traverse _ (mdl.frames am)) as [keys|e]; [|done]. cbn [mbind result_bind].
    unfold mbind, M_bind. rewrite (with_shape_keys_ext m (λ ks, ks ++ keys) (λ _, keys)) by (by rewrite Hkeys).
    pose proof (animate_fresh_eq am subobj o mesh (with_shape_keys (λ _, keys) m) frames
                  fps (set_mesh mesh (with_shape_keys (λ _, keys) m) st)) as Hanim.
    cbn [with_shape_keys bpy.shape_keys] in Hanim.
    rewrite Hanim; [|done..|by eapply set_mesh_lookup].
    unfold animated_keys. destruct (traverse _ frames) as [entries|e]; [|done].
    cbn [mbind result_bind]. unfold mret, M_ret. by rewrite set_mesh_set_mesh.
Qed.

(** ** [_set_uvs] *)

Lemma assign_zip_lookup {A B} (f : B → A) (l : list A) (vs : list B) (j : nat) (v : B) :
  j < length l → vs !! j = Some v → assign_zip f l vs !! j = Some (f v).
Proof.
  revert vs j. induction l as [|x l IH]; intros vs j Hj Hv; [simpl in Hj; lia|].
  destruct vs as [|v0 vs]; [done|]. destruct j as [|j]; simpl in *.
  - by injection Hv as ->.
  - apply IH; [lia|done].
Qed.

Lemma assign_zip_length {A B} (f : B → A) (l : list A) (vs : list B) :
  length (assign_zip f l vs) = length l.
Proof.
  revert vs. induction l as [|x l IH]; intros [|v vs]; simpl; try done. by rewrite IH.
Qed.

Lemma assign_zip_id {A} (l vs : list A) :
  length vs = length l → assign_zip id l vs = vs.
Proof.
  revert vs. induction l as [|x l IH]; intros [|v vs]; simpl; try done.
  intros [= Hlen]. by rewrite IH.
Qed.

Lemma set_face_uvs_loop (am : mdl.AliasModel) rows tri_set done_rows :
  for_in (zip (seq (length done_rows) (length rows)) tri_set) (set_face_uvs am)
    (done_rows ++ rows)
  = (done_rows ++.) <$> uv_rows am rows tri_set.
Proof.
  unfold set_face_uvs. revert tri_set done_rows.
  induction rows as [|row rows IH]; intros tri_set done_rows; [done|].
  destruct tri_set as [|tri_idx tri_set]; [by cbn|].
  cbn [length seq zip zip_with for_in uv_rows].
  destruct (mdl.lookup_result _) as [tcs|e]; [|by cbn]. cbn [mbind result_bind].
  rewrite alter_app_r_alt, Nat.sub_diag by done. cbn [alter list_alter].
  rewrite (cons_middle _ done_rows), app_assoc.
  replace (S (length done_rows)) with (length (done_rows ++ [assign_zip
    (λ '(s, t), (s / inject_Z (mdl.skin_width am), t / inject_Z (mdl.skin_height am))%Q)
    row tcs])) by (rewrite length_app; simpl; lia).
  rewrite IH. destruct (uv_rows am rows tri_set) as [rest|e]; [|done].
  simpl. by rewrite <-app_assoc.
Qed.

Lemma set_uvs_eq `{Pyquake} mesh m am tri_set (st : bpy_data) :
  meshes st !! mesh = Some m → bpy.uv_layers m = [] →
  _set_uvs mesh am tri_set st
  = match tri_set_uvs am (bpy.polygons m) tri_set with
    | Ok uv => Ok (tt, set_mesh mesh (with_uv_layers (λ _, [uv]) m) st)
    | Raise e => Raise e
    end.
Proof.
  intros Hm Huv. unfold _set_uvs, get_mesh, set_meshes, lift, mbind, M_bind.
  cbn [meshes]. rewrite list_lookup_alter_eq, Hm. cbn [fmap option_fmap option_map].
  cbn [with_uv_layers bpy.uv_layers bpy.polygons]. rewrite Huv. cbn [app].
  change (py_index [?x] 0) with (Ok x). cbn iota beta.
  unfold tri_set_uvs.
  pose proof (set_face_uvs_loop am
    ((λ face : list nat, (λ _, (0, 0)%Q) <$> face) <$> bpy.polygons m) tri_set []) as Hloop.
  rewrite length_fmap in Hloop. cbn [length app] in Hloop. rewrite Hloop.
  destruct (uv_rows _ _ _) as [uv|e]; [|done]. cbn.
  unfold set_mesh, with_meshes. do 3 f_equal.
  apply list_eq. intros i. destruct (decide (i = mesh)) as [->|Hne].
  - rewrite !list_lookup_alter_eq, Hm, list_lookup_insert_eq by (by eapply lookup_lt_Some).
    cbn. f_equal. unfold with_uv_layers. cbn. by rewrite Huv.
  - by rewrite !list_lookup_alter_ne, list_lookup_insert_ne.
Qed.


Lemma uv_rows_Raise (am : mdl.AliasModel) rows tri_set e :
  uv_rows am rows tri_set = Raise e → e = IndexError.
Proof.
  revert tri_set. induction rows as [|row rows IH]; intros tri_set; [done|].
  destruct tri_set as [|tri_idx tri_set]; [done|]. cbn [uv_rows].
  intros [Hr|(tcs & _ & Hr)]%bind_Raise.
  - unfold mdl.lookup_result in Hr.
    destruct (mdl.get_tri_tcs am tri_idx); by simplify_eq.
  - apply bind_Raise in Hr as [Hr|(? & _ & [=])]. by eapply IH.
Qed.

(** ** The material of a triangle set *)

Lemma dict_get_Ok `{Countable K} {V} (d : gmap K V) (k : K) (v : V) :
  dict_get d k = Ok v ↔ d !! k = Some v.
Proof. unfold dict_get. destruct (d !! k); split; congruence. Qed.

Lemma dict_get_Raise `{Countable K} {V} (d : gmap K V) (k : K) (e : exn) :
  dict_get d k = Raise e ↔ d !! k = None ∧ e = KeyError.
Proof.
  unfold dict_get. destruct (d !! k); split.
  - done.
  - by intros [? _].
  - by intros [= <-].
  - by intros [_ ->].
Qed.

Lemma string_app_assoc (s1 s2 s3 : string) : (s1 +:+ s2) +:+ s3 = s1 +:+ (s2 +:+ s3).
Proof.
  induction s1 as [|c s1 IH]; [done|].
  change (String c ((s1 +:+ s2) +:+ s3) = String c (s1 +:+ (s2 +:+ s3))).
  by rewrite IH.
Qed.

Lemma tri_set_material_Ok `{Pyquake} am pal mdl_name obj_name skin_idx mdl_cfg tri_set_idx
    lights (st st' : bpy_data) mat lights' :
  tri_set_material am pal mdl_name obj_name skin_idx mdl_cfg tri_set_idx lights st
  = Ok ((mat, lights'), st') →
  ∃ v, mdl_cfg !! "sample_as_light" = Some v
    ∧ mat = material_name mdl_name obj_name skin_idx tri_set_idx v
    ∧ objects st' = objects st ∧ meshes st' = meshes st
    ∧ scene_objects st' = scene_objects st
    ∧ is_Some (materials st' !! mat)
    ∧ (is_Some (materials st !! mat) → st' = st ∧ lights' = lights)
    ∧ (materials st !! mat = None →
         (∃ x, materials st' = <[mat := x]> (materials st))
         ∧ lights' = if truthy v then {[mat]} ∪ lights else lights).
Proof.
  unfold tri_set_material.
  intros (v & st0 & [Hv ->]%lift_Ok & Hrest)%M_bind_Ok.
  apply dict_get_Ok in Hv. exists v. split; [done|].
  set (mat_name := if truthy v then _ else _) in Hrest.
  assert (mat_name = material_name mdl_name obj_name skin_idx tri_set_idx v) as Hname.
  { unfold mat_name, material_name. destruct (truthy v); [|done].
    by rewrite !string_app_assoc. }
  clearbody mat_name. subst mat_name.
  set (mat_name := material_name mdl_name obj_name skin_idx tri_set_idx v) in *.
  apply M_bind_Ok in Hrest as (mats & st1 & [= <- <-] & Hrest).
  apply M_bind_Ok in Hrest as (l & st2 & Hcreate & Hrest).
  apply M_bind_Ok in Hrest as (mat' & st3 & Hget & [= <- <- <-]).
  unfold materials_get in Hget.
  destruct (materials st2 !! mat_name) as [x2|] eqn:Hx2; [|done].
  injection Hget as <- <-. split; [done|].
  destruct (decide (materials st !! mat_name = None)) as [Hnone|Hsome].
  - apply M_bind_Ok in Hcreate as (mat0 & st4 & [= <- <-] & Hcreate).
    apply M_bind_Ok in Hcreate as (skin & st5 & [_ ->]%lift_Ok & Hcreate).
    apply M_bind_Ok in Hcreate as (ff & st6 & [_ ->]%lift_Ok & Hcreate).
    destruct (array_ims_from_indices pal skin ff) as [array_im fullbright_array_im].
    apply M_bind_Ok in Hcreate as (im & st7 & [= <- <-] & Hcreate).
    apply M_bind_Ok in Hcreate as ([] & st8 & Hsetup & Hcreate).
    apply M_bind_Ok in Hcreate as ([] & st9 & [= <-] & [= <- <-]).
    assert (objects st8 = objects st ∧ meshes st8 = meshes st
            ∧ scene_objects st8 = scene_objects st
            ∧ ∃ x, materials st8 = <[mat_name := x]> (materials st)) as (Ho & Hm & Hs & x & Hx).
    { destruct fullbright_array_im as [fb|].
      - apply M_bind_Ok in Hsetup as (fim & st10 & [= <- <-] & Hsetup).
        apply M_bind_Ok in Hsetup as (strength & st11 & [_ ->]%lift_Ok & [= <-]).
        repeat split; try done. eexists. cbn.
        by rewrite <-alter_insert_eq.
      - injection Hsetup as <-. repeat split; try done. eexists. cbn.
        by rewrite <-alter_insert_eq. }
    cbn in Hx2 |- *. rewrite Ho, Hm, Hs.
    split; [done|]. split; [done|]. split; [done|]. split; [by eexists|]. split.
    + intros [? ?]. congruence.
    + intros _. split; [|done]. eexists. rewrite Hx.
      by rewrite <-alter_insert_eq.
  - injection Hcreate as <- <-.
    split; [done|]. split; [done|]. split; [done|]. split; [by eexists|]. split.
    + done.
    + intros Hnone. done.
Qed.

Lemma tri_set_material_Raise `{Pyquake} am pal mdl_name obj_name skin_idx mdl_cfg
    tri_set_idx lights (st : bpy_data) e :
  tri_set_material am pal mdl_name obj_name skin_idx mdl_cfg tri_set_idx lights st
  = Raise e →
  e = KeyError ∨ e = IndexError.
Proof.
  unfold tri_set_material.
  intros [Hr|(v & st0 & _ & Hr)]%M_bind_Raise.
  { apply lift_Raise, dict_get_Raise in Hr as [_ ->]. by left. }
  apply M_bind_Raise in Hr as [[=]|(mats & st1 & [= <- <-] & Hr)].
  apply M_bind_Raise in Hr as [Hr|(l & st2 & _ & Hr)].
  - case_decide; [|done].
    apply M_bind_Raise in Hr as [[=]|(mat0 & st4 & _ & Hr)].
    apply M_bind_Raise in Hr as [Hr|(skin & st5 & _ & Hr)].
    { apply lift_Raise, py_index_Raise in Hr as [-> _]. by right. }
    apply M_bind_Raise in Hr as [Hr|(ff & st6 & _ & Hr)].
    { apply lift_Raise, dict_get_Raise in Hr as [_ ->]. by left. }
    destruct (array_ims_from_indices pal skin ff) as [array_im fullbright_array_im].
    apply M_bind_Raise in Hr as [[=]|(im & st7 & _ & Hr)].
    apply M_bind_Raise in Hr as [Hr|([] & st8 & _ & Hr)].
    + destruct fullbright_array_im as [fb|]; [|done].
      apply M_bind_Raise in Hr as [[=]|(fim & st10 & _ & Hr)].
      apply M_bind_Raise in Hr as [Hr|(strength & st11 & _ & [=])].
      apply lift_Raise, dict_get_Raise in Hr as [_ ->]. by left.
    + apply M_bind_Raise in Hr as [[=]|([] & st9 & _ & [=])].
  - apply M_bind_Raise in Hr as [Hr|(? & ? & _ & [=])].
    unfold materials_get in Hr. destruct (materials st2 !! _); [done|].
    injection Hr as <-. by left.
Qed.

(** ** One triangle set *)

(** The loop body up to the shape keys: the mesh data and the shape
    keys are computed from the model, then the material and the UVs
    follow on the store that holds the new sub-object. *)
Lemma add_tri_set_eq `{Pyquake} am pal mdl_name obj_name frames skin_idx final_time
    mdl_cfg static fps obj s tri_set_idx tri_set (st : bpy_data) :
  add_tri_set am pal mdl_name obj_name frames skin_idx final_time mdl_cfg static fps obj
    s (tri_set_idx, tri_set) st
  = match tri_set_pydata am tri_set with
    | Raise e => Raise e
    | Ok ((verts, edges, faces), vert_map) =>
        match tri_set_keys am (length (meshes st)) verts vert_map frames final_time
                static fps with
        | Raise e => Raise e
        | Ok (blocks, keys) =>
            ('(mat, sample_as_light_mats) ←
               tri_set_material am pal mdl_name obj_name skin_idx mdl_cfg tri_set_idx s.2;
             materials_append (length (meshes st)) mat;;
             _set_uvs (length (meshes st)) am tri_set;;
             mret (Some blocks, sample_as_light_mats))
              (with_sub_object obj_name tri_set_idx obj verts faces keys st)
        end
    end.
Proof.
  destruct s as [blocks0 lights]. unfold add_tri_set.
  unfold mbind at 1, M_bind at 1, meshes_new.
  unfold mbind at 1, M_bind at 1, set_meshes, mret at 1, M_ret at 1.
  unfold mbind at 1, M_bind at 1, lift.
  destruct (tri_set_pydata am tri_set) as [[[[verts edges] faces] vert_map]|e]; [|done].
  unfold mbind at 1, M_bind at 1, from_pydata, set_meshes. cbn [meshes].
  unfold mbind at 1, M_bind at 1, objects_new.
  unfold mbind at 1, M_bind at 1, set_objects, mret at 1, M_ret at 1. cbn [objects meshes].
  unfold mbind at 1, M_bind at 1, set_parent, set_objects. cbn [objects meshes].
  unfold mbind at 1, M_bind at 1, scene_link, set_scene_objects. cbn [objects meshes].
  unfold mbind at 1, M_bind at 1.
  rewrite !alter_app_r_alt, !Nat.sub_diag by done. cbn [alter list_alter].
  cbn [materials images scene_objects bpy.object_name bpy.data with_geometry
         bpy.mesh_name bpy.shape_keys bpy.mesh_materials bpy.uv_layers].
  erewrite (shape_key_blocks_eq am (length (objects st)) _ (length (meshes st))).
  2: { cbn [objects]. by rewrite lookup_app_r, Nat.sub_diag. }
  2: { done. }
  2: { cbn [meshes]. by rewrite lookup_app_r, Nat.sub_diag. }
  2: { done. }
  cbn [bpy.vertices].
  destruct (tri_set_keys _ _ _ _ _ _ _ _) as [[blocks keys]|e]; [|done].
  unfold set_mesh, with_meshes. cbn [objects meshes materials images scene_objects].
  rewrite insert_app_r_alt, Nat.sub_diag by done. cbn [insert list_insert].
  done.
Qed.

(** What a successful iteration has built. *)
Lemma add_tri_set_Ok `{Pyquake} am pal mdl_name obj_name frames skin_idx final_time
    mdl_cfg static fps obj s tri_set_idx tri_set (st st' : bpy_data) s' :
  add_tri_set am pal mdl_name obj_name frames skin_idx final_time mdl_cfg static fps obj
    s (tri_set_idx, tri_set) st = Ok (s', st') →
  ∃ verts edges faces vert_map blocks keys v uv,
    tri_set_pydata am tri_set = Ok ((verts, edges, faces), vert_map)
    ∧ tri_set_keys am (length (meshes st)) verts vert_map frames final_time static fps
      = Ok (blocks, keys)
    ∧ mdl_cfg !! "sample_as_light" = Some v
    ∧ tri_set_uvs am faces tri_set = Ok uv
    ∧ s'.1 = Some blocks
    ∧ objects st' = objects st ++ [sub_object obj_name tri_set_idx (length (meshes st)) obj]
    ∧ meshes st'
      = meshes st ++ [sub_mesh obj_name tri_set_idx verts faces keys
                        [material_name mdl_name obj_name skin_idx tri_set_idx v] [uv]]
    ∧ scene_objects st' = scene_objects st ++ [length (objects st)]
    ∧ is_Some (materials st' !! material_name mdl_name obj_name skin_idx tri_set_idx v)
    ∧ (is_Some (materials st !! material_name mdl_name obj_name skin_idx tri_set_idx v) →
         materials st' = materials st ∧ images st' = images st ∧ s'.2 = s.2)
    ∧ (materials st !! material_name mdl_name obj_name skin_idx tri_set_idx v = None →
         ∃ x, materials st'
              = <[material_name mdl_name obj_name skin_idx tri_set_idx v := x]>
                  (materials st)).
Proof.
  rewrite add_tri_set_eq.
  destruct (tri_set_pydata am tri_set) as [[[[verts edges] faces] vert_map]|e]; [|done].
  destruct (tri_set_keys _ _ _ _ _ _ _ _) as [[blocks keys]|e] eqn:Hkeys; [|done].
  intros ([mat lights'] & st1 & Hmat & Hrest)%M_bind_Ok.
  apply tri_set_material_Ok in Hmat
    as (v & Hv & -> & Ho & Hm & Hs & Hin & Hsome & Hnone).
  set (mat := material_name mdl_name obj_name skin_idx tri_set_idx v) in *.
  apply M_bind_Ok in Hrest as ([] & st2 & Happ & Hrest).
  apply M_bind_Ok in Hrest as ([] & st3 & Huv & [= <- <-]).
  unfold materials_append in Happ.
  erewrite set_meshes_alter in Happ
    by (rewrite Hm; cbn [meshes with_sub_object]; by rewrite lookup_app_r, Nat.sub_diag).
  injection Happ as <-.
  rewrite (set_uvs_eq _ (with_materials (λ l, l ++ [mat])
                           (sub_mesh obj_name tri_set_idx verts faces keys [] [])))
    in Huv; [| |done].
  2: { eapply set_mesh_lookup. rewrite Hm. cbn [meshes with_sub_object].
       by rewrite lookup_app_r, Nat.sub_diag. }
  cbn [with_materials bpy.polygons sub_mesh bpy.mesh_materials app] in Huv.
  destruct (tri_set_uvs am faces tri_set) as [uv|e] eqn:Huvs; [|done].
  injection Huv as <-.
  exists verts, edges, faces, vert_map, blocks, keys, v, uv.
  split; [done|]. split; [done|]. split; [done|]. split; [done|]. split; [done|].
  cbn [objects meshes scene_objects materials set_mesh with_meshes].
  rewrite Ho, Hm, Hs. cbn [objects meshes scene_objects with_sub_object].
  split; [done|]. split.
  { rewrite list_insert_insert_eq, insert_app_r_alt, Nat.sub_diag by done. done. }
  split; [done|]. split; [done|]. split.
  - intros Hsome'. destruct (Hsome Hsome') as [-> ->]. done.
  - intros Hnone'. by destruct (Hnone Hnone') as [? _].
Qed.

(** ** The loop over the triangle sets *)

Lemma add_tri_sets_Ok `{Pyquake} am pal mdl_name obj_name frames skin_idx final_time
    mdl_cfg static fps obj tri_sets :
  ∀ i s (st st' : bpy_data) s',
    for_inM (imap (λ j x, (i + j, x)) tri_sets)
      (add_tri_set am pal mdl_name obj_name frames skin_idx final_time mdl_cfg static fps
         obj) s st = Ok (s', st') →
    (∃ new_objects, objects st' = objects st ++ new_objects
                    ∧ length new_objects = length tri_sets)
    ∧ (∃ new_meshes, meshes st' = meshes st ++ new_meshes
                     ∧ length new_meshes = length tri_sets)
    ∧ scene_objects st'
      = scene_objects st ++ seq (length (objects st)) (length tri_sets)
    ∧ (∀ j tri_set, tri_sets !! j = Some tri_set →
         ∃ blocks,
           tri_set_built am mdl_name obj_name frames skin_idx final_time mdl_cfg static fps
             obj (i + j) tri_set (length (objects st) + j) (length (meshes st) + j) st'
             blocks
           ∧ (S j = length tri_sets → s'.1 = Some blocks))
    ∧ (tri_sets = [] → s' = s)
    ∧ (∀ k x, materials st !! k = Some x → materials st' !! k = Some x)
    ∧ (∀ v, mdl_cfg !! "sample_as_light" = Some v →
         (∀ j, j < length tri_sets →
            is_Some (materials st !! material_name mdl_name obj_name skin_idx (i + j) v)) →
         materials st' = materials st).
Proof.
  induction tri_sets as [|tri_set tri_sets IH]; intros i s st st' s'.
  - intros [= <- <-]. split; [exists []; by rewrite app_nil_r|].
    split; [exists []; by rewrite app_nil_r|].
    split; [by rewrite app_nil_r|]. repeat split; done.
  - rewrite imap_cons. cbn [for_inM].
    intros (s1 & st1 & Hbody & Hrest)%M_bind_Ok.
    rewrite Nat.add_0_r in Hbody.
    rewrite (imap_ext _ (λ j x, (S i + j, x))) in Hrest
      by (intros; simpl; f_equal; lia).
    apply add_tri_set_Ok in Hbody
      as (verts & edges & faces & vert_map & blocks & keys & v & uv & Hpd & Hkeys & Hv
          & Huv & Hs1 & Ho1 & Hm1 & Hsc1 & Hin1 & Hsome1 & Hnone1).
    apply IH in Hrest
      as ((new_objects & Ho & Hlo) & (new_meshes & Hm & Hlm) & Hsc & Hbuilt & Hnil
          & Hmono & Hsame).
    assert (∀ k x, materials st !! k = Some x → materials st1 !! k = Some x) as Hmono1.
    { intros k x Hk.
      destruct (materials st !! material_name mdl_name obj_name skin_idx i v) eqn:Hmat.
      - destruct Hsome1 as (-> & _ & _); [by eexists|]. done.
      - destruct (Hnone1 eq_refl) as [y ->].
        rewrite lookup_insert_ne; [done|]. intros <-. congruence. }
    split; [|split; [|split; [|split; [|split; [|split]]]]].
    + exists (sub_object obj_name i (length (meshes st)) obj :: new_objects).
      rewrite Ho, Ho1, <-app_assoc. split; [done|]. simpl. by rewrite Hlo.
    + eexists (_ :: new_meshes).
      rewrite Hm, Hm1, <-app_assoc. split; [done|]. simpl. by rewrite Hlm.
    + rewrite Hsc, Hsc1, Ho1, length_app, <-app_assoc. simpl.
      by rewrite Nat.add_1_r.
    + intros [|j] tri_set'; simpl.
      * intros [= <-]. exists blocks. split.
        -- exists verts, edges, faces, vert_map, keys, v, uv.
           rewrite !Nat.add_0_r. repeat split; try done.
           ++ rewrite Ho, Ho1, <-app_assoc. by apply list_lookup_middle.
           ++ rewrite Hm, Hm1, <-app_assoc. by apply list_lookup_middle.
           ++ destruct Hin1 as [x Hx]. exists x. by apply Hmono.
        -- intros Hlen. destruct tri_sets; [|done].
           rewrite Hnil by done. done.
      * intros Hj. destruct (Hbuilt j tri_set' Hj) as (blocks' & Hb & Hlast).
        exists blocks'. rewrite Ho1, Hm1, !length_app in Hb. simpl in Hb.
        replace (i + S j) with (S i + j) by lia.
        replace (length (objects st) + S j) with (length (objects st) + 1 + j) by lia.
        replace (length (meshes st) + S j) with (length (meshes st) + 1 + j) by lia.
        split; [done|]. intros Hlen. apply Hlast. lia.
    + done.
    + intros k x Hk. by apply Hmono, Hmono1.
    + intros v' Hv' Hall. assert (v' = v) as -> by congruence.
      assert (materials st1 = materials st) as Hst1.
      { destruct Hsome1 as (? & _ & _); [|done].
        specialize (Hall 0). rewrite Nat.add_0_r in Hall. apply Hall. simpl. lia. }
      rewrite <-Hst1. apply (Hsame v Hv). intros j Hj. rewrite Hst1.
      replace (S i + j) with (i + S j) by lia. apply Hall. simpl. lia.
Qed.

(** ** [add_model] *)

(** What a successful call has built: the empty object, and one
    sub-object with a mesh per triangle set. *)
Lemma add_model_Ok `{Pyquake} am pal mdl_name obj_name frames skin_idx final_time mdls_cfg
    static fps (st st' : bpy_data) bm :
  add_model am pal mdl_name obj_name frames skin_idx final_time mdls_cfg static fps st
  = Ok (bm, st') →
  ∃ mdl_cfg,
    _get_model_config mdl_name mdls_cfg = Ok mdl_cfg
    ∧ length pal = 256
    ∧ BlendMdl.am bm = am
    ∧ BlendMdl.obj bm = length (objects st)
    ∧ (∃ new_objects,
         objects st'
         = objects st ++ {| bpy.object_name := obj_name; bpy.data := None;
                            bpy.parent := None |} :: new_objects
         ∧ length new_objects = length (mdl.disjoint_tri_sets am))
    ∧ (∃ new_meshes, meshes st' = meshes st ++ new_meshes
                     ∧ length new_meshes = length (mdl.disjoint_tri_sets am))
    ∧ scene_objects st'
      = scene_objects st
        ++ seq (length (objects st)) (S (length (mdl.disjoint_tri_sets am)))
    ∧ mdl.disjoint_tri_sets am ≠ []
    ∧ (∀ j tri_set, mdl.disjoint_tri_sets am !! j = Some tri_set →
         ∃ blocks,
           tri_set_built am mdl_name obj_name frames skin_idx final_time mdl_cfg static fps
             (length (objects st)) j tri_set (length (objects st) + 1 + j)
             (length (meshes st) + j) st' blocks
           ∧ (S j = length (mdl.disjoint_tri_sets am) → BlendMdl.blocks bm = blocks))
    ∧ (∀ k x, materials st !! k = Some x → materials st' !! k = Some x)
    ∧ (∀ v, mdl_cfg !! "sample_as_light" = Some v →
         (∀ j, j < length (mdl.disjoint_tri_sets am) →
            is_Some (materials st !! material_name mdl_name obj_name skin_idx j v)) →
         materials st' = materials st).
Proof.
  unfold add_model.
  intros (mdl_cfg & st0 & [Hcfg ->]%lift_Ok & Hrest)%M_bind_Ok.
  apply M_bind_Ok in Hrest as (pal' & st0 & [Hpal ->]%lift_Ok & Hrest).
  apply M_bind_Ok in Hrest as (obj & st1 & [= <- <-] & Hrest).
  apply M_bind_Ok in Hrest as ([] & st2 & [= <-] & Hrest).
  apply M_bind_Ok in Hrest as ([blocks lights] & st3 & Hloop & Hrest).
  change (enumerate ?l) with (imap (λ j x, (0 + j, x)) l) in Hloop.
  apply add_tri_sets_Ok in Hloop
    as ((new_objects & Ho & Hlo) & (new_meshes & Hm & Hlm) & Hsc & Hbuilt & Hnil
        & Hmono & Hsame).
  cbn [objects meshes scene_objects materials] in *.
  destruct blocks as [blocks|]; [|done]. injection Hrest as <- <-.
  exists mdl_cfg. split; [done|]. split.
  { destruct (decide (length pal = 256)) as [?|Hne]; [done|].
    by rewrite add_alpha_Raise in Hpal. }
  split; [done|]. split; [done|]. split.
  { exists new_objects. by rewrite Ho, <-app_assoc. }
  split; [by exists new_meshes|]. split.
  { rewrite Hsc, length_app, <-app_assoc. simpl. by rewrite Nat.add_1_r. }
  split.
  { intros Hempty. by specialize (Hnil Hempty). }
  split; [|split; [done|]].
  - intros j tri_set Hj. destruct (Hbuilt j tri_set Hj) as (blocks' & Hb & Hlast).
    exists blocks'. rewrite length_app in Hb. simpl in Hb. split; [done|].
    intros Hlen. specialize (Hlast Hlen). simpl in Hlast. by injection Hlast.
  - intros v Hv Hall. by apply (Hsame v).
Qed.

Lemma tri_set_pydata_Ok (am : mdl.AliasModel) tri_set verts edges faces vert_map :
  tri_set_pydata am tri_set = Ok ((verts, edges, faces), vert_map) →
  ∃ verts0 tris,
    initial_verts am = Ok verts0
    ∧ Forall2 (λ t tri, py_index (mdl.tris am) t = Ok tri) tri_set tris
    ∧ edges = []
    ∧ Forall2 (λ old v, py_index verts0 old = Ok v) vert_map verts
    ∧ Forall2 (renames vert_map) tris faces.
Proof.
  unfold tri_set_pydata. intros (verts0 & Hv0 & Hrest)%bind_Ok.
  apply bind_Ok in Hrest as (tris & Htris%traverse_Ok & Hsimp).
  apply simplify_pydata_Ok in Hsimp as (nv & nt & [= -> -> ->] & _ & Hnv & Hnt).
  by exists verts0, tris.
Qed.



(** ** Shape keys of a non-static model *)

Lemma apply_op_name_data (op : key_op) (k : bpy.ShapeKey) :
  bpy.key_name (apply_op op k) = bpy.key_name k
  ∧ bpy.key_data (apply_op op k) = bpy.key_data k.
Proof. by destruct op. Qed.

Lemma animate_block_name_data `{Pyquake} fps mesh entries (r : block_ref)
    (k : bpy.ShapeKey) :
  bpy.key_name (animate_block fps mesh entries r k) = bpy.key_name k
  ∧ bpy.key_data (animate_block fps mesh entries r k) = bpy.key_data k.
Proof.
  unfold animate_block, run_ops.
  assert (∀ ops k0, bpy.key_name (foldl (λ k op, apply_op op k) k0 ops) = bpy.key_name k0
                    ∧ bpy.key_data (foldl (λ k op, apply_op op k) k0 ops) = bpy.key_data k0)
    as Hfold.
  { intros ops. induction ops as [|op ops IH]; intros k0; [done|].
    simpl. destruct (IH (apply_op op k0)) as [-> ->]. apply apply_op_name_data. }
  destruct entries; [apply Hfold|]. case_decide; [|apply Hfold]. apply Hfold.
Qed.

Lemma animate_ops_blocks (fps : Q) (r : block_ref) prev (entries : list (Q * block_ref)) :
  (∀ e, prev = Some e → e.2 ≠ r) → Forall (λ e, e.2 ≠ r) entries →
  Forall (λ op, op.1 ≠ r) (animate_ops fps prev entries).
Proof.
  intros Hprev Hall. revert prev Hprev.
  induction Hall as [|e entries He _ IH]; intros prev Hprev; [constructor|].
  cbn [animate_ops]. apply Forall_app. split.
  - unfold step_ops. destruct prev as [[pt pb]|].
    + specialize (Hprev _ eq_refl). simpl in Hprev. repeat constructor; done.
    + repeat constructor; done.
  - apply IH. by intros ? [= <-].
Qed.

Lemma ops_on_none (r : block_ref) (ops : list (block_ref * key_op)) :
  Forall (λ op, op.1 ≠ r) ops → ops_on r ops = [].
Proof.
  intros Hall. unfold ops_on. induction Hall as [|op ops Hop _ IH]; [done|].
  by rewrite filter_cons_False.
Qed.

(** A block that had no keyframes has some after [_animate] exactly
    when an entry refers to it. *)
Lemma animate_block_keyframes `{Pyquake} fps mesh entries (r : block_ref)
    (k : bpy.ShapeKey) :
  bpy.keyframes k = [] →
  bpy.keyframes (animate_block fps mesh entries r k) ≠ [] ↔ ∃ e, e ∈ entries ∧ e.2 = r.
Proof.
  intros Hk. split.
  - intros Hne. destruct (decide (Forall (λ e : Q * block_ref, e.2 ≠ r) entries))
      as [Hall|Hex].
    + exfalso. apply Hne. unfold animate_block, run_ops.
      rewrite ops_on_none by (by apply animate_ops_blocks).
      simpl. destruct entries; [done|]. case_decide; [|done]. simpl. by rewrite Hk.
    + apply not_Forall_Exists, Exists_exists in Hex as (e & Hin & He); [|apply _].
      exists e. split; [done|]. by apply dec_stable.
  - intros (e & (i & Hi)%list_elem_of_lookup_1 & <-).
    destruct (animate_ops_lookup fps None entries i e Hi) as (pre & post & Heq).
    destruct (animate_block_inserted fps mesh entries pre
                (match match i with 0 => None | S j => entries !! j end with
                 | Some (prev_time, prev_block) =>
                     [(e.2, SetValue 0); (e.2, InsertKeyframe (key_frame fps prev_time));
                      (prev_block, SetValue 0);
                      (prev_block, InsertKeyframe (key_frame fps e.1))]
                 | None => []
                 end ++ post) e.2 1 (key_frame fps e.1) k)
      as (p & Hp & _).
    { rewrite Heq. unfold step_ops. by rewrite <-!app_assoc. }
    intros Hnil. rewrite Hnil in Hp. by apply elem_of_nil in Hp.
Qed.

Lemma frame_key_Ok (verts : list vert) (vert_map : list Z) (frame : mdl.Frame)
    (k : bpy.ShapeKey) :
  length vert_map = length verts →
  frame_key verts vert_map frame = Ok k →
  ∃ simple_frame,
    frame = mdl.Single simple_frame
    ∧ bpy.key_name k = mdl.name simple_frame
    ∧ Forall2 (λ old co, py_index (mdl.frame_verts simple_frame) old = Ok co)
        vert_map (bpy.key_data k)
    ∧ bpy.keyframes k = [].
Proof.
  intros Hlen. unfold frame_key. case_decide; [done|].
  destruct frame as [simple_frame|]; [|done]. simpl. unfold block_key.
  intros (cos & Hcos%traverse_Ok & [= <-])%bind_Ok.
  exists simple_frame. split; [done|]. split; [done|]. split; [|done]. simpl.
  rewrite <-Hlen, firstn_all in Hcos.
  rewrite assign_zip_id; [done|].
  rewrite <-Hlen. symmetry. by eapply Forall2_length.
Qed.

Lemma animated_keys_Ok `{Pyquake} mesh fps keys0 frames blocks keys :
  animated_keys mesh fps keys0 frames = Ok (blocks, keys) →
  ∃ entries,
    blocks = extend_blocks mesh 0 (length keys0) ∅
    ∧ resolved blocks frames entries
    ∧ keys = imap (λ k, animate_block fps mesh entries (mesh, k)) keys0.
Proof.
  unfold animated_keys. intros (entries & Hres%resolve_Ok & [= <- <-])%bind_Ok.
  by exists entries.
Qed.

Lemma tri_set_keys_animated_Ok `{Pyquake} am mesh verts vert_map frames final_time fps
    blocks keys :
  tri_set_keys am mesh verts vert_map frames final_time false fps = Ok (blocks, keys) →
  ∃ keys0 entries,
    Forall2 (λ frame k, frame_key verts vert_map frame = Ok k) (mdl.frames am) keys0
    ∧ blocks = extend_blocks mesh 0 (length keys0) ∅
    ∧ resolved blocks frames entries
    ∧ keys = imap (λ k, animate_block fps mesh entries (mesh, k)) keys0.
Proof.
  unfold tri_set_keys. simpl. intros (keys0 & Hk0%traverse_Ok & Hanim)%bind_Ok.
  apply animated_keys_Ok in Hanim as (entries & ? & ? & ?). by exists keys0, entries.
Qed.

(** C2, as amended: after a successful non-static [add_model], the mesh
    of every sub-object has exactly one shape-key block per frame of
    the model, in the frames' order; the [k]-th block is named after
    the [k]-th frame and holds, for each entry of the mesh's vertex
    map, that vertex of the frame; the returned [blocks] maps each
    index in [range(len(am.frames))] to the block of that index on the
    last sub-object, and nothing else.  A block has keyframes exactly
    when the [frames] argument refers to its index. *)
Theorem add_model_block_per_frame `{Pyquake} (am : mdl.AliasModel) (pal : list (list Q))
    (mdl_name obj_name : string) (frames : list (Q * Z)) (skin_idx : Z) (final_time : Q)
    (mdls_cfg : gmap string (gmap string bpy.cfg_value)) (fps : Q)
    (st st' : bpy_data) (bm : BlendMdl.t) :
  add_model am pal mdl_name obj_name frames skin_idx final_time mdls_cfg false fps st
  = Ok (bm, st') →
  ∀ i tri_set, mdl.disjoint_tri_sets am !! i = Some tri_set →
    ∃ m pd vert_map,
      meshes st' !! (length (meshes st) + i) = Some m
      ∧ tri_set_pydata am tri_set = Ok (pd, vert_map)
      ∧ length (bpy.shape_keys m) = length (mdl.frames am)
      ∧ (∀ k frame, mdl.frames am !! k = Some frame →
           ∃ simple_frame key,
             frame = mdl.Single simple_frame
             ∧ bpy.shape_keys m !! k = Some key
             ∧ bpy.key_name key = mdl.name simple_frame
             ∧ Forall2 (λ old co, py_index (mdl.frame_verts simple_frame) old = Ok co)
                 vert_map (bpy.key_data key)
             ∧ (bpy.keyframes key ≠ [] ↔ ∃ time, (time, Z.of_nat k) ∈ frames))
      ∧ (S i = length (mdl.disjoint_tri_sets am) →
         ∀ z, BlendMdl.blocks bm !! z
              = if decide (0 ≤ z < Z.of_nat (length (mdl.frames am)))%Z
                then Some (length (meshes st) + i, Z.to_nat z) else None).
Proof.
  intros (mdl_cfg & _ & _ & _ & _ & _ & _ & _ & _ & Hbuilt & _)%add_model_Ok.
  intros i tri_set Hi. destruct (Hbuilt i tri_set Hi) as (blocks & Hb & Hlast).
  destruct Hb as (verts & edges & faces & vert_map & keys & v & uv & Hpd & Hkeys & _ & _
                  & _ & Hm & _).
  pose proof Hpd as Hpd'.
  apply tri_set_pydata_Ok in Hpd' as (verts0 & tris & _ & _ & _ & Hverts & _).
  apply Forall2_length in Hverts as Hlen.
  apply tri_set_keys_animated_Ok in Hkeys as (keys0 & entries & Hk0 & Hblocks & Hres & ->).
  apply Forall2_length in Hk0 as Hlen0.
  eexists _, _, vert_map. split; [exact Hm|]. split; [exact Hpd|].
  cbn [sub_mesh bpy.shape_keys]. split; [by rewrite length_imap|]. split.
  - intros k frame Hk.
    destruct (Forall2_lookup_l _ _ _ _ _ Hk0 Hk) as (k0 & Hk0' & Hfk).
    apply frame_key_Ok in Hfk as (simple_frame & -> & Hname & Hdata & Hkf); [|done].
    exists simple_frame, (animate_block fps (length (meshes st) + i) entries
                            (length (meshes st) + i, k) k0).
    split; [done|]. split; [by rewrite list_lookup_imap, Hk0'|].
    destruct (animate_block_name_data fps (length (meshes st) + i) entries
                (length (meshes st) + i, k) k0) as [-> ->].
    split; [done|]. split; [done|].
    rewrite animate_block_keyframes by done.
    assert (k < length keys0) as Hklt by (by eapply lookup_lt_Some).
    split.
    + intros ([t b] & (j & Hj)%list_elem_of_lookup_1 & Hb). simpl in Hb. subst b.
      destruct (Forall2_lookup_r _ _ _ _ _ Hres Hj) as ([t' fn] & Hfr & Ht & Hfn).
      simpl in Ht, Hfn. subst t'. rewrite Hblocks, extend_blocks_lookup in Hfn.
      case_decide as Hrange; [|done]. injection Hfn as Hfn.
      exists t. apply list_elem_of_lookup_2 in Hfr.
      replace (Z.of_nat k) with fn by lia. done.
    + intros (t & (j & Hj)%list_elem_of_lookup_1).
      destruct (Forall2_lookup_l _ _ _ _ _ Hres Hj) as ([t' b] & He & Ht & Hb).
      simpl in Ht, Hb. subst t'. rewrite Hblocks, extend_blocks_lookup in Hb.
      rewrite decide_True in Hb by lia. injection Hb as <-.
      exists (t, (length (meshes st) + i, Z.to_nat (Z.of_nat k))).
      split; [by eapply list_elem_of_lookup_2|]. simpl. by rewrite Nat2Z.id.
  - intros Hlen' z. rewrite (Hlast Hlen'), Hblocks, extend_blocks_lookup, <-Hlen0.
    simpl. by rewrite lookup_empty.
Qed.

Lemma add_model_block_per_frame_witness :
  ∃ bm st' m,
    @add_model sample_pyquake two_pose_model sample_pal "square" "ent1"
      [(0, 0%Z); (1 # 10, 1%Z)]%Q 0 5 (sample_cfg false) false 30 empty_data = Ok (bm, st')
    ∧ meshes st' !! 0 = Some m
    ∧ length (bpy.shape_keys m) = 2.
Proof.
  destruct (returns_true
              (@add_model sample_pyquake two_pose_model sample_pal "square" "ent1"
                 [(0, 0%Z); (1 # 10, 1%Z)]%Q 0 5 (sample_cfg false) false 30 empty_data))
    as ([bm st'] & Hrun); [vm_compute; reflexivity|].
  destruct (add_model_block_per_frame _ _ _ _ _ _ _ _ _ _ _ _ Hrun 0 [0; 1]%Z eq_refl)
    as (m & pd & vert_map & Hm & _ & Hlen & _).
  exists bm, st', m. split; [exact Hrun|]. split; [exact Hm|exact Hlen].
Defined.

(** C2 as stated fails: a block whose frame the [frames] argument does
    not mention gets no keyframe.  The model has two frames, [frames]
    names the first only, the call succeeds, and the block of the second
    frame has an empty weight curve. *)
Lemma add_model_block_without_curve :
  ∃ bm st' m key,
    @add_model sample_pyquake two_pose_model sample_pal "square" "ent1"
      [(0, 0%Z)]%Q 0 5 (sample_cfg false) false 30 empty_data = Ok (bm, st')
    ∧ meshes st' !! 0 = Some m
    ∧ bpy.shape_keys m !! 1 = Some key
    ∧ bpy.key_name key = "stand2"
    ∧ bpy.keyframes key = [].
Proof.
  destruct (returns_true
              (@add_model sample_pyquake two_pose_model sample_pal "square" "ent1"
                 [(0, 0%Z)]%Q 0 5 (sample_cfg false) false 30 empty_data))
    as ([bm st'] & Hrun); [vm_compute; reflexivity|].
  assert ((λ key, (bpy.key_name key, bpy.keyframes key))
          <$> (final_store
                 (@add_model sample_pyquake two_pose_model sample_pal "square" "ent1"
                    [(0, 0%Z)]%Q 0 5 (sample_cfg false) false 30 empty_data)
               ≫= λ st, meshes st !! 0 ≫= λ m, bpy.shape_keys m !! 1)
          = Some ("stand2", [])) as Hkey by (vm_compute; reflexivity).
  rewrite Hrun in Hkey. cbn [final_store mbind option_bind] in Hkey.
  destruct (meshes st' !! 0) as [m|] eqn:Hm; [|discriminate Hkey].
  cbn [mbind option_bind] in Hkey.
  destruct (bpy.shape_keys m !! 1) as [key|] eqn:Hk; [|discriminate Hkey].
  injection Hkey as Hname Hkf. exists bm, st', m, key.
  split; [exact Hrun|]. split; [exact Hm|]. split; [exact Hk|].
  split; [exact Hname|exact Hkf].
Qed.



(** ** Materials across calls *)

Lemma material_name_plain (mdl_name obj_name : string) (skin_idx : Z) (i : nat)
    (v : bpy.cfg_value) :
  truthy v = false →
  material_name mdl_name obj_name skin_idx i v = mdl_name +:+ "_skin" +:+ pretty skin_idx.
Proof. unfold material_name. by intros ->. Qed.

(** C3, as amended: when [sample_as_light] is not set in the model's
    configuration, the meshes of all triangle sets of all calls of
    [add_model] with the same [mdl_name] and [skin_idx] share the
    material named [mdl_name ++ "_skin" ++ skin_idx]: after a first
    successful call the material exists, and a second call, whatever
    its model, object name, frames and other parameters, leaves the
    material collection as it is and gives every mesh it builds that
    material. *)
Theorem add_model_material_reused `{Pyquake} (am1 am2 : mdl.AliasModel)
    (pal1 pal2 : list (list Q)) (mdl_name obj_name1 obj_name2 : string)
    (frames1 frames2 : list (Q * Z)) (skin_idx : Z) (final_time1 final_time2 : Q)
    (mdls_cfg1 mdls_cfg2 : gmap string (gmap string bpy.cfg_value))
    (static1 static2 : bool) (fps1 fps2 : Q) (st0 st1 st2 : bpy_data)
    (bm1 bm2 : BlendMdl.t) :
  (∀ cfg v, _get_model_config mdl_name mdls_cfg1 = Ok cfg →
            cfg !! "sample_as_light" = Some v → truthy v = false) →
  (∀ cfg v, _get_model_config mdl_name mdls_cfg2 = Ok cfg →
            cfg !! "sample_as_light" = Some v → truthy v = false) →
  add_model am1 pal1 mdl_name obj_name1 frames1 skin_idx final_time1 mdls_cfg1 static1 fps1
    st0 = Ok (bm1, st1) →
  add_model am2 pal2 mdl_name obj_name2 frames2 skin_idx final_time2 mdls_cfg2 static2 fps2
    st1 = Ok (bm2, st2) →
  is_Some (materials st1 !! (mdl_name +:+ "_skin" +:+ pretty skin_idx))
  ∧ materials st2 = materials st1
  ∧ ∀ i, i < length (mdl.disjoint_tri_sets am2) →
      ∃ m, meshes st2 !! (length (meshes st1) + i) = Some m
        ∧ bpy.mesh_materials m = [mdl_name +:+ "_skin" +:+ pretty skin_idx].
Proof.
  intros Hplain1 Hplain2.
  intros (cfg1 & Hcfg1 & _ & _ & _ & _ & _ & _ & Hne1 & Hbuilt1 & _)%add_model_Ok.
  intros (cfg2 & Hcfg2 & _ & _ & _ & _ & _ & _ & Hne2 & Hbuilt2 & _ & Hsame2)%add_model_Ok.
  assert (is_Some (materials st1 !! (mdl_name +:+ "_skin" +:+ pretty skin_idx))) as Hin.
  { destruct (mdl.disjoint_tri_sets am1) as [|tri_set ?] eqn:Hsets; [done|].
    destruct (Hbuilt1 0 tri_set eq_refl) as (blocks & Hb & _).
    destruct Hb as (? & ? & ? & ? & ? & v & ? & _ & _ & Hv & _ & _ & _ & Hmat).
    by rewrite material_name_plain in Hmat by (by eapply Hplain1). }
  split; [done|]. split.
  - destruct (mdl.disjoint_tri_sets am2) as [|tri_set ?] eqn:Hsets; [done|].
    destruct (Hbuilt2 0 tri_set eq_refl) as (blocks & Hb & _).
    destruct Hb as (? & ? & ? & ? & ? & v & ? & _ & _ & Hv & _).
    apply (Hsame2 v Hv). intros j _.
    by rewrite material_name_plain by (by eapply Hplain2).
  - intros i Hi. destruct (lookup_lt_is_Some_2 _ _ Hi) as [tri_set Hset].
    destruct (Hbuilt2 i tri_set Hset) as (blocks & Hb & _).
    destruct Hb as (? & ? & ? & ? & ? & v & ? & _ & _ & Hv & _ & _ & Hm & _).
    eexists. split; [exact Hm|]. simpl.
    by rewrite material_name_plain by (by eapply Hplain2).
Qed.

Lemma sample_cfg_plain (mdl_name : string) cfg v :
  _get_model_config mdl_name (sample_cfg false) = Ok cfg →
  cfg !! "sample_as_light" = Some v → truthy v = false.
Proof.
  unfold _get_model_config, sample_cfg, dict_get.
  rewrite lookup_singleton_eq. simpl. intros [= <-].
  destruct (decide (mdl_name = "__default__")) as [->|Hne].
  - rewrite lookup_singleton_eq. simpl. rewrite map_union_idemp.
    rewrite lookup_insert_eq. by intros [= <-].
  - rewrite lookup_singleton_ne by done. simpl. rewrite map_empty_union.
    rewrite lookup_insert_eq. by intros [= <-].
Qed.

Lemma add_model_material_reused_witness :
  ∃ bm1 st1 bm2 st2,
    @add_model sample_pyquake two_pose_model sample_pal "square" "ent1"
      [(0, 0%Z)]%Q 0 5 (sample_cfg false) false 30 empty_data = Ok (bm1, st1)
    ∧ @add_model sample_pyquake flame_model sample_pal "square" "ent2"
        [(0, 0%Z)]%Q 0 (5 # 10) (sample_cfg false) true 30 st1 = Ok (bm2, st2)
    ∧ materials st2 = materials st1.
Proof.
  assert (two_plain_calls = true) as Hcalls by (vm_compute; reflexivity).
  unfold two_plain_calls in Hcalls.
  destruct (@add_model sample_pyquake two_pose_model sample_pal "square" "ent1"
              [(0, 0%Z)]%Q 0 5 (sample_cfg false) false 30 empty_data)
    as [[bm1 st1]|e] eqn:Hrun1; [|discriminate Hcalls].
  destruct (returns_true _ Hcalls) as ([bm2 st2] & Hrun2).
  exists bm1, st1, bm2, st2. split; [reflexivity|]. split; [exact Hrun2|].
  exact (proj1 (proj2 (add_model_material_reused _ _ _ _ _ _ _ _ _ _ _ _ _ _ _ _ _ _ _
                         _ _ _ _ (sample_cfg_plain "square") (sample_cfg_plain "square")
                         Hrun1 Hrun2))).
Defined.

(** C3 as stated fails: with [sample_as_light] set in the configuration,
    the material's name includes the object name and the index of the
    triangle set.  Two calls for the same model and skin with different
    object names each create a material of their own, and none named
    ["square_skin0"] exists. *)
Lemma add_model_material_not_shared :
  ∃ bm1 st1 bm2 st2,
    @add_model sample_pyquake two_pose_model sample_pal "square" "ent1"
      [(0, 0%Z)]%Q 0 5 (sample_cfg true) false 30 empty_data = Ok (bm1, st1)
    ∧ @add_model sample_pyquake two_pose_model sample_pal "square" "ent2"
        [(0, 0%Z)]%Q 0 5 (sample_cfg true) false 30 st1 = Ok (bm2, st2)
    ∧ dom (materials st1) = {[ "square_skin0_ent1_triset0_fullbright" ]}
    ∧ dom (materials st2) = {[ "square_skin0_ent1_triset0_fullbright";
                               "square_skin0_ent2_triset0_fullbright" ]}.
Proof.
  assert (two_sampled_calls = true) as Hcalls by (vm_compute; reflexivity).
  unfold two_sampled_calls in Hcalls.
  destruct (@add_model sample_pyquake two_pose_model sample_pal "square" "ent1"
              [(0, 0%Z)]%Q 0 5 (sample_cfg true) false 30 empty_data)
    as [[bm1 st1]|e] eqn:Hrun1; [|discriminate Hcalls].
  destruct (@add_model sample_pyquake two_pose_model sample_pal "square" "ent2"
              [(0, 0%Z)]%Q 0 5 (sample_cfg true) false 30 st1)
    as [[bm2 st2]|e] eqn:Hrun2; [|discriminate Hcalls].
  apply andb_prop in Hcalls as [H1 H2].
  apply Is_true_true, bool_decide_unpack in H1.
  apply Is_true_true, bool_decide_unpack in H2.
  exists bm1, st1, bm2, st2.
  split; [reflexivity|]. split; [exact Hrun2|]. split; [exact H1|exact H2].
Qed.

(** ** The exceptions of [add_model] *)

Lemma builtin_check_raised (am : mdl.AliasModel) frames static (e : exn) :
  builtin e → check_raised am frames static e.
Proof. by destruct e. Qed.

Lemma py_index_builtin {A} (l : list A) (i : Z) (e : exn) :
  py_index l i = Raise e → builtin e.
Proof. by intros [-> _]%py_index_Raise. Qed.

Lemma traverse_builtin {A B} (f : A → result B) (l : list A) (e : exn) :
  (∀ x e, f x = Raise e → builtin e) → traverse f l = Raise e → builtin e.
Proof. intros Hf (x & _ & Hx)%traverse_Raise. by eapply Hf. Qed.

Lemma tri_set_pydata_Raise (am : mdl.AliasModel) (tri_set : list Z) (e : exn) :
  tri_set_pydata am tri_set = Raise e → builtin e.
Proof.
  unfold tri_set_pydata. intros [Hr|(verts & _ & Hr)]%bind_Raise.
  - unfold initial_verts in Hr.
    apply bind_Raise in Hr as [Hr|(frame0 & _ & Hr)]; [by eapply py_index_builtin|].
    case_decide.
    + destruct frame0; simpl in Hr; [done|]. by injection Hr as <-.
    + apply bind_Raise in Hr as [Hr|(fs & _ & Hr)].
      * destruct frame0; simpl in Hr; [|done]. by injection Hr as <-.
      * destruct (py_index fs 0) eqn:Hfs; simpl in Hr; [done|].
        injection Hr as <-. by eapply py_index_builtin.
  - apply bind_Raise in Hr as [Hr|(tris & _ & Hr)].
    + eapply traverse_builtin; [|exact Hr]. intros ? ?. apply py_index_builtin.
    + by apply simplify_pydata_Raise in Hr as ->.
Qed.

Lemma block_key_Raise (verts : list vert) (vert_map : list Z) simple_frame (e : exn) :
  block_key verts vert_map simple_frame = Raise e → builtin e.
Proof.
  unfold block_key. intros [Hr|(? & _ & [=])]%bind_Raise.
  eapply traverse_builtin; [|exact Hr]. intros ? ?. apply py_index_builtin.
Qed.

Lemma loop_frames_Raise (final_time : Q) (times : list Q) (n : nat) (e : exn) :
  loop_frames final_time times n = Raise e → builtin e.
Proof.
  unfold loop_frames. intros [Hr|(last & _ & Hr)]%bind_Raise.
  { by eapply py_index_builtin. }
  apply bind_Raise in Hr as [Hr|(num_loops & _ & Hr)].
  { repeat case_match; by simplify_eq. }
  repeat case_match; simplify_eq/=; try done.
  all: apply bind_Raise in Hr as [Hr|(? & _ & [=])]; by simplify_eq.
Qed.

Lemma animated_keys_Raise `{Pyquake} mesh fps keys frames (e : exn) :
  animated_keys mesh fps keys frames = Raise e → builtin e.
Proof.
  unfold animated_keys. intros [Hr|(? & _ & [=])]%bind_Raise.
  by apply resolve_Raise in Hr as [-> _].
Qed.

Lemma tri_set_keys_Raise `{Pyquake} am mesh verts vert_map frames final_time static fps
    (e : exn) :
  tri_set_keys am mesh verts vert_map frames final_time static fps = Raise e →
  check_raised am frames static e.
Proof.
  unfold tri_set_keys. destruct static; simpl.
  - case_decide as Hlen.
    { by intros [= <-]. }
    intros [Hr|(frame0 & Hf0 & Hr)]%bind_Raise.
    { by eapply builtin_check_raised, py_index_builtin. }
    apply bind_Raise in Hr as [Hr|(group_frame & Hgf & Hr)].
    { by eapply builtin_check_raised, py_index_builtin. }
    case_decide as Htype.
    { injection Hr as <-. simpl. split; [done|]. split; [done|].
      destruct frames as [|[time fn] [|? ?]]; simpl in *; try done.
      injection Hf0 as <-. by exists time, fn, group_frame. }
    apply bind_Raise in Hr as [Hr|(group_frames & _ & Hr)].
    { apply builtin_check_raised. destruct group_frame; simpl in Hr; by simplify_eq. }
    apply bind_Raise in Hr as [Hr|(keys & _ & Hr)].
    { eapply builtin_check_raised, traverse_builtin; [|exact Hr].
      intros ? ?. apply block_key_Raise. }
    apply bind_Raise in Hr as [Hr|(times & _ & Hr)].
    { apply builtin_check_raised. destruct group_frame; simpl in Hr; by simplify_eq. }
    apply bind_Raise in Hr as [Hr|(lf & _ & Hr)].
    { by eapply builtin_check_raised, loop_frames_Raise. }
    by eapply builtin_check_raised, animated_keys_Raise.
  - intros [Hr|(keys & _ & Hr)]%bind_Raise.
    + apply traverse_Raise in Hr as (frame & Hin & Hr). unfold frame_key in Hr.
      case_decide as Htype.
      * injection Hr as <-. simpl. split; [done|]. split; [done|]. by exists frame.
      * apply builtin_check_raised.
        apply bind_Raise in Hr as [Hr|(sf & _ & Hr)].
        -- destruct frame; simpl in Hr; by simplify_eq.
        -- by eapply block_key_Raise.
    + by eapply builtin_check_raised, animated_keys_Raise.
Qed.

Lemma set_face_uvs_Raise (am : mdl.AliasModel) (its : list (nat * Z)) :
  ∀ uv_layer e, for_in its (set_face_uvs am) uv_layer = Raise e → builtin e.
Proof.
  induction its as [|[face tri_idx] its IH]; intros uv_layer e; simpl; [done|].
  intros [Hr|(uv' & _ & Hr)]%bind_Raise; [|by eapply IH].
  unfold set_face_uvs in Hr.
  apply bind_Raise in Hr as [Hr|(? & _ & [=])].
  unfold mdl.lookup_result in Hr. destruct (mdl.get_tri_tcs am tri_idx); by simplify_eq.
Qed.

Lemma set_uvs_Raise `{Pyquake} mesh am tri_set (st : bpy_data) (e : exn) :
  _set_uvs mesh am tri_set st = Raise e → builtin e.
Proof.
  unfold _set_uvs.
  intros [[=]|([] & st1 & _ & Hr)]%M_bind_Raise.
  apply M_bind_Raise in Hr as [Hr|(m & st2 & _ & Hr)].
  { unfold get_mesh in Hr. destruct (meshes st1 !! mesh); by simplify_eq. }
  apply M_bind_Raise in Hr as [Hr|(uv & st3 & _ & Hr)].
  { by eapply py_index_builtin, lift_Raise. }
  apply M_bind_Raise in Hr as [Hr|(uv' & st4 & _ & [=])].
  by eapply set_face_uvs_Raise, lift_Raise.
Qed.

(** An iteration of the loop over the triangle sets raises one of
    [add_model]'s own exceptions only when its check fails. *)
Lemma add_tri_set_Raise `{Pyquake} am pal mdl_name obj_name frames skin_idx final_time
    mdl_cfg static fps obj s it (st : bpy_data) (e : exn) :
  add_tri_set am pal mdl_name obj_name frames skin_idx final_time mdl_cfg static fps obj
    s it st = Raise e →
  check_raised am frames static e.
Proof.
  destruct it as [tri_set_idx tri_set]. rewrite add_tri_set_eq.
  destruct (tri_set_pydata am tri_set) as [[[[verts edges] faces] vert_map]|e0] eqn:Hpd.
  2: { intros [= ->]. by eapply builtin_check_raised, tri_set_pydata_Raise. }
  destruct (tri_set_keys _ _ _ _ _ _ _ _) as [[blocks keys]|e0] eqn:Hkeys.
  2: { intros [= ->]. by eapply tri_set_keys_Raise. }
  intros Hr. apply builtin_check_raised.
  apply M_bind_Raise in Hr as [Hr|([mat lights] & st1 & _ & Hr)].
  { by apply tri_set_material_Raise in Hr as [->| ->]. }
  apply M_bind_Raise in Hr as [[=]|([] & st2 & _ & Hr)].
  apply M_bind_Raise in Hr as [Hr|([] & st3 & _ & [=])].
  by eapply set_uvs_Raise.
Qed.

Lemma add_tri_sets_Raise `{Pyquake} am pal mdl_name obj_name frames skin_idx final_time
    mdl_cfg static fps obj (its : list (nat * list Z)) :
  ∀ s (st : bpy_data) (e : exn),
    for_inM its
      (add_tri_set am pal mdl_name obj_name frames skin_idx final_time mdl_cfg static fps
         obj) s st = Raise e →
    check_raised am frames static e.
Proof.
  induction its as [|it its IH]; intros s st e; simpl; [done|].
  intros [Hr|(s1 & st1 & _ & Hr)]%M_bind_Raise.
  - by eapply add_tri_set_Raise.
  - by eapply IH.
Qed.

(** The first iteration decides: when the shape keys of the first
    triangle set cannot be built, the call raises what building them
    raises. *)
Lemma add_model_first_Raise `{Pyquake} am pal mdl_name obj_name frames skin_idx final_time
    mdls_cfg static fps (st : bpy_data) tri_set rest verts edges faces vert_map (e : exn) :
  is_Some (mdls_cfg !! "__default__") →
  length pal = 256 →
  mdl.disjoint_tri_sets am = tri_set :: rest →
  tri_set_pydata am tri_set = Ok ((verts, edges, faces), vert_map) →
  tri_set_keys am (length (meshes st)) verts vert_map frames final_time static fps = Raise e →
  add_model am pal mdl_name obj_name frames skin_idx final_time mdls_cfg static fps st
  = Raise e.
Proof.
  intros [cfg Hcfg] Hpal Hsets Hpd Hkeys. unfold add_model.
  apply M_bind_Raise. right. eexists _, st. split.
  { apply lift_Ok. split; [|done]. unfold _get_model_config, dict_get.
    by rewrite Hcfg. }
  apply M_bind_Raise. right. eexists _, st. split.
  { apply lift_Ok. split; [|done]. by apply add_alpha_Ok. }
  apply M_bind_Raise. right. eexists _, _. split; [done|].
  apply M_bind_Raise. right. eexists _, _. split; [done|].
  apply M_bind_Raise. left. rewrite Hsets. unfold enumerate. rewrite imap_cons.
  cbn [for_inM]. apply M_bind_Raise. left.
  rewrite add_tri_set_eq, Hpd. cbn [meshes]. by rewrite Hkeys.
Qed.

Lemma traverse_first_Raise {A B} (f : A → result B) (pre : list A) (x : A) (post : list A)
    (e : exn) :
  (∀ y, y ∈ pre → is_Ok (f y)) → f x = Raise e →
  traverse f (pre ++ x :: post) = Raise e.
Proof.
  intros Hpre Hx. induction pre as [|y pre IH]; simpl.
  - by rewrite traverse_cons, Hx.
  - rewrite traverse_cons. destruct (Hpre y) as [z ->]; [by left|]. simpl.
    rewrite IH; [done|]. intros y' Hy'. apply Hpre. by right.
Qed.

Lemma block_key_total (verts : list vert) (vert_map : list Z) simple_frame :
  (∀ old, old ∈ vert_map → is_Ok (py_index (mdl.frame_verts simple_frame) old)) →
  is_Ok (block_key verts vert_map simple_frame).
Proof.
  intros Hall. unfold block_key.
  destruct (traverse_total (py_index (mdl.frame_verts simple_frame))
              (take (length verts) vert_map)) as [cos ->].
  { intros old Hold. apply Hall. by eapply subseteq_take. }
  by eexists.
Qed.

Lemma resolve_missing (blocks : gmap Z block_ref) (frames : list (Q * Z)) :
  (∃ fr, fr ∈ frames ∧ blocks !! fr.2 = None) →
  traverse (λ fr : Q * Z, b ← dict_get blocks fr.2; Ok (fr.1, b)) frames = Raise KeyError.
Proof.
  intros (fr & Hin & Hnone).
  destruct (traverse _ frames) as [entries|e] eqn:Hres.
  - apply resolve_Ok in Hres. apply list_elem_of_lookup_1 in Hin as [i Hi].
    destruct (Forall2_lookup_l _ _ _ _ _ Hres Hi) as (en & _ & _ & Hb). congruence.
  - by apply resolve_Raise in Hres as [-> _].
Qed.

(** X1: [add_model] raises one of its own two exceptions only when the
    check that guards it fails.  A frame-type exception of a non-static
    call names the type of a frame of the model that is not SINGLE; one
    of a static call names the type of the frame that the single entry
    of [frames] selects, which is not GROUP; a frame-count exception
    comes from a static call whose [frames] does not have exactly one
    entry, and carries their number. *)
Theorem add_model_checks_sound `{Pyquake} (am : mdl.AliasModel) (pal : list (list Q))
    (mdl_name obj_name : string) (frames : list (Q * Z)) (skin_idx : Z) (final_time : Q)
    (mdls_cfg : gmap string (gmap string bpy.cfg_value)) (static : bool) (fps : Q)
    (st : bpy_data) (e : exn) :
  add_model am pal mdl_name obj_name frames skin_idx final_time mdls_cfg static fps st
  = Raise e →
  match e with
  | FrameTypeNotSupported ft b =>
      b = static
      ∧ if static
        then ft ≠ GROUP
             ∧ ∃ time frame_num frame,
                 frames = [(time, frame_num)]
                 ∧ py_index (mdl.frames am) frame_num = Ok frame
                 ∧ mdl.frame_type frame = ft
        else ft ≠ SINGLE ∧ ∃ frame, frame ∈ mdl.frames am ∧ mdl.frame_type frame = ft
  | StaticFrameCount n => static = true ∧ n = length frames ∧ n ≠ 1
  | _ => True
  end.
Proof.
  change (add_model am pal mdl_name obj_name frames skin_idx final_time mdls_cfg static fps
            st = Raise e → check_raised am frames static e).
  unfold add_model.
  intros [Hr|(mdl_cfg & st0 & _ & Hr)]%M_bind_Raise.
  { apply lift_Raise in Hr. unfold _get_model_config in Hr.
    apply bind_Raise in Hr as [Hr|(? & _ & [=])].
    apply dict_get_Raise in Hr as [_ ->]. done. }
  apply M_bind_Raise in Hr as [Hr|(pal' & st1 & _ & Hr)].
  { apply lift_Raise in Hr. destruct (decide (length pal = 256)) as [Hlen|Hlen].
    - by rewrite add_alpha_Ok in Hr.
    - rewrite add_alpha_Raise in Hr by done. by injection Hr as <-. }
  apply M_bind_Raise in Hr as [[=]|(obj & st2 & _ & Hr)].
  apply M_bind_Raise in Hr as [[=]|([] & st3 & _ & Hr)].
  apply M_bind_Raise in Hr as [Hr|([blocks lights] & st4 & _ & Hr)].
  { by eapply add_tri_sets_Raise. }
  destruct blocks; [done|]. by injection Hr as <-.
Qed.

Lemma add_model_checks_sound_witness :
  @add_model sample_pyquake two_pose_model sample_pal "square" "ent1"
    [(0, 1%Z)]%Q 0 5 (sample_cfg false) true 30 empty_data
  = Raise (FrameTypeNotSupported SINGLE true)
  ∧ true = true
  ∧ SINGLE ≠ GROUP
  ∧ ∃ time frame_num frame,
      [(0, 1%Z)]%Q = [(time, frame_num)]
      ∧ py_index (mdl.frames two_pose_model) frame_num = Ok frame
      ∧ mdl.frame_type frame = SINGLE.
Proof.
  assert (@add_model sample_pyquake two_pose_model sample_pal "square" "ent1"
            [(0, 1%Z)]%Q 0 5 (sample_cfg false) true 30 empty_data
          = Raise (FrameTypeNotSupported SINGLE true)) as Hrun.
  { apply raised_Some. vm_compute. reflexivity. }
  split; [exact Hrun|].
  exact (add_model_checks_sound _ _ _ _ _ _ _ _ _ _ _ _ Hrun).
Defined.

(** X2: the checks of a static call.  When the configuration has a
    default entry, the palette has 256 rows and the mesh data of the
    model's first triangle set can be built, a static call whose
    [frames] does not have exactly one entry raises the frame-count
    exception with their number; with one entry [(time, frame_num)] it
    raises IndexError when [frame_num] is no index of the model's
    frames, and the frame-type exception when the frame it selects is
    not a GROUP. *)
Theorem add_model_static_checks `{Pyquake} (am : mdl.AliasModel) (pal : list (list Q))
    (mdl_name obj_name : string) (frames : list (Q * Z)) (skin_idx : Z) (final_time : Q)
    (mdls_cfg : gmap string (gmap string bpy.cfg_value)) (fps : Q) (st : bpy_data)
    (tri_set : list Z) (rest : list (list Z)) (pd : pydata vert) (vert_map : list Z) :
  is_Some (mdls_cfg !! "__default__") →
  length pal = 256 →
  mdl.disjoint_tri_sets am = tri_set :: rest →
  tri_set_pydata am tri_set = Ok (pd, vert_map) →
  (length frames ≠ 1 →
     add_model am pal mdl_name obj_name frames skin_idx final_time mdls_cfg true fps st
     = Raise (StaticFrameCount (length frames)))
  ∧ (∀ time frame_num,
       frames = [(time, frame_num)] →
       ¬ (- Z.of_nat (length (mdl.frames am)) ≤ frame_num
          < Z.of_nat (length (mdl.frames am)))%Z →
       add_model am pal mdl_name obj_name frames skin_idx final_time mdls_cfg true fps st
       = Raise IndexError)
  ∧ (∀ time frame_num frame,
       frames = [(time, frame_num)] →
       py_index (mdl.frames am) frame_num = Ok frame →
       mdl.frame_type frame ≠ GROUP →
       add_model am pal mdl_name obj_name frames skin_idx final_time mdls_cfg true fps st
       = Raise (FrameTypeNotSupported (mdl.frame_type frame) true)).
Proof.
  intros Hcfg Hpal Hsets Hpd. destruct pd as [[verts edges] faces].
  split; [|split].
  - intros Hlen. eapply add_model_first_Raise; [done..|].
    unfold tri_set_keys. simpl. by rewrite decide_True.
  - intros time frame_num -> Hrange. eapply add_model_first_Raise; [done..|].
    unfold tri_set_keys. simpl.
    destruct (py_index (mdl.frames am) frame_num) as [frame|e] eqn:Hidx.
    + apply py_index_Ok in Hidx as [[? ?%lookup_lt_Some]|(? & ? & ?%lookup_lt_Some)]; lia.
    + by apply py_index_Raise in Hidx as [-> _].
  - intros time frame_num frame -> Hidx Htype. eapply add_model_first_Raise; [done..|].
    unfold tri_set_keys. simpl. rewrite Hidx. simpl. by rewrite decide_True.
Qed.

Lemma add_model_static_checks_witness :
  @add_model sample_pyquake two_pose_model sample_pal "square" "ent1"
    [(0, 0%Z); (1, 1%Z)]%Q 0 5 (sample_cfg false) true 30 empty_data
  = Raise (StaticFrameCount 2).
Proof.
  destruct (returns_true (tri_set_pydata two_pose_model [0; 1]%Z))
    as ([pd vert_map] & Hpd); [vm_compute; reflexivity|].
  refine (proj1 (add_model_static_checks (H:=sample_pyquake) two_pose_model sample_pal
                   "square" "ent1" [(0, 0%Z); (1, 1%Z)]%Q 0 5 (sample_cfg false) 30
                   empty_data [0; 1]%Z [] pd vert_map _ _ eq_refl Hpd) _).
  - by eexists.
  - reflexivity.
  - simpl. lia.
Defined.

(** X3: the check of a non-static call.  When the configuration has a
    default entry, the palette has 256 rows, the mesh data of the first
    triangle set can be built and the frames before the first frame
    that is not SINGLE hold the vertices the mesh uses, a non-static
    call raises the frame-type exception for that frame. *)
Theorem add_model_non_static_check `{Pyquake} (am : mdl.AliasModel) (pal : list (list Q))
    (mdl_name obj_name : string) (frames : list (Q * Z)) (skin_idx : Z) (final_time : Q)
    (mdls_cfg : gmap string (gmap string bpy.cfg_value)) (fps : Q) (st : bpy_data)
    (tri_set : list Z) (rest : list (list Z)) (pd : pydata vert) (vert_map : list Z)
    (singles : list mdl.SimpleFrame) (frame : mdl.Frame) (later : list mdl.Frame) :
  is_Some (mdls_cfg !! "__default__") →
  length pal = 256 →
  mdl.disjoint_tri_sets am = tri_set :: rest →
  tri_set_pydata am tri_set = Ok (pd, vert_map) →
  mdl.frames am = (mdl.Single <$> singles) ++ frame :: later →
  (∀ simple_frame old, simple_frame ∈ singles → old ∈ vert_map →
     is_Ok (py_index (mdl.frame_verts simple_frame) old)) →
  mdl.frame_type frame ≠ SINGLE →
  add_model am pal mdl_name obj_name frames skin_idx final_time mdls_cfg false fps st
  = Raise (FrameTypeNotSupported (mdl.frame_type frame) false).
Proof.
  intros Hcfg Hpal Hsets Hpd Hframes Hverts Htype. destruct pd as [[verts edges] faces].
  eapply add_model_first_Raise; [done..|].
  unfold tri_set_keys. simpl. rewrite Hframes.
  rewrite (traverse_first_Raise _ _ _ _ (FrameTypeNotSupported (mdl.frame_type frame) false)).
  - done.
  - intros f (simple_frame & -> & Hin)%list_elem_of_fmap. unfold frame_key. simpl.
    apply block_key_total. intros old Hold. by apply Hverts.
  - unfold frame_key. by rewrite decide_True.
Qed.

Lemma add_model_non_static_check_witness :
  @add_model sample_pyquake mixed_model sample_pal "square" "ent1"
    [(0, 0%Z)]%Q 0 5 (sample_cfg false) false 30 empty_data
  = Raise (FrameTypeNotSupported GROUP false).
Proof.
  destruct (returns_true (tri_set_pydata mixed_model [0; 1]%Z))
    as ([pd vert_map] & Hpd); [vm_compute; reflexivity|].
  assert (vert_map = [0; 1; 2; 3]%Z) as Hmap.
  { assert (snd <$> tri_set_pydata mixed_model [0; 1]%Z = Ok [0; 1; 2; 3]%Z) as Hsnd
      by (vm_compute; reflexivity).
    rewrite Hpd in Hsnd. simpl in Hsnd. by injection Hsnd. }
  refine (add_model_non_static_check (H:=sample_pyquake) mixed_model sample_pal
            "square" "ent1" [(0, 0%Z)]%Q 0 5 (sample_cfg false) 30 empty_data
            [0; 1]%Z [] pd vert_map [sample_frame "stand1" 0]
            (mdl.Group [1 # 10; 2 # 10]%Q
               [sample_frame "flame1" 0; sample_frame "flame2" 1]) []
            _ _ eq_refl Hpd eq_refl _ _).
  - by eexists.
  - reflexivity.
  - intros simple_frame old ->%list_elem_of_singleton Hold. rewrite Hmap in Hold.
    apply py_index_in_range. unfold sample_frame. cbn [mdl.frame_verts length].
    rewrite !elem_of_cons, elem_of_nil in Hold. lia.
  - discriminate.
Defined.

(** X4: a model without triangle sets.  The loop over the triangle sets
    does not run, so that [blocks] is never assigned, and the return
    statement raises UnboundLocalError: with a default configuration and
    a palette of 256 rows, [add_model] raises it for every model whose
    [disjoint_tri_sets] is empty, whatever the other arguments. *)
Theorem add_model_no_tri_sets `{Pyquake} (am : mdl.AliasModel) (pal : list (list Q))
    (mdl_name obj_name : string) (frames : list (Q * Z)) (skin_idx : Z) (final_time : Q)
    (mdls_cfg : gmap string (gmap string bpy.cfg_value)) (static : bool) (fps : Q)
    (st : bpy_data) :
  is_Some (mdls_cfg !! "__default__") →
  length pal = 256 →
  mdl.disjoint_tri_sets am = [] →
  add_model am pal mdl_name obj_name frames skin_idx final_time mdls_cfg static fps st
  = Raise UnboundLocalError.
Proof.
  intros [cfg Hcfg] Hpal Hsets. unfold add_model.
  apply M_bind_Raise. right. eexists _, st. split.
  { apply lift_Ok. split; [|done]. unfold _get_model_config, dict_get.
    by rewrite Hcfg. }
  apply M_bind_Raise. right. eexists _, st. split.
  { apply lift_Ok. split; [|done]. by apply add_alpha_Ok. }
  apply M_bind_Raise. right. eexists _, _. split; [done|].
  apply M_bind_Raise. right. eexists _, _. split; [done|].
  by rewrite Hsets.
Qed.

Lemma add_model_no_tri_sets_witness :
  @add_model sample_pyquake (sample_model [mdl.Single (sample_frame "stand1" 0)] [])
    sample_pal "square" "ent1" [(0, 0%Z)]%Q 0 5 (sample_cfg false) false 30 empty_data
  = Raise UnboundLocalError.
Proof.
  apply (add_model_no_tri_sets (H:=sample_pyquake)).
  - by eexists.
  - reflexivity.
  - reflexivity.
Defined.

(** X5: frame numbers are dictionary keys, not list indices.  A
    non-static call on a model whose frames are all SINGLE (and hold the
    vertices the first mesh uses) raises KeyError when the [frames]
    argument has an entry whose frame number is not in
    [range(len(am.frames))]; a negative number does not count from the
    end. *)
Theorem add_model_unknown_frame_number `{Pyquake} (am : mdl.AliasModel)
    (pal : list (list Q)) (mdl_name obj_name : string) (frames : list (Q * Z))
    (skin_idx : Z) (final_time : Q) (mdls_cfg : gmap string (gmap string bpy.cfg_value))
    (fps : Q) (st : bpy_data) (tri_set : list Z) (rest : list (list Z))
    (pd : pydata vert) (vert_map : list Z) (singles : list mdl.SimpleFrame)
    (time : Q) (frame_num : Z) :
  is_Some (mdls_cfg !! "__default__") →
  length pal = 256 →
  mdl.disjoint_tri_sets am = tri_set :: rest →
  tri_set_pydata am tri_set = Ok (pd, vert_map) →
  mdl.frames am = mdl.Single <$> singles →
  (∀ simple_frame old, simple_frame ∈ singles → old ∈ vert_map →
     is_Ok (py_index (mdl.frame_verts simple_frame) old)) →
  (time, frame_num) ∈ frames →
  ¬ (0 ≤ frame_num < Z.of_nat (length (mdl.frames am)))%Z →
  add_model am pal mdl_name obj_name frames skin_idx final_time mdls_cfg false fps st
  = Raise KeyError.
Proof.
  intros Hcfg Hpal Hsets Hpd Hframes Hverts Hin Hrange. destruct pd as [[verts edges] faces].
  eapply add_model_first_Raise; [done..|].
  unfold tri_set_keys. simpl.
  destruct (traverse_total (frame_key verts vert_map) (mdl.frames am)) as [keys Hkeys].
  { rewrite Hframes. intros f (simple_frame & -> & Hsf)%list_elem_of_fmap.
    unfold frame_key. simpl. apply block_key_total. intros old Hold. by apply Hverts. }
  rewrite Hkeys. simpl. unfold animated_keys.
  rewrite resolve_missing; [done|].
  exists (time, frame_num). split; [done|]. simpl.
  rewrite extend_blocks_lookup. apply traverse_Ok, Forall2_length in Hkeys.
  rewrite decide_False by lia. done.
Qed.

Lemma add_model_unknown_frame_number_witness :
  @add_model sample_pyquake two_pose_model sample_pal "square" "ent1"
    [(0, 0%Z); (1, (-1)%Z)]%Q 0 5 (sample_cfg false) false 30 empty_data
  = Raise KeyError.
Proof.
  destruct (returns_true (tri_set_pydata two_pose_model [0; 1]%Z))
    as ([pd vert_map] & Hpd); [vm_compute; reflexivity|].
  assert (vert_map = [0; 1; 2; 3]%Z) as Hmap.
  { assert (snd <$> tri_set_pydata two_pose_model [0; 1]%Z = Ok [0; 1; 2; 3]%Z) as Hsnd
      by (vm_compute; reflexivity).
    rewrite Hpd in Hsnd. simpl in Hsnd. by injection Hsnd. }
  refine (add_model_unknown_frame_number (H:=sample_pyquake) two_pose_model sample_pal
            "square" "ent1" [(0, 0%Z); (1, (-1)%Z)]%Q 0 5 (sample_cfg false) 30 empty_data
            [0; 1]%Z [] pd vert_map [sample_frame "stand1" 0; sample_frame "stand2" 1]
            1 (-1)%Z _ _ eq_refl Hpd eq_refl _ _ _).
  - by eexists.
  - reflexivity.
  - intros simple_frame old Hsf Hold. rewrite Hmap in Hold.
    apply py_index_in_range.
    rewrite !elem_of_cons, elem_of_nil in Hsf. rewrite !elem_of_cons, elem_of_nil in Hold.
    destruct Hsf as [->|[->|[]]]; unfold sample_frame; cbn [mdl.frame_verts length]; lia.
  - apply elem_of_cons. right. apply elem_of_cons. by left.
  - simpl. lia.
Defined.

(** ** More on [_get_model_config] and [_simplify_pydata] *)

(** X6: the configuration of a model is the default entry overridden
    key by key by the model's own entry.  Without a ["__default__"]
    entry the lookup raises KeyError, also when the model has an entry
    of its own; with one, a key has the value of the model's entry
    where that has the key and the default's value elsewhere, so that a
    model without an entry gets the defaults. *)
Theorem get_model_config_overrides (mdl_name : string)
    (mdls_cfg : gmap string (gmap string bpy.cfg_value)) :
  (mdls_cfg !! "__default__" = None →
     _get_model_config mdl_name mdls_cfg = Raise KeyError)
  ∧ (∀ defaults, mdls_cfg !! "__default__" = Some defaults →
       ∃ cfg, _get_model_config mdl_name mdls_cfg = Ok cfg
         ∧ (∀ key, cfg !! key
                   = match mdls_cfg !! mdl_name ≫= (.!! key) with
                     | Some v => Some v
                     | None => defaults !! key
                     end)
         ∧ (mdls_cfg !! mdl_name = None → cfg = defaults)).
Proof.
  unfold _get_model_config, dict_get. split.
  - by intros ->.
  - intros defaults ->. simpl. eexists. split; [done|]. split.
    + intros key. rewrite lookup_union.
      destruct (mdls_cfg !! mdl_name) as [own|]; simpl.
      * destruct (own !! key), (defaults !! key); done.
      * rewrite lookup_empty. by destruct (defaults !! key).
    + intros ->. simpl. by rewrite (left_id_L ∅ (∪)).
Qed.

(** X7: [_simplify_pydata] fails exactly on a vertex index outside the
    vertex list.  It raises IndexError if and only if some triangle
    names an index that is not in [-len(verts), len(verts)), and it
    raises nothing else: the [index] call never fails, since the index
    it looks for has just been entered. *)
Theorem simplify_pydata_IndexError {V} (verts : list V) (tris : list (list Z)) :
  (_simplify_pydata verts tris = Raise IndexError
   ↔ ∃ tri v, tri ∈ tris ∧ v ∈ tri
       ∧ ¬ (- Z.of_nat (length verts) ≤ v < Z.of_nat (length verts))%Z)
  ∧ ∀ e, _simplify_pydata verts tris = Raise e → e = IndexError.
Proof.
  split; [|apply simplify_pydata_Raise]. split.
  - intros Hr.
    destruct (decide (Forall (Forall (λ v,
                (- Z.of_nat (length verts) ≤ v < Z.of_nat (length verts))%Z)) tris))
      as [Hall|Hex].
    + destruct (simplify_pydata_total verts tris) as [x Hx]; [|congruence].
      intros tri v Htri Hv. rewrite Forall_forall in Hall.
      specialize (Hall tri Htri). rewrite Forall_forall in Hall. by apply Hall.
    + apply not_Forall_Exists in Hex; [|apply _].
      apply Exists_exists in Hex as (tri & Htri & Hex).
      apply not_Forall_Exists in Hex; [|apply _].
      apply Exists_exists in Hex as (v & Hv & Hex).
      by exists tri, v.
  - intros (tri & v & Htri & Hv & Hrange).
    destruct (_simplify_pydata verts tris) as [[pd vert_map]|e] eqn:Hrun.
    + apply simplify_pydata_Ok in Hrun as (new_verts & new_tris & _ & -> & Hnv & _).
      assert (v ∈ first_uses [] (mjoin tris)) as [i Hi]%list_elem_of_lookup_1.
      { apply first_uses_elem. split; [|apply not_elem_of_nil].
        apply list_elem_of_join. eauto. }
      destruct (Forall2_lookup_l _ _ _ _ _ Hnv Hi) as (x & _ & Hx).
      destruct Hrange.
      apply py_index_Ok in Hx as [[? ?%lookup_lt_Some]|(? & ? & ?%lookup_lt_Some)]; lia.
    + by apply simplify_pydata_Raise in Hrun as ->.
Qed.

(** The positions of the first uses of the renamed indices are
    0, 1, 2, ... *)
Lemma first_uses_renamed (l : list Z) :
  ∀ (seen : list Z) (ks : list nat),
    NoDup (seen ++ first_uses seen l) →
    Forall2 (λ v k, (seen ++ first_uses seen l) !! k = Some v) l ks →
    first_uses (Z.of_nat <$> seq 0 (length seen)) (Z.of_nat <$> ks)
    = Z.of_nat <$> seq (length seen) (length (first_uses seen l)).
Proof.
  induction l as [|x l IH]; intros seen ks Hnd Hren.
  - apply Forall2_nil_inv_l in Hren as ->. done.
  - apply Forall2_cons_inv_l in Hren as (k & ks' & Hk & Hren & ->).
    simpl in *. case_bool_decide as Hx.
    + apply list_elem_of_lookup_1 in Hx as [j Hj].
      assert (k = j) as ->.
      { eapply NoDup_lookup; [exact Hnd|exact Hk|]. by apply lookup_app_l_Some. }
      rewrite bool_decide_eq_true_2.
      2: { apply list_elem_of_fmap. exists j. split; [done|].
           apply elem_of_seq. apply lookup_lt_Some in Hj. lia. }
      by apply IH.
    + assert (k = length seen) as ->.
      { eapply NoDup_lookup; [exact Hnd|exact Hk|]. by apply list_lookup_middle. }
      rewrite bool_decide_eq_false_2.
      2: { intros (j & Hj%(inj Z.of_nat) & Hin%elem_of_seq)%list_elem_of_fmap. lia. }
      simpl. f_equal.
      specialize (IH (seen ++ [x]) ks').
      rewrite length_app, seq_app, fmap_app in IH. simpl in IH.
      rewrite Nat.add_1_r in IH. rewrite <-app_assoc in IH. apply IH; done.
Qed.

(** X8: simplifying a second time changes nothing.  The vertices and
    triangles that [_simplify_pydata] returns are returned unchanged
    when it is applied to them, now with the identity vertex map
    [0, 1, ..., len(verts) - 1]. *)
Theorem simplify_pydata_idempotent {V} (verts new_verts : list V) (tris : list (list Z))
    (edges : list (nat * nat)) (new_tris : list (list nat)) (vert_map : list Z) :
  _simplify_pydata verts tris = Ok ((new_verts, edges, new_tris), vert_map) →
  _simplify_pydata new_verts ((λ tri : list nat, Z.of_nat <$> tri) <$> new_tris)
  = Ok ((new_verts, [], new_tris), Z.of_nat <$> seq 0 (length new_verts)).
Proof.
  intros (nv & nt & [= -> -> ->] & Hvm & Hnv & Hnt)%simplify_pydata_Ok.
  assert (length nv = length vert_map) as Hlen by (symmetry; by eapply Forall2_length).
  unfold _simplify_pydata.
  set (tris' := (λ tri : list nat, Z.of_nat <$> tri) <$> nt).
  destruct (simplify_tri_loop tris' [] []) as (nts & -> & Hnts).
  cbn [app] in *.
  assert (first_uses [] (mjoin tris') = Z.of_nat <$> seq 0 (length nv)) as Hfirst.
  { assert (mjoin tris' = Z.of_nat <$> mjoin nt) as ->.
    { unfold tris'. clear. induction nt as [|t nt IH]; [done|].
      rewrite fmap_cons. cbn [mjoin list_join]. rewrite fmap_app. f_equal. exact IH. }
    rewrite Hlen, Hvm.
    apply (first_uses_renamed (mjoin tris) [] (mjoin nt)); simpl.
    - apply first_uses_NoDup.
    - rewrite <-Hvm. by apply Forall2_join. }
  rewrite Hfirst in *. cbn [mbind result_bind].
  assert (traverse (py_index nv) (Z.of_nat <$> seq 0 (length nv)) = Ok nv) as ->.
  { apply traverse_Ok, Forall2_fmap_l, Forall2_same_length_lookup_2.
    - by rewrite length_seq.
    - intros i j x [-> _]%lookup_seq Hx. by apply py_index_nat. }
  cbn [mbind result_bind]. do 3 f_equal. symmetry. apply list_eq_Forall2.
  unfold tris' in Hnts. rewrite Forall2_fmap_l in Hnts. eapply Forall2_impl; [exact Hnts|].
  intros tri tri' Hren. apply list_eq_Forall2.
  unfold renames, compose in Hren. rewrite Forall2_fmap_l in Hren. eapply Forall2_impl; [exact Hren|].
  intros k k'. unfold compose. rewrite list_lookup_fmap.
  destruct (seq 0 (length nv) !! k') as [j|] eqn:Hj; [|done].
  apply lookup_seq in Hj as [-> _]. simpl. intros [= ?]. lia.
Qed.

Lemma simplify_pydata_idempotent_witness :
  _simplify_pydata ["e"; "c"; "b"; "d"]%string [[0; 1; 2]; [1; 0; 3]]%Z
  = Ok ((["e"; "c"; "b"; "d"]%string, [], [[0; 1; 2]; [1; 0; 3]]), [0; 1; 2; 3]%Z).
Proof.
  exact (simplify_pydata_idempotent ["a"; "b"; "c"; "d"; "e"]%string
           ["e"; "c"; "b"; "d"]%string [[4; 2; 1]; [2; 4; 3]]%Z [] [[0; 1; 2]; [1; 0; 3]]
           [4; 2; 1; 3]%Z eq_refl).
Defined.

(** X9: the fullbright fraction does not depend on the order of the
    triangles.  For two triangle sets that are permutations of each
    other, all of whose skin lookups succeed,
    [_get_tri_set_fullbright_frac] gives the same result. *)
Theorem fullbright_frac_permutation (am : mdl.AliasModel) (tri_set tri_set' : list Z)
    (skin_idx : Z) :
  tri_set ≡ₚ tri_set' →
  (∀ tri_idx, tri_idx ∈ tri_set → is_Some (mdl.get_tri_skin am tri_idx skin_idx)) →
  _get_tri_set_fullbright_frac am tri_set skin_idx
  = _get_tri_set_fullbright_frac am tri_set' skin_idx.
Proof.
  intros Hperm Hall.
  set (g := λ t, default [] (mdl.get_tri_skin am t skin_idx)).
  assert (∀ l, (∀ t, t ∈ l → is_Some (mdl.get_tri_skin am t skin_idx)) →
               Forall2 (λ t x, mdl.get_tri_skin am t skin_idx = Some x) l (g <$> l)) as Hg.
  { intros l Hl. apply Forall2_fmap_r, Forall_Forall2_diag, Forall_forall.
    intros t Ht. unfold compose, g. by destruct (Hl t Ht) as [x ->]. }
  unfold _get_tri_set_fullbright_frac.
  rewrite (fullbright_loop _ _ _ _ _ _ (Hg tri_set Hall)).
  rewrite (fullbright_loop _ _ _ (g <$> tri_set')).
  2: { apply Hg. intros t Ht. apply Hall. by rewrite Hperm. }
  unfold fullbright, masked. rewrite <-Hperm. simpl.
  destruct tri_set, tri_set'; try done.
  - by apply Permutation_nil_cons in Hperm.
  - symmetry in Hperm. by apply Permutation_nil_cons in Hperm.
Qed.

Lemma fullbright_frac_permutation_witness :
  _get_tri_set_fullbright_frac two_pose_model [0; 1]%Z 0
  = _get_tri_set_fullbright_frac two_pose_model [1; 0]%Z 0.
Proof.
  apply fullbright_frac_permutation.
  - apply perm_swap.
  - intros tri_idx Hin. rewrite !elem_of_cons, elem_of_nil in Hin.
    destruct Hin as [->|[->|[]]]; by eexists.
Defined.

(** ** More on [_animate] *)













(** ** Static models: the looping group frame *)










(** ** The store after [add_model] *)

(** X15: [add_model] links what it creates to the scene.  After a
    successful call the scene collection holds, after its former
    entries, the new empty object followed by the sub-objects of the
    triangle sets in their order, each once, and the returned record
    names the model and the empty object. *)
Theorem add_model_scene_links `{Pyquake} (am : mdl.AliasModel) (pal : list (list Q))
    (mdl_name obj_name : string) (frames : list (Q * Z)) (skin_idx : Z) (final_time : Q)
    (mdls_cfg : gmap string (gmap string bpy.cfg_value)) (static : bool) (fps : Q)
    (st st' : bpy_data) (bm : BlendMdl.t) :
  add_model am pal mdl_name obj_name frames skin_idx final_time mdls_cfg static fps st
  = Ok (bm, st') →
  BlendMdl.am bm = am
  ∧ BlendMdl.obj bm = length (objects st)
  ∧ length (objects st') = length (objects st) + 1 + length (mdl.disjoint_tri_sets am)
  ∧ scene_objects st'
    = scene_objects st
      ++ BlendMdl.obj bm
         :: ((λ i, BlendMdl.obj bm + 1 + i) <$> seq 0 (length (mdl.disjoint_tri_sets am))).
Proof.
  intros (mdl_cfg & _ & _ & Ham & Hobj & (new_objects & Ho & Hlen) & _ & Hscene & _)
           %add_model_Ok.
  split; [done|]. split; [done|]. split.
  { rewrite Ho, length_app. simpl. lia. }
  rewrite Hscene, Hobj. f_equal. simpl. f_equal.
  replace (S (length (objects st))) with (S (length (objects st)) + 0) by lia.
  rewrite <-fmap_add_seq. apply list_fmap_ext. intros _ i _. lia.
Qed.

Lemma add_model_scene_links_witness :
  ∃ bm st',
    @add_model sample_pyquake flame_model sample_pal "flame" "ent1"
      [(0, 0%Z)]%Q 0 (5 # 10) (sample_cfg false) true 30 empty_data = Ok (bm, st')
    ∧ scene_objects st' = [0; 1; 2].
Proof.
  destruct (returns_true
              (@add_model sample_pyquake flame_model sample_pal "flame" "ent1"
                 [(0, 0%Z)]%Q 0 (5 # 10) (sample_cfg false) true 30 empty_data))
    as ([bm st'] & Hrun); [vm_compute; reflexivity|].
  destruct (add_model_scene_links _ _ _ _ _ _ _ _ _ _ _ _ _ Hrun)
    as (_ & Hobj & _ & Hscene).
  exists bm, st'. split; [exact Hrun|].
  rewrite Hobj in Hscene. exact Hscene.
Defined.

Lemma set_uvs_materials `{Pyquake} mesh am tri_set (st st' : bpy_data) u :
  _set_uvs mesh am tri_set st = Ok (u, st') → materials st' = materials st.
Proof.
  unfold _set_uvs.
  intros ([] & st1 & [= <-] & Hr)%M_bind_Ok.
  apply M_bind_Ok in Hr as (m & st2 & Hget & Hr).
  unfold get_mesh in Hget. destruct (meshes _ !! mesh); [|done]. injection Hget as <- <-.
  apply M_bind_Ok in Hr as (uv & st3 & [_ ->]%lift_Ok & Hr).
  apply M_bind_Ok in Hr as (uv' & st4 & [_ ->]%lift_Ok & Hr).
  by injection Hr as <- <-.
Qed.

(** The material and the set of light-sampled materials after one
    iteration. *)
Lemma add_tri_set_lights `{Pyquake} am pal mdl_name obj_name frames skin_idx final_time
    mdl_cfg static fps obj s tri_set_idx tri_set (st st' : bpy_data) s' :
  add_tri_set am pal mdl_name obj_name frames skin_idx final_time mdl_cfg static fps obj
    s (tri_set_idx, tri_set) st = Ok (s', st') →
  ∃ v, mdl_cfg !! "sample_as_light" = Some v
    ∧ (is_Some (materials st !! material_name mdl_name obj_name skin_idx tri_set_idx v) →
         materials st' = materials st ∧ s'.2 = s.2)
    ∧ (materials st !! material_name mdl_name obj_name skin_idx tri_set_idx v = None →
         (∃ x, materials st'
               = <[material_name mdl_name obj_name skin_idx tri_set_idx v := x]>
                   (materials st))
         ∧ s'.2 = if truthy v
                  then {[material_name mdl_name obj_name skin_idx tri_set_idx v]} ∪ s.2
                  else s.2).
Proof.
  rewrite add_tri_set_eq.
  destruct (tri_set_pydata am tri_set) as [[[[verts edges] faces] vert_map]|e]; [|done].
  destruct (tri_set_keys _ _ _ _ _ _ _ _) as [[blocks keys]|e]; [|done].
  intros ([mat lights'] & st1 & Hmat & Hrest)%M_bind_Ok.
  apply tri_set_material_Ok in Hmat as (v & Hv & -> & _ & _ & _ & _ & Hsome & Hnone).
  apply M_bind_Ok in Hrest as ([] & st2 & [= <-] & Hrest).
  apply M_bind_Ok in Hrest as ([] & st3 & Huv%set_uvs_materials & [= <- <-]).
  cbn [materials with_sub_object snd] in *.
  exists v. split; [done|]. rewrite Huv. split.
  - intros Hin. destruct (Hsome Hin) as [-> ->]. done.
  - intros Hout. destruct (Hnone Hout) as [[x ->] ->]. split; [by exists x|done].
Qed.

Lemma names_S (f : nat → string) (n : nat) :
  list_to_set (C:=gset string) (f <$> seq 0 (S n))
  = {[f 0]} ∪ list_to_set ((λ j, f (S j)) <$> seq 0 n).
Proof.
  rewrite <-cons_seq, fmap_cons, list_to_set_cons, <-fmap_S_seq, <-list_fmap_compose.
  done.
Qed.

Lemma add_tri_sets_lights `{Pyquake} am pal mdl_name obj_name frames skin_idx final_time
    mdl_cfg static fps obj v tri_sets :
  mdl_cfg !! "sample_as_light" = Some v →
  ∀ i s (st st' : bpy_data) s',
    for_inM (imap (λ j x, (i + j, x)) tri_sets)
      (add_tri_set am pal mdl_name obj_name frames skin_idx final_time mdl_cfg static fps
         obj) s st = Ok (s', st') →
    dom (materials st')
    = dom (materials st)
      ∪ list_to_set ((λ j, material_name mdl_name obj_name skin_idx (i + j) v)
                     <$> seq 0 (length tri_sets))
    ∧ s'.2 = s.2 ∪ (if truthy v then dom (materials st') ∖ dom (materials st) else ∅).
Proof.
  intros Hv. induction tri_sets as [|tri_set tri_sets IH]; intros i s st st' s'.
  - intros [= <- <-]. simpl. rewrite (right_id_L ∅ (∪)). split; [done|].
    rewrite difference_diag_L. destruct (truthy v); by rewrite (right_id_L ∅ (∪)).
  - rewrite imap_cons. cbn [for_inM].
    intros (s1 & st1 & Hbody & Hrest)%M_bind_Ok.
    rewrite Nat.add_0_r in Hbody.
    rewrite (imap_ext _ (λ j x, (S i + j, x))) in Hrest
      by (intros; simpl; f_equal; lia).
    apply add_tri_set_lights in Hbody as (v' & Hv' & Hsome & Hnone).
    assert (v' = v) as -> by congruence.
    apply IH in Hrest as [Hdom Hlights].
    cbn [length].
    rewrite (names_S (λ j, material_name mdl_name obj_name skin_idx (i + j) v)).
    cbv beta.
    replace ((λ j, material_name mdl_name obj_name skin_idx (i + S j) v)
             <$> seq 0 (length tri_sets))
      with ((λ j, material_name mdl_name obj_name skin_idx (S i + j) v)
            <$> seq 0 (length tri_sets))
      by (apply list_fmap_ext; intros; f_equal; lia).
    rewrite Nat.add_0_r. rewrite Hlights, Hdom.
    set (name := material_name mdl_name obj_name skin_idx i v) in *.
    generalize (list_to_set (C:=gset string)
                  ((λ j, material_name mdl_name obj_name skin_idx (S i + j) v)
                   <$> seq 0 (length tri_sets))).
    intros names. clear Hdom Hlights IH.
    destruct (materials st !! name) as [x|] eqn:Hname.
    + destruct Hsome as [-> ->]; [by eexists|].
      assert (name ∈ dom (materials st)) as Hin by (apply elem_of_dom; by eexists).
      split.
      * apply set_eq. intros z. rewrite !elem_of_union, elem_of_singleton.
        destruct (decide (z = name)) as [->|]; tauto.
      * done.
    + destruct (Hnone eq_refl) as [[y ->] ->]. rewrite dom_insert_L.
      assert (name ∉ dom (materials st)) as Hout by (by apply not_elem_of_dom).
      split.
      * apply set_eq. intros z. rewrite !elem_of_union, elem_of_singleton. tauto.
      * destruct (truthy v).
        -- apply set_eq. intros z.
           rewrite !elem_of_union, !elem_of_difference, !elem_of_union, elem_of_singleton.
           destruct (decide (z = name)) as [->|]; tauto.
        -- f_equal.
Qed.

(** X16: the materials of a call.  After a successful [add_model] the
    material collection holds what it held before, unchanged, and the
    materials named for the triangle sets: the material of set [i] is
    named [mdl_name_skinN] when [sample_as_light] is not set in the
    model's configuration, and [mdl_name_skinN_obj_name_trisetI_fullbright]
    when it is.  The mesh of every triangle set has that material in
    its single slot.  The returned [sample_as_light_mats] holds the
    materials that the call created when [sample_as_light] is set, and
    is empty when it is not. *)
Theorem add_model_materials `{Pyquake} (am : mdl.AliasModel) (pal : list (list Q))
    (mdl_name obj_name : string) (frames : list (Q * Z)) (skin_idx : Z) (final_time : Q)
    (mdls_cfg : gmap string (gmap string bpy.cfg_value)) (static : bool) (fps : Q)
    (st st' : bpy_data) (bm : BlendMdl.t) :
  add_model am pal mdl_name obj_name frames skin_idx final_time mdls_cfg static fps st
  = Ok (bm, st') →
  ∃ mdl_cfg v (name : nat → string),
    _get_model_config mdl_name mdls_cfg = Ok mdl_cfg
    ∧ mdl_cfg !! "sample_as_light" = Some v
    ∧ (∀ i, name i
            = if truthy v
              then mdl_name +:+ "_skin" +:+ pretty skin_idx +:+ "_" +:+ obj_name
                   +:+ "_triset" +:+ pretty i +:+ "_fullbright"
              else mdl_name +:+ "_skin" +:+ pretty skin_idx)
    ∧ (∀ k x, materials st !! k = Some x → materials st' !! k = Some x)
    ∧ dom (materials st')
      = dom (materials st)
        ∪ list_to_set (name <$> seq 0 (length (mdl.disjoint_tri_sets am)))
    ∧ (∀ i, i < length (mdl.disjoint_tri_sets am) →
         ∃ m, meshes st' !! (length (meshes st) + i) = Some m
           ∧ bpy.mesh_materials m = [name i])
    ∧ BlendMdl.sample_as_light_mats bm
      = if truthy v then dom (materials st') ∖ dom (materials st) else ∅.
Proof.
  intros Hrun. pose proof Hrun as Hrun'.
  apply add_model_Ok in Hrun'
    as (mdl_cfg & Hcfg & Hpal & _ & _ & _ & _ & _ & Hne & Hbuilt & Hmono & _).
  destruct (mdl.disjoint_tri_sets am) as [|tri_set0 rest] eqn:Hsets; [done|].
  destruct (Hbuilt 0 tri_set0 eq_refl) as (blocks0 & Hb0 & _).
  destruct Hb0 as (? & ? & ? & ? & ? & v & ? & _ & _ & Hv & _).
  exists mdl_cfg, v, (λ i, material_name mdl_name obj_name skin_idx i v).
  split; [done|]. split; [done|]. split; [done|]. split; [done|].
  unfold add_model in Hrun.
  apply M_bind_Ok in Hrun as (mdl_cfg' & st0 & [Hcfg' ->]%lift_Ok & Hrun).
  assert (mdl_cfg' = mdl_cfg) as -> by congruence.
  apply M_bind_Ok in Hrun as (pal' & st0 & [_ ->]%lift_Ok & Hrun).
  apply M_bind_Ok in Hrun as (obj & st1 & [= <- <-] & Hrun).
  apply M_bind_Ok in Hrun as ([] & st2 & [= <-] & Hrun).
  apply M_bind_Ok in Hrun as ([blocks lights] & st3 & Hloop & Hrun).
  destruct blocks as [blocks|]; [|done]. injection Hrun as <- <-.
  rewrite Hsets in Hloop.
  change (enumerate ?l) with (imap (λ j x, (0 + j, x)) l) in Hloop.
  apply (add_tri_sets_lights _ _ _ _ _ _ _ _ _ _ _ v) in Hloop as [Hdom Hlights];
    [|done].
  cbn [materials snd BlendMdl.sample_as_light_mats] in *.
  split; [exact Hdom|]. split.
  - intros i Hi. destruct (lookup_lt_is_Some_2 (tri_set0 :: rest) i Hi) as [tri_set Hts].
    destruct (Hbuilt i tri_set Hts) as (blocks' & Hb & _).
    destruct Hb as (? & ? & ? & ? & ? & v' & ? & _ & _ & Hv' & _ & _ & Hm & _).
    assert (v' = v) as -> by congruence.
    eexists. split; [exact Hm|done].
  - rewrite Hlights. by rewrite (left_id_L ∅ (∪)).
Qed.

Lemma add_model_materials_witness :
  ∃ bm st',
    @add_model sample_pyquake two_pose_model sample_pal "square" "ent1"
      [(0, 0%Z)]%Q 0 5 (sample_cfg true) false 30 empty_data = Ok (bm, st')
    ∧ BlendMdl.sample_as_light_mats bm = dom (materials st') ∖ ∅.
Proof.
  destruct (returns_true
              (@add_model sample_pyquake two_pose_model sample_pal "square" "ent1"
                 [(0, 0%Z)]%Q 0 5 (sample_cfg true) false 30 empty_data))
    as ([bm st'] & Hrun); [vm_compute; reflexivity|].
  destruct (add_model_materials _ _ _ _ _ _ _ _ _ _ _ _ _ Hrun)
    as (mdl_cfg & v & name & Hcfg & Hv & _ & _ & _ & _ & Hlights).
  injection Hcfg as <-. injection Hv as <-.
  exists bm, st'. split; [exact Hrun|exact Hlights].
Defined.

(** ** [_create_block] and [_set_uvs] on their own *)

(** X17: [_create_block] appends one block to the object's mesh.  On an
    object with a mesh, it returns exactly when the first entries of
    [vert_map], as many as the mesh has vertices, are indices of the
    pose's vertices; entries beyond the mesh's vertices are never
    looked up.  The block it returns is a new last block of the mesh,
    named after the pose, with weight 0 and no keyframes, holding one
    position per vertex of the mesh; position [i] of the block is the
    pose's vertex [vert_map[i]].  The blocks the mesh had, its
    geometry, the other meshes and the objects are as before. *)
Theorem create_block_appends `{Pyquake} (obj : nat) (o : bpy.Object) (mesh : nat)
    (m : bpy.Mesh) (simple_frame : mdl.SimpleFrame) (vert_map : list Z) (st : bpy_data) :
  objects st !! obj = Some o → bpy.data o = Some mesh → meshes st !! mesh = Some m →
  (is_Ok (_create_block obj simple_frame vert_map st)
   ↔ ∀ i old, i < length (bpy.vertices m) → vert_map !! i = Some old →
       (- Z.of_nat (length (mdl.frame_verts simple_frame)) ≤ old
        < Z.of_nat (length (mdl.frame_verts simple_frame)))%Z)
  ∧ ∀ block st', _create_block obj simple_frame vert_map st = Ok (block, st') →
      block = (mesh, length (bpy.shape_keys m))
      ∧ objects st' = objects st
      ∧ (∀ j, j ≠ mesh → meshes st' !! j = meshes st !! j)
      ∧ ∃ m' key,
          meshes st' !! mesh = Some m'
          ∧ bpy.shape_keys m' = bpy.shape_keys m ++ [key]
          ∧ bpy.vertices m' = bpy.vertices m
          ∧ bpy.polygons m' = bpy.polygons m
          ∧ bpy.key_name key = mdl.name simple_frame
          ∧ bpy.value key = 0%Q
          ∧ bpy.keyframes key = []
          ∧ length (bpy.key_data key) = length (bpy.vertices m)
          ∧ (∀ i old, i < length (bpy.vertices m) → vert_map !! i = Some old →
               ∃ co, py_index (mdl.frame_verts simple_frame) old = Ok co
                 ∧ bpy.key_data key !! i = Some co).
Proof.
  intros Ho Hmesh Hm. rewrite (create_block_eq obj o mesh m) by done.
  unfold block_key. split; [split|].
  - intros [[block st'] Hrun] i old Hi Hold.
    destruct (traverse _ _) as [cos|e] eqn:Hcos; [|done].
    apply traverse_Ok in Hcos.
    destruct (Forall2_lookup_l _ _ _ i old Hcos) as (co & _ & Hco).
    { by rewrite lookup_take_lt. }
    apply py_index_Ok in Hco as [[? ?%lookup_lt_Some]|(? & ? & ?%lookup_lt_Some)]; lia.
  - intros Hrange.
    destruct (traverse_total (py_index (mdl.frame_verts simple_frame))
                (take (length (bpy.vertices m)) vert_map)) as [cos ->].
    + intros old (i & Hi)%list_elem_of_lookup_1.
      apply lookup_take_Some in Hi as [Hi Hlt].
      apply py_index_in_range. by eapply Hrange.
    + by eexists.
  - intros block st'. destruct (traverse _ _) as [cos|e] eqn:Hcos; [|done].
    cbn [mbind result_bind]. intros [= <- <-]. apply traverse_Ok in Hcos.
    split; [done|]. split; [done|]. split.
    { intros j Hj. unfold set_mesh, with_meshes. cbn [meshes].
      by rewrite list_lookup_insert_ne. }
    eexists _, _. split.
    { unfold set_mesh, with_meshes. cbn [meshes].
      apply list_lookup_insert_eq. by eapply lookup_lt_Some. }
    cbn. split; [done|]. split; [done|]. split; [done|]. split; [done|].
    split; [done|]. split; [done|]. split; [apply assign_zip_length|].
    intros i old Hi Hold.
    destruct (Forall2_lookup_l _ _ _ i old Hcos) as (co & Hco & Hidx).
    { by rewrite lookup_take_lt. }
    exists co. split; [done|]. by apply (assign_zip_lookup id).
Qed.

Lemma create_block_appends_witness :
  ∃ block st', @_create_block sample_pyquake 1 (sample_frame "stand3" 2) [0; 1]%Z
                 sample_scene = Ok (block, st')
             ∧ block = (0, 2).
Proof.
  destruct (@create_block_appends sample_pyquake 1 _ 0 _ (sample_frame "stand3" 2)
              [0; 1]%Z sample_scene eq_refl eq_refl eq_refl) as [Hiff Hrun].
  destruct (proj2 Hiff) as [[block st'] Hok].
  - intros i old Hi Hold. unfold sample_frame. cbn [mdl.frame_verts length].
    destruct i as [|[|i]]; simpl in Hold; [injection Hold as <-; lia..|done].
  - exists block, st'. split; [exact Hok|].
    exact (proj1 (Hrun block st' Hok)).
Defined.




(** ** What a call of [add_model] needs *)

(** X19: what a successful call shows about its arguments.  When
    [add_model] returns, the configuration has a ["__default__"] entry
    and the model's configuration a ["sample_as_light"] key, the palette
    has 256 rows, and the model has a triangle set; for a non-static
    call, every frame of the model is SINGLE and every frame number in
    [frames] is in [range(len(am.frames))]. *)
Theorem add_model_requires `{Pyquake} (am : mdl.AliasModel) (pal : list (list Q))
    (mdl_name obj_name : string) (frames : list (Q * Z)) (skin_idx : Z) (final_time : Q)
    (mdls_cfg : gmap string (gmap string bpy.cfg_value)) (static : bool) (fps : Q)
    (st st' : bpy_data) (bm : BlendMdl.t) :
  add_model am pal mdl_name obj_name frames skin_idx final_time mdls_cfg static fps st
  = Ok (bm, st') →
  is_Some (mdls_cfg !! "__default__")
  ∧ (∃ mdl_cfg, _get_model_config mdl_name mdls_cfg = Ok mdl_cfg
                ∧ is_Some (mdl_cfg !! "sample_as_light"))
  ∧ length pal = 256
  ∧ mdl.disjoint_tri_sets am ≠ []
  ∧ (static = false →
       (∀ frame, frame ∈ mdl.frames am → mdl.frame_type frame = SINGLE)
       ∧ ∀ time frame_num, (time, frame_num) ∈ frames →
           (0 ≤ frame_num < Z.of_nat (length (mdl.frames am)))%Z).
Proof.
  intros (mdl_cfg & Hcfg & Hpal & _ & _ & _ & _ & _ & Hne & Hbuilt & _)%add_model_Ok.
  destruct (mdl.disjoint_tri_sets am) as [|tri_set0 rest] eqn:Hsets; [done|].
  destruct (Hbuilt 0 tri_set0 eq_refl) as (blocks0 & Hb0 & _).
  destruct Hb0 as (verts & edges & faces & vert_map & keys & v & uv & Hpd & Hkeys & Hv & _).
  split.
  { unfold _get_model_config, dict_get in Hcfg.
    destruct (mdls_cfg !! "__default__"); [by eexists|done]. }
  split; [exists mdl_cfg; split; [done|by eexists]|].
  split; [done|]. split; [done|].
  intros ->.
  apply tri_set_pydata_Ok in Hpd as (verts0 & tris & _ & _ & _ & Hverts & _).
  apply Forall2_length in Hverts as Hlen.
  apply tri_set_keys_animated_Ok in Hkeys as (keys0 & entries & Hk0 & Hblocks & Hres & _).
  apply Forall2_length in Hk0 as Hlen0.
  split.
  - intros frame (k & Hk)%list_elem_of_lookup_1.
    destruct (Forall2_lookup_l _ _ _ _ _ Hk0 Hk) as (k0 & _ & Hfk).
    by apply frame_key_Ok in Hfk as (simple_frame & -> & _).
  - intros time frame_num (j & Hj)%list_elem_of_lookup_1.
    destruct (Forall2_lookup_l _ _ _ _ _ Hres Hj) as ([t' b] & _ & _ & Hb).
    simpl in Hb. rewrite Hblocks, extend_blocks_lookup in Hb.
    case_decide as Hrange; [lia|]. by rewrite lookup_empty in Hb.
Qed.

Lemma add_model_requires_witness :
  ∃ bm st',
    @add_model sample_pyquake two_pose_model sample_pal "square" "ent1"
      [(0, 0%Z); (1 # 10, 1%Z)]%Q 0 5 (sample_cfg false) false 30 empty_data = Ok (bm, st')
    ∧ length sample_pal = 256.
Proof.
  destruct (returns_true
              (@add_model sample_pyquake two_pose_model sample_pal "square" "ent1"
                 [(0, 0%Z); (1 # 10, 1%Z)]%Q 0 5 (sample_cfg false) false 30 empty_data))
    as ([bm st'] & Hrun); [vm_compute; reflexivity|].
  destruct (add_model_requires _ _ _ _ _ _ _ _ _ _ _ _ _ Hrun) as (_ & _ & Hpal & _).
  exists bm, st'. split; [exact Hrun|exact Hpal].
Defined.

(** ** Keyframe numbers *)




